(** * Batch chart extraction tool: table classifier, workbook writer and
      rates explorer queries

    A shallow embedding of [transfer.py] (PDF table classification and the
    Excel writer) and of [viz_app.py] (the three dataframe queries of the
    rates explorer), with the properties the specification states about them.

    Conventions of the embedding.
    - A Python [str] is a [string]: each [ascii] stands for the code point of
      the same number (0..255).  [isdigit], [lower] and [strip] below are the
      Python functions restricted to those code points.
    - A Python exception is a value of [exn]; a function that may raise
      returns [exn + A].  Code with side effects (the trace of remote calls,
      the lines printed, the store of dataframe objects) is written in the
      state-and-exception monad [ES].
    - Numbers held in dataframes are IEEE binary64 floats ([PrimFloat.float]),
      as pandas stores them; [NaN] is the missing value. *)

From Stdlib Require Import Ascii String PrimFloat QArith.
From stdpp Require Import base gmap sets list strings pretty.

Set Warnings "-register-all".

Open Scope string_scope.
Open Scope list_scope.
Open Scope Z_scope.
Open Scope nat_scope.

(* ===================================================================== *)
(** * Python values shared by both programs *)
(* ===================================================================== *)

Module Py.

(** An exception, an instance of [Exception] (what [except Exception]
    catches): its class and the text [str(e)] gives. *)
Record exn := Exn { exn_class : string; exn_msg : string }.

Definition ZeroDivisionError : exn := Exn "ZeroDivisionError" "division by zero".
Definition KeyError (k : string) : exn := Exn "KeyError" k.
Definition TypeError (m : string) : exn := Exn "TypeError" m.
Definition AttributeError (m : string) : exn := Exn "AttributeError" m.

Definition result (A : Type) : Type := exn + A.

(** State and exceptions: a computation reads a state, and gives back an
    outcome ([inl e]: [e] was raised; [inr a]: returned [a]) and the state
    it leaves. *)
Definition ES (S A : Type) : Type := S → result A * S.

Definition ret {S A} (a : A) : ES S A := λ s, (inr a, s).
Definition raise {S A} (e : exn) : ES S A := λ s, (inl e, s).
Definition bind {S A B} (m : ES S A) (f : A → ES S B) : ES S B :=
  λ s, match m s with
       | (inr a, s') => f a s'
       | (inl e, s') => (inl e, s')
       end.
Definition lift {S A} (r : result A) : ES S A := λ s, (r, s).

(** [try: m except Exception as e: h e] *)
Definition try_except {S A} (m : ES S A) (h : exn → ES S A) : ES S A :=
  λ s, match m s with
       | (inr a, s') => (inr a, s')
       | (inl e, s') => h e s'
       end.

(** ** Strings *)

Definition ord (c : ascii) : N := N_of_ascii c.

(** [ch.isdigit()]: the decimal digits, and the superscripts two, three
    and one (U+00B2, U+00B3, U+00B9). *)
Definition isdigit (c : ascii) : bool :=
  let n := ord c in
  ((48 <=? n) && (n <=? 57) || (n =? 178) || (n =? 179) || (n =? 185))%N.

(** [ch.isspace()] below U+0100. *)
Definition isspace (c : ascii) : bool :=
  let n := ord c in
  ((9 <=? n) && (n <=? 13) || (28 <=? n) && (n <=? 32)
   || (n =? 133) || (n =? 160))%N.

(** [ch.lower()]: A..Z, and U+00C0..U+00DE but the multiplication sign. *)
Definition chr_lower (c : ascii) : ascii :=
  let n := ord c in
  if ((65 <=? n) && (n <=? 90)
      || (192 <=? n) && (n <=? 222) && negb (n =? 215))%N
  then ascii_of_N (n + 32) else c.

Fixpoint lower (s : string) : string :=
  match s with
  | EmptyString => EmptyString
  | String c s' => String (chr_lower c) (lower s')
  end.

(** [any(p(ch) for ch in s)] *)
Fixpoint str_any (p : ascii → bool) (s : string) : bool :=
  match s with
  | EmptyString => false
  | String c s' => p c || str_any p s'
  end.

(** [k in s] for strings: [k] occurs in [s]. *)
Fixpoint contains (k s : string) : bool :=
  match s with
  | EmptyString => String.prefix k EmptyString
  | String _ s' => String.prefix k s || contains k s'
  end.

Definition len (s : string) : nat := String.length s.

Fixpoint take_str (n : nat) (s : string) : string :=
  match n, s with
  | S n', String c s' => String c (take_str n' s')
  | _, _ => EmptyString
  end.

(** [s[:n]]: a negative [n] counts from the end of [s]. *)
Definition slice_to (s : string) (n : Z) : string :=
  if (0 <=? n)%Z then take_str (Z.to_nat n) s
  else take_str (Z.to_nat (Z.of_nat (len s) + n)) s.

Fixpoint lstrip (s : string) : string :=
  match s with
  | String c s' => if isspace c then lstrip s' else s
  | EmptyString => EmptyString
  end.

(** [s.strip()] *)
Definition strip (s : string) : string :=
  String.rev (lstrip (String.rev (lstrip s))).

(** [s.replace(old, rep)] with [rep] empty, for a non-empty [old]: scanning
    from the left, every occurrence found is dropped and the scan goes on
    after it.  [skip] counts the characters of the occurrence being
    dropped that are still ahead. *)
Fixpoint remove_all_from (old : string) (skip : nat) (s : string) : string :=
  match s with
  | EmptyString => EmptyString
  | String c s' =>
      match skip with
      | S n => remove_all_from old n s'
      | O => if String.prefix old s
             then remove_all_from old (len old - 1) s'
             else String c (remove_all_from old 0 s')
      end
  end.

Definition remove_all (old s : string) : string := remove_all_from old 0 s.

(** [str(n)] for a natural number. *)
Definition str_nat (n : nat) : string := pretty n.

(** Truth value of a string: [""] is false. *)
Definition truthy_str (s : string) : bool := negb (String.eqb s "").

End Py.

Import Py.

Declare Scope es_scope.
Delimit Scope es_scope with es.
Notation "x <- m ;; k" := (bind m (λ x, k))
  (at level 100, m at next level, right associativity) : es_scope.
Notation "m ;;; k" := (bind m (λ _, k))
  (at level 100, right associativity) : es_scope.

(* ===================================================================== *)
(** * transfer.py *)
(* ===================================================================== *)

Module Transfer.

(** A cell of an extracted table is a [str] or [None]. *)
Definition Cell : Type := option string.
Definition Row : Type := list Cell.
Definition Table : Type := list Row.

(** What [json.loads] returns.  The keys of a [PDict] are distinct, as
    those of a Python dict. *)
Inductive pyval :=
| PNone
| PBool (b : bool)
| PInt (n : Z)
| PFloat (f : float)
| PStr (s : string)
| PList (l : list pyval)
| PDict (d : list (string * pyval)).

(** Truth value, as [not v] and [v or w] test it. *)
Definition truthy (v : pyval) : bool :=
  match v with
  | PNone => false
  | PBool b => b
  | PInt n => negb (n =? 0)%Z
  | PFloat f => negb (f =? 0)%float
  | PStr s => truthy_str s
  | PList l => negb (bool_decide (length l = 0))
  | PDict d => negb (bool_decide (length d = 0))
  end.

Fixpoint assoc (k : string) (d : list (string * pyval)) : option pyval :=
  match d with
  | [] => None
  | (k', v) :: d' => if String.eqb k k' then Some v else assoc k d'
  end.

(** [cls.get(k)]: only a dict has the method. *)
Definition py_get (cls : pyval) (k : string) : result pyval :=
  match cls with
  | PDict d => inr (default PNone (assoc k d))
  | _ => inl (AttributeError "object has no attribute 'get'")
  end.

(** [v.strip()]: only a str has the method. *)
Definition py_strip (v : pyval) : result string :=
  match v with
  | PStr s => inr (strip s)
  | _ => inl (AttributeError "object has no attribute 'strip'")
  end.

(** The payload sent as the user message, and the request around it.  The
    other arguments of the call ([response_format], [temperature],
    [max_tokens]) are constants and are left out. *)
Record Payload := mkPayload {
  page_index : nat;
  page_text : string;
  table_preview : Table
}.

Record Request := mkRequest {
  req_model : string;
  req_system : string;
  req_user : Payload
}.

(** A line printed by [process_single_pdf], one constructor per [print]:
    [Processing n] is the line "Processing PDF: n", [Warn p t e] the line
    "[WARN] Model classification failed page=p, table=t: e", [Skipping]
    the line "No rate tables detected. Skipping." and [Generated f] the
    line that names the Excel file written. *)
Inductive line :=
| Processing (name : string)
| Warn (page table : nat) (e : exn)
| Skipping
| Generated (out_path : string).

Record RateTable := mkRateTable { sheet_title : string; data : Table }.

Definition Workbook : Type := list (string * Table).

(** What the program acts on: the requests sent so far, the lines
    printed, the files written. *)
Record world := mkWorld {
  calls : list Request;
  stdout : list line;
  files : list (string * Workbook)
}.

Definition OUTPUT_DIR : string := "output".

Definition KEYWORDS : list string :=
  [ "cost"; "rate"; "premium"; "weekly"; "monthly";
    "death"; "tpd"; "income protection";
    "waiting period"; "benefit period"; "cover" ].

Definition REJECTED : pyval :=
  PDict [("is_rate_table", PBool false); ("sheet_title", PStr "")].

Definition cell_has_digit (c : Cell) : bool :=
  match c with
  | Some s => str_any isdigit s
  | None => false
  end.

(** [digit_cells / total >= 0.5].  Python divides the two integers as
    floats; the quotient is correctly rounded and 0.5 is a float, so for
    rows of fewer than 2^53 cells the test is the one on the exact
    fraction, which is what is written here. *)
Definition is_numeric_row (row : Row) : result bool :=
  let digit_cells :=
    fold_left (λ n c, if cell_has_digit c then n + 1 else n) row 0 in
  let total := length row in
  match total with
  | O => inl ZeroDivisionError
  | S _ => inr (Qle_bool (1 # 2) (Z.of_nat digit_cells # Pos.of_nat total))
  end.

(** [sum(is_numeric_row(r) for r in table_preview)]: rows are taken in
    order, and the first exception ends the sum. *)
Fixpoint sum_numeric (acc : nat) (rows : Table) : result nat :=
  match rows with
  | [] => inr acc
  | r :: rows' =>
      match is_numeric_row r with
      | inl e => inl e
      | inr b => sum_numeric (if b then acc + 1 else acc) rows'
      end
  end.

Definition hit_keyword (text_lower : string) : bool :=
  existsb (λ k, contains k text_lower) KEYWORDS.

Definition print (l : line) : ES world unit :=
  λ w, (inr tt, mkWorld (calls w) (stdout w ++ [l]) (files w)).

Definition write_file (path : string) (wb : Workbook) : ES world unit :=
  λ w, (inr tt, mkWorld (calls w) (stdout w) (files w ++ [(path, wb)])).

Section Pipeline.

(** The system prompt, a constant of the module. *)
Variable CLASSIFIER_SYSTEM_PROMPT : string.

(** The remote service: what the [n]-th request of the run gives,
    either an exception or the content of the first choice (a [str] or
    [None]). *)
Variable remote : nat → Request → result (option string).

(** [json.loads] on a [str]. *)
Variable json_loads : string → result pyval.

(** [client.chat.completions.create(...)] followed by
    [resp.choices[0].message.content]. *)
Definition create (req : Request) : ES world (option string) :=
  λ w, (remote (length (calls w)) req,
        mkWorld (calls w ++ [req]) (stdout w) (files w)).

Definition loads (raw : option string) : result pyval :=
  match raw with
  | Some s => json_loads s
  | None => inl (TypeError "the JSON object must be str, bytes or bytearray, not NoneType")
  end.

Definition classify_table_with_model
    (page_index : nat) (page_text : option string)
    (table_preview : Table) (model : string) : ES world pyval :=
  (* STRUCTURAL FILTER *)
  let num_rows := length table_preview in
  let num_cols :=
    match table_preview with
    | [] => 0
    | _ => max_list (map length table_preview)
    end in
  if (num_rows <? 4) || (num_cols <? 4) then ret REJECTED else
  (* NUMERIC ROW CHECK *)
  (numeric_row_count <- lift (sum_numeric 0 table_preview) ;;
   if numeric_row_count <? 2 then ret REJECTED else
   (* KEYWORD CHECK *)
   let text_lower :=
     lower (match page_text with
            | Some s => if truthy_str s then s else ""
            | None => ""
            end) in
   let hit_keyword := hit_keyword text_lower in
   (* CALL MODEL FOR FINAL DECISION *)
   let payload := mkPayload page_index (slice_to text_lower 1500) table_preview in
   raw <- create (mkRequest model CLASSIFIER_SYSTEM_PROMPT payload) ;;
   lift (loads raw))%es.

Definition fallback_title (page_idx t_idx : nat) : string :=
  "Rates page " +:+ str_nat (page_idx + 1)
    +:+ " table " +:+ str_nat (t_idx + 1).

(** The body of the loop over the tables of a page; [continue] is the
    return of the list unchanged. *)
Definition process_table (model : string) (page_idx : nat)
    (page_text : string) (t_idx : nat) (tbl : Table)
    (rate_tables : list RateTable) : ES world (list RateTable) :=
  match tbl with
  | [] => ret rate_tables
  | _ =>
    let preview := map (take 8) (take 6 tbl) in
    (cls <- try_except
              (c <- classify_table_with_model page_idx (Some page_text) preview model ;;
               ret (Some c))
              (λ e, print (Warn (page_idx + 1) (t_idx + 1) e) ;;; ret None) ;;
     match cls with
     | None => ret rate_tables
     | Some cls =>
       is_rate <- lift (py_get cls "is_rate_table") ;;
       if negb (truthy is_rate) then ret rate_tables else
       title <- lift (py_get cls "sheet_title") ;;
       let raw_title :=
         if truthy title then title else PStr (fallback_title page_idx t_idx) in
       stripped <- lift (py_strip raw_title) ;;
       let sheet_title :=
         if truthy_str stripped then stripped else fallback_title page_idx t_idx in
       ret (rate_tables ++ [mkRateTable sheet_title tbl])
     end)%es
  end.

(** [for t_idx, tbl in enumerate(tables)], from index [t_idx] on. *)
Fixpoint for_tables (model : string) (page_idx : nat) (page_text : string)
    (t_idx : nat) (tables : list Table)
    (rate_tables : list RateTable) : ES world (list RateTable) :=
  match tables with
  | [] => ret rate_tables
  | tbl :: tables' =>
    (rate_tables' <- process_table model page_idx page_text t_idx tbl rate_tables ;;
     for_tables model page_idx page_text (S t_idx) tables' rate_tables')%es
  end.

(** A page as [pdfplumber] gives it. *)
Record Page := mkPage {
  extract_text : option string;
  extract_tables : list Table
}.

(** [for page_idx, page in enumerate(pdf.pages)], from [page_idx] on. *)
Fixpoint for_pages (model : string) (page_idx : nat) (pages : list Page)
    (rate_tables : list RateTable) : ES world (list RateTable) :=
  match pages with
  | [] => ret rate_tables
  | page :: pages' =>
    let page_text :=
      match extract_text page with
      | Some s => if truthy_str s then s else ""
      | None => ""
      end in
    (rate_tables' <- for_tables model page_idx page_text 0
                       (extract_tables page) rate_tables ;;
     for_pages model (S page_idx) pages' rate_tables')%es
  end.

(** The [while name in used_names] loop.  [fuel] bounds the number of
    tests of the condition; [None] stands for a loop still running when
    the fuel is spent. *)
Fixpoint next_free_name (fuel : nat) (used_names : gset string)
    (base_name name : string) (k : nat) : option string :=
  match fuel with
  | O => None
  | S fuel' =>
    if bool_decide (name ∈ used_names) then
      let suffix := "_" +:+ str_nat k in
      next_free_name fuel' used_names base_name
        (slice_to base_name (31 - Z.of_nat (len suffix)) +:+ suffix) (k + 1)
    else Some name
  end.

(** [for idx, tbl in enumerate(rate_tables)]: the sheets written, in
    order.  The loop of each table is given [size used_names + 2]
    tests, which is always enough ([next_free_name_total]). *)
Fixpoint write_sheets (used_names : gset string)
    (rate_tables : list RateTable) : option Workbook :=
  match rate_tables with
  | [] => Some []
  | tbl :: rest =>
    let base_name := take_str 31 (sheet_title tbl) in
    name ← next_free_name (size used_names + 2) used_names base_name base_name 1;
    sheets ← write_sheets ({[name]} ∪ used_names) rest;
    Some ((name, data tbl) :: sheets)
  end.

Record Pdf := mkPdf { pdf_name : string; pdf_stem : string; pdf_pages : list Page }.

Definition Diverges : exn := Exn "<loop does not end>" "".

Definition process_single_pdf (pdf : Pdf) (model : string) : ES world unit :=
  (print (Processing (pdf_name pdf)) ;;;
   rate_tables <- for_pages model 0 (pdf_pages pdf) [] ;;
   match rate_tables with
   | [] => print Skipping
   | _ =>
     let out_path := OUTPUT_DIR +:+ "/" +:+ pdf_stem pdf +:+ "_rates.xlsx" in
     match write_sheets ∅ rate_tables with
     | None => raise Diverges
     | Some sheets =>
       write_file out_path sheets ;;;
       print (Generated out_path)
     end
   end)%es.

(** [for pdf_path in pdf_files: process_single_pdf(pdf_path)] *)
Fixpoint process_all_pdfs (pdf_files : list Pdf) (model : string) : ES world unit :=
  match pdf_files with
  | [] => ret tt
  | pdf :: rest =>
    (process_single_pdf pdf model ;;; process_all_pdfs rest model)%es
  end.

End Pipeline.

End Transfer.

(* ===================================================================== *)
(** * The part of pandas that viz_app.py uses *)
(* ===================================================================== *)

Module Pandas.

(** A value held in a dataframe: a number (an integer is held as the float
    of the same value; [NaN] is a number), a string, or [None]. *)
Inductive cell :=
| CNum (x : float)
| CStr (s : string)
| CNone.

(** [pd.isna(c)] *)
Definition isna (c : cell) : bool :=
  match c with
  | CNum x => is_nan x
  | CStr _ => false
  | CNone => true
  end.

(** A column, by position.  Row labels are not kept: no function of the
    program reads them but through the alignment of [join] below. *)
Abbreviation Series := (list cell).

(** A dataframe: its columns in order, each with its name.  All columns of a
    frame have the same length.  [pd.DataFrame()] is [[]]. *)
Abbreviation DataFrame := (list (string * Series)).

Definition columns (d : DataFrame) : list string := d.*1.

Fixpoint lookup_col (c : string) (d : DataFrame) : option Series :=
  match d with
  | [] => None
  | (c', s) :: d' => if String.eqb c c' then Some s else lookup_col c d'
  end.

(** [d[c]] *)
Definition getitem (d : DataFrame) (c : string) : result Series :=
  match lookup_col c d with
  | Some s => inr s
  | None => inl (KeyError c)
  end.

(** [d[[c1, ..., cn]]]: the named columns, in the order asked. *)
Fixpoint getitem_list (d : DataFrame) (cs : list string) : result DataFrame :=
  match cs with
  | [] => inr []
  | c :: cs' =>
    match getitem d c with
    | inl e => inl e
    | inr s =>
      match getitem_list d cs' with
      | inl e => inl e
      | inr d' => inr ((c, s) :: d')
      end
    end
  end.

(** [d.empty]: no column, or no row. *)
Definition empty (d : DataFrame) : bool :=
  match d with
  | [] => true
  | (_, s) :: _ => match s with [] => true | _ => false end
  end.

(** The elements of [s] at the positions where [m] is true. *)
Fixpoint keep {A} (m : list bool) (s : list A) : list A :=
  match m, s with
  | b :: m', x :: s' => if b then x :: keep m' s' else keep m' s'
  | _, _ => []
  end.

(** [d[m]] for a boolean mask [m]: the rows where [m] is true. *)
Definition mask_rows (m : list bool) (d : DataFrame) : DataFrame :=
  (λ '(c, s), (c, keep m s)) <$> d.

(** [d[c] = s]: the column is replaced where it stands, or added last. *)
Fixpoint set_col (c : string) (s : Series) (d : DataFrame) : DataFrame :=
  match d with
  | [] => [(c, s)]
  | (c', s') :: d' =>
    if String.eqb c c' then (c, s) :: d' else (c', s') :: set_col c s d'
  end.

(** [x == v] for a cell of a column and a scalar. *)
Definition eq_scalar (v x : cell) : bool :=
  match x, v with
  | CNum a, CNum b => (a =? b)%float
  | CStr a, CStr b => String.eqb a b
  | _, _ => false
  end.

(** [s == v] *)
Definition eq_mask (s : Series) (v : cell) : list bool := eq_scalar v <$> s.

(** [s.dropna()] *)
Definition dropna (s : Series) : Series := List.filter (λ x, negb (isna x)) s.

(** Insertion of a key in a list sorted by [<=]. *)
Fixpoint insert_sorted (x : float) (l : list float) : list float :=
  match l with
  | [] => [x]
  | y :: l' => if (x <=? y)%float then x :: l else y :: insert_sorted x l'
  end.

Definition sort_keys (l : list float) : list float := foldr insert_sorted [] l.

(** The distinct keys of a list, in the order in which each is first met: a
    key is added to those seen when none of them equals it. *)
Fixpoint distinct_from (seen l : list float) : list float :=
  match l with
  | [] => seen
  | x :: l' =>
    if existsb (λ k, (k =? x)%float) seen then distinct_from seen l'
    else distinct_from (seen ++ [x]) l'
  end.

Definition distinct (l : list float) : list float := distinct_from [] l.

Section Numeric.

(** [float(s)] as [pd.to_numeric] reads a string, [NaN] when [s] is not the
    writing of a number. *)
Variable parse_float : string → float.

(** The mean pandas computes for a group of numbers, none of them [NaN]. *)
Variable mean : list float → float.

(** [pd.to_numeric(s, errors="coerce")] *)
Definition to_numeric (s : Series) : Series :=
  (λ c, match c with
        | CNum x => CNum x
        | CStr t => CNum (parse_float t)
        | CNone => CNum nan
        end) <$> s.

(** The key of a group.  The [Age] column holds numbers (as [load_data]
    leaves it); on a string there [TypeError] stands for what the program
    does, which the model does not follow. *)
Definition age_key (c : cell) : result float :=
  match c with
  | CNum x => inr x
  | _ => inl (TypeError "Age is not a number")
  end.

Definition value_of (c : cell) : float :=
  match c with
  | CNum x => x
  | _ => nan
  end.

(** The rows of [(ages, vals)] where neither is missing, as pairs. *)
Fixpoint points (ages vals : Series) : result (list (float * float)) :=
  match ages, vals with
  | a :: ages', v :: vals' =>
    if isna a || isna v then points ages' vals'
    else match age_key a with
         | inl e => inl e
         | inr k =>
           match points ages' vals' with
           | inl e => inl e
           | inr ps => inr ((k, value_of v) :: ps)
           end
         end
  | _, _ => inr []
  end.

(** [.groupby("Age")[c].mean()] on such pairs: one entry per distinct key,
    keys in increasing order, each with the mean of its values. *)
Definition groupby_mean (ps : list (float * float)) : list (float * float) :=
  (λ k, (k, mean (snd <$> List.filter (λ p, (fst p =? k)%float) ps)))
    <$> sort_keys (distinct (fst <$> ps)).

(** [d[["Age", c]].dropna(subset=["Age", c]).groupby("Age")[c].mean()] *)
Definition mean_by_age (d : DataFrame) (c : string) : result (list (float * float)) :=
  match getitem d "Age" with
  | inl e => inl e
  | inr ages =>
    match getitem d c with
    | inl e => inl e
    | inr vals =>
      match points ages vals with
      | inl e => inl e
      | inr ps => inr (groupby_mean ps)
      end
    end
  end.

Fixpoint series_at (k : float) (s : list (float * float)) : option float :=
  match s with
  | [] => None
  | (k', v) :: s' => if (k' =? k)%float then Some v else series_at k s'
  end.

(** [pd.DataFrame({"base": base, "comp": comp}).dropna()]: the two series
    are aligned on their keys; the rows left are those whose key is in both
    series with a value in both, in the order of the keys. *)
Definition join (base comp : list (float * float)) : list (float * float * float) :=
  omap (λ '(k, b),
          match series_at k comp with
          | Some c => if is_nan b || is_nan c then None else Some (k, b, c)
          | None => None
          end) base.

End Numeric.

(** ** Dataframe objects *)

(** Dataframes are objects: a variable holds the location of one, and an
    assignment to a column changes the object in place. *)
Definition loc : Type := nat.
Abbreviation heap := (list DataFrame).

Definition Dangling : exn := Exn "<no such object>" "".

Definition alloc (d : DataFrame) : ES heap loc :=
  λ h, (inr (length h), h ++ [d]).

Definition load (l : loc) : ES heap DataFrame :=
  λ h, match h !! l with
       | Some d => (inr d, h)
       | None => (inl Dangling, h)
       end.

Definition store (l : loc) (d : DataFrame) : ES heap unit :=
  λ h, (inr tt, <[l := d]> h).

(** [df.copy()] *)
Definition df_copy (df : loc) : ES heap loc :=
  (d <- load df ;; alloc d)%es.

(** [df.columns] *)
Definition df_columns (df : loc) : ES heap (list string) :=
  (d <- load df ;; ret (columns d))%es.

(** [df.empty] *)
Definition df_empty (df : loc) : ES heap bool :=
  (d <- load df ;; ret (empty d))%es.

(** [df[c]] *)
Definition df_getitem (df : loc) (c : string) : ES heap Series :=
  (d <- load df ;; lift (getitem d c))%es.

(** [df[m]]: a new frame. *)
Definition df_mask (df : loc) (m : list bool) : ES heap loc :=
  (d <- load df ;; alloc (mask_rows m d))%es.

(** [df[c] = s]: in place. *)
Definition df_setitem (df : loc) (c : string) (s : Series) : ES heap unit :=
  (d <- load df ;; store df (set_col c s d))%es.

(** [df[df[c] == v]] *)
Definition df_where (df : loc) (c : string) (v : cell) : ES heap loc :=
  (s <- df_getitem df c ;; df_mask df (eq_mask s v))%es.

End Pandas.

(* ===================================================================== *)
(** * viz_app.py *)
(* ===================================================================== *)

Module VizApp.
Import Pandas.

Definition base_cols : list string :=
  ["Age"; "Gender"; "Occupation"; "Benefit"; "BenefitType"; "BenefitPeriod"; "WaitingPeriod"].

Definition company_columns (cols : list string) : list string :=
  List.filter (λ c, negb (bool_decide (c ∈ base_cols))) cols.

Definition get_company_columns (df : loc) : ES heap (list string) :=
  (cols <- df_columns df ;; ret (company_columns cols))%es.

(** ["BenefitType" if "BenefitType" in df.columns else None] *)
Definition benefit_col_of (cols : list string) : option string :=
  if bool_decide ("BenefitType" ∈ cols) then Some "BenefitType" else None.

(** [comp.replace(" rates", "")] *)
Definition display_name (comp : string) : string := remove_all " rates" comp.

(** [if benefit_col: query = query[query[benefit_col] == benefit]] *)
Definition where_benefit (query : loc) (benefit_col : option string)
    (benefit : string) : ES heap loc :=
  match benefit_col with
  | Some c => df_where query c (CStr benefit)
  | None => ret query
  end.

(** [if period and c in filtered.columns: filtered = filtered[filtered[c] == period]] *)
Definition where_period (filtered : loc) (c : string)
    (period : option string) : ES heap loc :=
  match period with
  | Some v =>
    if truthy_str v then
      (cols <- df_columns filtered ;;
       if bool_decide (c ∈ cols) then df_where filtered c (CStr v) else ret filtered)%es
    else ret filtered
  | None => ret filtered
  end.

(** The loop [for comp in company_cols] of [build_lookup]. *)
Fixpoint lookup_rows (query : loc) (company_cols : list string)
    : ES heap (list (string * cell)) :=
  match company_cols with
  | [] => ret []
  | comp :: rest =>
    (is_empty <- df_empty query ;;
     rate <- (if negb is_empty then
                series <- df_getitem query comp ;;
                match dropna series with
                | [] => ret CNone
                | x :: _ => ret x
                end
              else ret CNone) ;;
     rows <- lookup_rows query rest ;;
     ret ((display_name comp, rate) :: rows))%es
  end.

(** [pd.DataFrame(rows)] for the list of dicts of [build_lookup]. *)
Definition lookup_frame (rows : list (string * cell)) : DataFrame :=
  match rows with
  | [] => []
  | _ => [("Company", CStr <$> rows.*1); ("Rate", rows.*2)]
  end.

(** [lambda x: "no available" if pd.isna(x) else x] *)
Definition display_cell (x : cell) : cell :=
  if isna x then CStr "no available" else x.

Definition build_lookup (df : loc) (age : float)
    (gender occupation benefit : string) : ES heap DataFrame :=
  (cols <- df_columns df ;;
   let benefit_col := benefit_col_of cols in
   query <- df_copy df ;;
   query <- df_where query "Age" (CNum age) ;;
   query <- df_where query "Gender" (CStr gender) ;;
   query <- df_where query "Occupation" (CStr occupation) ;;
   query <- where_benefit query benefit_col benefit ;;
   company_cols <- get_company_columns df ;;
   rows <- lookup_rows query company_cols ;;
   let result := lookup_frame rows in
   rate <- lift (getitem result "Rate") ;;
   let result := set_col "Display" (display_cell <$> rate) result in
   lift (getitem_list result ["Company"; "Display"]))%es.

Definition replace_company (c : cell) : cell :=
  match c with
  | CStr s => CStr (display_name s)
  | _ => c
  end.

(** [sub.melt(id_vars=["Age"], var_name="Company", value_name="Rate")] for a
    frame whose first column is [Age]. *)
Definition melt (sub : DataFrame) : DataFrame :=
  match sub with
  | [] => []
  | (_, ages) :: vals =>
    [("Age", concat ((λ _, ages) <$> vals));
     ("Company", concat ((λ '(c, _), replicate (length ages) (CStr c)) <$> vals));
     ("Rate", concat (snd <$> vals))]
  end.

(** [long_df.dropna(subset=["Rate"])] *)
Definition dropna_rate (long_df : DataFrame) : DataFrame :=
  match lookup_col "Rate" long_df with
  | Some rate => mask_rows ((λ x, negb (isna x)) <$> rate) long_df
  | None => long_df
  end.

(** [long_df["Company"] = long_df["Company"].str.replace(" rates", "", regex=False)] *)
Definition strip_company (d : DataFrame) : DataFrame :=
  match lookup_col "Company" d with
  | Some company => set_col "Company" (replace_company <$> company) d
  | None => d
  end.

(** A block of the relative trend: rows [(Age, Company, Ratio)]. *)
Definition Block : Type := list (float * string * float).

(** [pd.concat(rows, ignore_index=True)] with its [Company] column
    rewritten. *)
Definition ratio_frame (rows : list Block) : DataFrame :=
  let result := concat rows in
  [("Age", (λ r, CNum r.1.1) <$> result);
   ("Company", (λ r, CStr (display_name r.1.2)) <$> result);
   ("Ratio", (λ r, CNum r.2) <$> result)].

Section Queries.

Variable parse_float : string → float.
Variable mean : list float → float.

(** The loop [for c in melt_cols] of [build_trend]. *)
Fixpoint coerce_and_report (filtered : loc) (melt_cols : list string)
    (missing : list string) : ES heap (list string) :=
  match melt_cols with
  | [] => ret missing
  | c :: rest =>
    (s <- df_getitem filtered c ;;
     df_setitem filtered c (to_numeric parse_float s) ;;;
     s' <- df_getitem filtered c ;;
     let missing := match dropna s' with
                    | [] => missing ++ [c]
                    | _ => missing
                    end in
     coerce_and_report filtered rest missing)%es
  end.

Definition build_trend (df : loc) (companies : list string)
    (gender occupation benefit : string)
    (benefit_period waiting_period : option string)
    : ES heap (DataFrame * list string) :=
  (cols <- df_columns df ;;
   let benefit_col := benefit_col_of cols in
   filtered <- df_copy df ;;
   filtered <- df_where filtered "Gender" (CStr gender) ;;
   filtered <- df_where filtered "Occupation" (CStr occupation) ;;
   filtered <- where_benefit filtered benefit_col benefit ;;
   filtered <- where_period filtered "BenefitPeriod" benefit_period ;;
   filtered <- where_period filtered "WaitingPeriod" waiting_period ;;
   company_cols <- get_company_columns df ;;
   let melt_cols :=
     List.filter (λ c, match companies with
                       | [] => true
                       | _ => bool_decide (c ∈ companies)
                       end) company_cols in
   match melt_cols with
   | [] => ret ([], [])
   | _ =>
     missing <- coerce_and_report filtered melt_cols [] ;;
     d <- load filtered ;;
     sub <- lift (getitem_list d ("Age" :: melt_cols)) ;;
     let long_df := melt sub in
     let long_df := dropna_rate long_df in
     let long_df := strip_company long_df in
     ret (long_df, missing)
   end)%es.

(** The loop [for c in numeric_cols] of [build_relative_trend]. *)
Fixpoint coerce_cols (filtered : loc) (numeric_cols : list string) : ES heap unit :=
  match numeric_cols with
  | [] => ret tt
  | c :: rest =>
    (s <- df_getitem filtered c ;;
     df_setitem filtered c (to_numeric parse_float s) ;;;
     coerce_cols filtered rest)%es
  end.

(** [filtered[["Age", c]].dropna(subset=["Age", c]).groupby("Age")[c].mean()] *)
Definition df_mean_by_age (filtered : loc) (c : string)
    : ES heap (list (float * float)) :=
  (d <- load filtered ;; lift (mean_by_age mean d c))%es.

(** The rows a compare company gives: [(comp / base) * 100] at each key of
    the join. *)
Definition ratio_block (comp : string) (joined : list (float * float * float)) : Block :=
  (λ '(k, b, c), (k, comp, (c / b * 100)%float)) <$> joined.

(** The loop [for comp in compare_companies]. *)
Fixpoint compare_loop (filtered : loc) (base_series : list (float * float))
    (compare_companies : list string) (rows : list Block) (missing : list string)
    : ES heap (list Block * list string) :=
  match compare_companies with
  | [] => ret (rows, missing)
  | comp :: rest =>
    (comp_series <- df_mean_by_age filtered comp ;;
     let joined := join base_series comp_series in
     match joined with
     | [] => compare_loop filtered base_series rest rows (missing ++ [comp])
     | _ => compare_loop filtered base_series rest
              (rows ++ [ratio_block comp joined]) missing
     end)%es
  end.

(** The block of the baseline: ratio [100.0] at every key of its series. *)
Definition base_block (base_company : string) (base_series : list (float * float)) : Block :=
  (λ '(k, _), (k, base_company, 100%float)) <$> base_series.

Definition build_relative_trend (df : loc) (base_company : string)
    (compare_companies : list string) (gender occupation benefit : string)
    (benefit_period waiting_period : option string)
    : ES heap (DataFrame * list string * bool) :=
  if negb (truthy_str base_company)
     || match compare_companies with [] => true | _ => false end
  then ret ([], [], false)
  else
  (cols <- df_columns df ;;
   let benefit_col := benefit_col_of cols in
   filtered <- df_copy df ;;
   filtered <- df_where filtered "Gender" (CStr gender) ;;
   filtered <- df_where filtered "Occupation" (CStr occupation) ;;
   filtered <- where_benefit filtered benefit_col benefit ;;
   filtered <- where_period filtered "BenefitPeriod" benefit_period ;;
   filtered <- where_period filtered "WaitingPeriod" waiting_period ;;
   fcols <- df_columns filtered ;;
   let numeric_cols :=
     List.filter (λ c, bool_decide (c ∈ fcols)) (base_company :: compare_companies) in
   coerce_cols filtered numeric_cols ;;;
   base_series <- df_mean_by_age filtered base_company ;;
   let baseline_missing := match base_series with [] => true | _ => false end in
   let rows := match base_series with
               | [] => []
               | _ => [base_block base_company base_series]
               end in
   rm <- compare_loop filtered base_series compare_companies rows [] ;;
   let '(rows, missing) := rm in
   match rows with
   | [] => ret ([], missing, baseline_missing)
   | _ => ret (ratio_frame rows, missing, baseline_missing)
   end)%es.

End Queries.

End VizApp.

(* ===================================================================== *)
(** * Properties of transfer.py *)
(* ===================================================================== *)

Module TransferSpec.
Import Transfer.

(** Width of a preview: the longest row, 0 when there is no row. *)
Definition width (preview : Table) : nat := max_list (map length preview).

Definition digit_cells (row : Row) : nat := length (List.filter cell_has_digit row).

(** A row is numeric when at least half of its cells hold a digit. *)
Definition numeric_row (row : Row) : bool := length row <=? 2 * digit_cells row.

Definition numeric_rows (preview : Table) : nat :=
  length (List.filter numeric_row preview).

(** The request [classify_table_with_model] builds. *)
Definition request_of (prompt model : string) (page_index : nat)
    (page_text : option string) (preview : Table) : Request :=
  let text := match page_text with
              | Some s => if truthy_str s then s else ""
              | None => ""
              end in
  mkRequest model prompt (mkPayload page_index (slice_to (lower text) 1500) preview).

Definition with_call (w : world) (req : Request) : world :=
  mkWorld (calls w ++ [req]) (stdout w) (files w).

Definition with_line (w : world) (l : line) : world :=
  mkWorld (calls w) (stdout w ++ [l]) (files w).

Lemma digit_cells_fold (row : Row) (n : nat) :
  fold_left (λ n c, if cell_has_digit c then n + 1 else n) row n = n + digit_cells row.
Proof.
  revert n. induction row as [|c row IH]; intros n; simpl.
  - unfold digit_cells. simpl. lia.
  - rewrite IH. unfold digit_cells. simpl.
    destruct (cell_has_digit c); simpl; lia.
Qed.

(** On a row that has a cell the division is defined, and the test is the
    one on the exact fraction. *)
Lemma is_numeric_row_nonempty (row : Row) :
  row ≠ [] → is_numeric_row row = inr (numeric_row row).
Proof.
  intros Hne. unfold is_numeric_row, numeric_row.
  rewrite digit_cells_fold. simpl.
  destruct row as [|c row]; [done|]. simpl length.
  f_equal. unfold Qle_bool. simpl Qnum. simpl Qden.
  apply eq_true_iff_eq. rewrite Z.leb_le, Nat.leb_le.
  set (t := S (length row)).
  replace (Z.pos (Pos.of_nat t)) with (Z.of_nat t)
    by (unfold t; rewrite <- Pos.of_nat_succ; lia).
  lia.
Qed.

Lemma is_numeric_row_empty : is_numeric_row [] = inl ZeroDivisionError.
Proof. reflexivity. Qed.

Lemma sum_numeric_nonempty (preview : Table) (acc : nat) :
  Forall (λ r, r ≠ []) preview →
  sum_numeric acc preview = inr (acc + numeric_rows preview).
Proof.
  intros H. revert acc. induction H as [|r rows Hr _ IH]; intros acc; simpl.
  - unfold numeric_rows. simpl. f_equal. lia.
  - rewrite (is_numeric_row_nonempty _ Hr), IH. f_equal.
    unfold numeric_rows. simpl.
    destruct (numeric_row r); simpl; lia.
Qed.

Lemma sum_numeric_empty_row (preview : Table) (acc : nat) :
  [] ∈ preview → sum_numeric acc preview = inl ZeroDivisionError.
Proof.
  revert acc. induction preview as [|r rows IH]; intros acc Hin.
  - by apply elem_of_nil in Hin.
  - simpl. destruct r as [|c r].
    + reflexivity.
    + rewrite is_numeric_row_nonempty by done.
      apply IH. apply elem_of_cons in Hin as [Heq|Hin]; [done|exact Hin].
Qed.

(** ** Lengths of strings and the decimal writing of numbers *)

Lemma app_empty (s : string) : "" +:+ s = s.
Proof. reflexivity. Qed.

Lemma app_cons (c : ascii) (a s : string) : String c a +:+ s = String c (a +:+ s).
Proof. reflexivity. Qed.

Lemma len_app (a b : string) : len (a +:+ b) = len a + len b.
Proof. induction a as [|c a IH]; simpl; [done|]. unfold len in *. simpl. by rewrite IH. Qed.

Lemma len_take_str (n : nat) (s : string) : len (take_str n s) ≤ n.
Proof.
  revert s. induction n as [|n IH]; intros [|c s]; unfold len; simpl; try lia.
  specialize (IH s). unfold len in IH. lia.
Qed.

Lemma len_slice_to (s : string) (n : Z) :
  (0 ≤ n)%Z → len (slice_to s n) ≤ Z.to_nat n.
Proof.
  intros Hn. unfold slice_to.
  replace (0 <=? n)%Z with true by (symmetry; by apply Z.leb_le).
  apply len_take_str.
Qed.

Lemma str_any_app (p : ascii → bool) (a b : string) :
  str_any p (a +:+ b) = str_any p a || str_any p b.
Proof. induction a as [|c a IH]; simpl; [done|]. by rewrite IH, orb_assoc. Qed.

(** No underscore occurs in a string. *)
Definition no_us (s : string) : Prop := str_any (Ascii.eqb "_") s = false.

Lemma pretty_N_char_no_us (x : N) : Ascii.eqb "_" (pretty_N_char x) = false.
Proof. unfold pretty_N_char. by repeat case_match. Qed.

Lemma pretty_N_go_no_us (x : N) (s : string) : no_us s → no_us (pretty_N_go x s).
Proof.
  revert s. induction (N.lt_wf_0 x) as [x _ IH]; intros s Hs.
  destruct (decide (x = 0%N)) as [->|Hx]; [by rewrite pretty_N_go_0|].
  rewrite pretty_N_go_step by lia. apply IH.
  - apply N.div_lt; lia.
  - unfold no_us in *. cbn [str_any]. by rewrite pretty_N_char_no_us.
Qed.

Lemma str_nat_no_us (k : nat) : no_us (str_nat k).
Proof.
  unfold str_nat, pretty, pretty_nat, pretty, pretty_N.
  case_decide; [done|]. by apply pretty_N_go_no_us.
Qed.

Lemma pretty_N_go_len (d : nat) (x : N) (s : string) :
  (x < 10 ^ N.of_nat d)%N → len (pretty_N_go x s) ≤ d + len s.
Proof.
  revert x s. induction d as [|d IH]; intros x s Hx.
  - assert (x = 0%N) as -> by (simpl in Hx; lia). rewrite pretty_N_go_0. lia.
  - destruct (decide (x = 0%N)) as [->|H0]; [rewrite pretty_N_go_0; lia|].
    rewrite pretty_N_go_step by lia.
    etrans; [apply IH|unfold len; simpl; lia].
    rewrite Nat2N.inj_succ, N.pow_succ_r' in Hx.
    apply N.Div0.div_lt_upper_bound. lia.
Qed.

Lemma str_nat_len (d k : nat) :
  0 < d → (N.of_nat k < 10 ^ N.of_nat d)%N → len (str_nat k) ≤ d.
Proof.
  intros Hd Hk. unfold str_nat, pretty, pretty_nat, pretty, pretty_N.
  case_decide.
  - unfold len. simpl. lia.
  - etrans; [by apply pretty_N_go_len|]. unfold len. simpl. lia.
Qed.

(** What stands after the last underscore decides the whole suffix. *)
Lemma suffix_inj (a b u v : string) :
  no_us u → no_us v →
  a +:+ String "_" u = b +:+ String "_" v → u = v.
Proof.
  intros Hu Hv. revert b.
  induction a as [|c a IH]; intros [|c' b] Heq; rewrite ?app_empty, ?app_cons in Heq.
  - congruence.
  - injection Heq as _ Heq. exfalso. subst u. unfold no_us in Hu.
    rewrite str_any_app in Hu. simpl in Hu. by rewrite orb_true_r in Hu.
  - injection Heq as _ Heq. exfalso. subst v. unfold no_us in Hv.
    rewrite str_any_app in Hv. simpl in Hv. by rewrite orb_true_r in Hv.
  - injection Heq as _ Heq. by apply (IH b).
Qed.

(** ** The names the writer tries *)

(** The [k]-th name tried for a sheet whose truncated title is [base_name]. *)
Definition candidate (base_name : string) (k : nat) : string :=
  let suffix := "_" +:+ str_nat k in
  slice_to base_name (31 - Z.of_nat (len suffix)) +:+ suffix.

Global Instance candidate_inj (base_name : string) : Inj (=) (=) (candidate base_name).
Proof.
  intros j k Heq. unfold candidate in Heq. simpl in Heq.
  apply suffix_inj in Heq; [|apply str_nat_no_us..].
  by apply (inj pretty) in Heq.
Qed.

Lemma candidate_len (base_name : string) (k : nat) :
  (Z.of_nat k < 10 ^ 30)%Z → len (candidate base_name k) ≤ 31.
Proof.
  intros Hk. unfold candidate.
  assert (len (str_nat k) ≤ 30) as Hd.
  { apply str_nat_len; [lia|]. change (10 ^ N.of_nat 30)%N with (Z.to_N (10 ^ 30)). lia. }
  rewrite len_app.
  assert (Hs : len ("_" +:+ str_nat k) = S (len (str_nat k))) by done.
  pose proof (len_slice_to base_name (31 - Z.of_nat (len ("_" +:+ str_nat k)))) as Hl.
  lia.
Qed.

(** Among [size used + 1] names tried in a row one is free. *)
Lemma free_candidate (used : gset string) (base_name : string) (k : nat) :
  ∃ j, k ≤ j < k + S (size used) ∧ candidate base_name j ∉ used.
Proof.
  set (l := seq k (S (size used))).
  destruct (decide (Forall (λ j, candidate base_name j ∈ used) l)) as [Hall|Hex].
  - exfalso.
    assert (list_to_set (candidate base_name <$> l) ⊆ used) as Hsub.
    { intros x [j [-> Hj]]%elem_of_list_to_set%list_elem_of_fmap.
      by eapply Forall_forall in Hall. }
    apply subseteq_size in Hsub.
    rewrite size_list_to_set in Hsub by (apply NoDup_fmap_2; [apply _|apply NoDup_seq]).
    rewrite length_fmap in Hsub. unfold l in Hsub. rewrite length_seq in Hsub. lia.
  - apply not_Forall_Exists in Hex; [|apply _].
    apply Exists_exists in Hex as (j & Hj & Hfree).
    exists j. split; [|done]. by apply elem_of_seq in Hj.
Qed.

Lemma next_free_name_S (fuel : nat) (used : gset string) (base_name name : string) (k : nat) :
  next_free_name (S fuel) used base_name name k
  = if bool_decide (name ∈ used)
    then next_free_name fuel used base_name (candidate base_name k) (k + 1)
    else Some name.
Proof. reflexivity. Qed.

Lemma next_free_name_spec (fuel : nat) (used : gset string) (base_name name : string)
    (k : nat) (r : string) :
  next_free_name (S fuel) used base_name name k = Some r →
  (r ∉ used) ∧ (r = name ∨ ∃ j, k ≤ j < k + fuel ∧ r = candidate base_name j).
Proof.
  revert name k. induction fuel as [|fuel IH]; intros name k; rewrite next_free_name_S.
  - case_bool_decide; [done|]. intros [= <-]. auto.
  - case_bool_decide as Hin; [|intros [= <-]; auto].
    intros Hr. apply IH in Hr as [Hfree [->|(j & Hj & ->)]].
    + split; [done|]. right. exists k. split; [lia|done].
    + split; [done|]. right. exists j. split; [lia|done].
Qed.

Lemma next_free_name_runs (fuel : nat) (used : gset string) (base_name name : string)
    (k : nat) :
  (name ∉ used ∨ ∃ j, k ≤ j < k + fuel ∧ candidate base_name j ∉ used) →
  is_Some (next_free_name (S fuel) used base_name name k).
Proof.
  revert name k. induction fuel as [|fuel IH]; intros name k H; rewrite next_free_name_S.
  - destruct H as [H|(j & ? & _)]; [|lia]. by rewrite bool_decide_eq_false_2.
  - case_bool_decide as Hin; [|done].
    destruct H as [H|(j & Hj & Hfree)]; [done|].
    apply IH. destruct (decide (j = k)) as [->|Hne].
    + by left.
    + right. exists j. split; [lia|done].
Qed.

(** The loop ends: with [size used + 2] tests a free name is found. *)
Lemma next_free_name_total (used : gset string) (base_name name : string) :
  is_Some (next_free_name (size used + 2) used base_name name 1).
Proof.
  replace (size used + 2) with (S (S (size used))) by lia.
  apply next_free_name_runs. right.
  destruct (free_candidate used base_name 1) as (j & Hj & Hfree).
  exists j. split; [lia|done].
Qed.

(** The name given to a table: its truncated title, or the [k]-th name
    tried after it, [k] between 1 and [bound]. *)
Definition named_after (bound : nat) (tbl : RateTable) (name : string) : Prop :=
  let base_name := take_str 31 (sheet_title tbl) in
  name = base_name ∨ ∃ k, 1 ≤ k ≤ bound ∧ name = candidate base_name k.

Lemma named_after_mono (b b' : nat) (tbl : RateTable) (name : string) :
  b ≤ b' → named_after b tbl name → named_after b' tbl name.
Proof. intros Hb [H|(k & Hk & H)]; [by left|right; exists k; split; [lia|done]]. Qed.

Lemma named_after_len (bound : nat) (tbl : RateTable) (name : string) :
  (Z.of_nat bound < 10 ^ 30)%Z → named_after bound tbl name → len name ≤ 31.
Proof.
  intros Hb [->|(k & Hk & ->)].
  - apply len_take_str.
  - apply candidate_len. lia.
Qed.

Lemma write_sheets_spec (rate_tables : list RateTable) (used : gset string) :
  ∃ sheets,
    write_sheets used rate_tables = Some sheets
    ∧ sheets.*2 = data <$> rate_tables
    ∧ NoDup sheets.*1
    ∧ (∀ name, name ∈ sheets.*1 → name ∉ used)
    ∧ Forall2 (named_after (size used + length rate_tables)) rate_tables sheets.*1.
Proof.
  revert used. induction rate_tables as [|tbl rest IH]; intros used.
  - exists []. repeat split; [constructor|set_solver|constructor].
  - cbn [write_sheets].
    set (base_name := take_str 31 (sheet_title tbl)).
    destruct (next_free_name_total used base_name base_name) as [name Hname].
    rewrite Hname. cbn [mbind option_bind].
    replace (size used + 2) with (S (S (size used))) in Hname by lia.
    apply next_free_name_spec in Hname as [Hfree Hform].
    destruct (IH ({[name]} ∪ used)) as (sheets & -> & Hdata & Hnd & Hout & Hall).
    assert (size ({[name]} ∪ used) = S (size used)) as Hsize.
    { rewrite size_union by set_solver. by rewrite size_singleton. }
    exists ((name, data tbl) :: sheets). cbn [mbind option_bind].
    split; [done|]. split; [by rewrite !fmap_cons, Hdata|].
    split; [|split].
    + rewrite fmap_cons. constructor; [|done]. intros Hin. apply Hout in Hin.
      apply Hin, elem_of_union_l. by apply elem_of_singleton.
    + intros n. rewrite fmap_cons. intros [->|Hin]%elem_of_cons; [done|].
      apply Hout in Hin. intros Hu. by apply Hin, elem_of_union_r.
    + rewrite fmap_cons. constructor.
      * destruct Hform as [->|(j & Hj & ->)]; [by left|].
        right. exists j. split; [simpl; lia|done].
      * eapply Forall2_impl; [exact Hall|]. intros t n.
        apply named_after_mono. rewrite Hsize. simpl. lia.
Qed.

(** C5.  The writer gives every accepted table a sheet, in order, and the
    sheet names of a file are pairwise distinct: two tables at different
    positions never share a name, whether or not their titles have the same
    first 31 characters.  The name of a table is its title cut to 31
    characters or, when that name is taken, the title cut further and
    followed by an underscore and a number [k] from 1 on.  Every name has at
    most 31 characters (for a file of fewer than 10^30 sheets, so that the
    number has at most 30 digits). *)
Theorem sheet_names_distinct (rate_tables : list RateTable) :
  ∃ sheets,
    write_sheets ∅ rate_tables = Some sheets
    ∧ sheets.*2 = data <$> rate_tables
    ∧ NoDup sheets.*1
    ∧ Forall2 (named_after (length rate_tables)) rate_tables sheets.*1
    ∧ (∀ i j ti tj, i ≠ j →
         rate_tables !! i = Some ti → rate_tables !! j = Some tj →
         ∃ ni nj, sheets.*1 !! i = Some ni ∧ sheets.*1 !! j = Some nj ∧ ni ≠ nj)
    ∧ ((Z.of_nat (length rate_tables) < 10 ^ 30)%Z →
         Forall (λ name, len name ≤ 31) sheets.*1).
Proof.
  destruct (write_sheets_spec rate_tables ∅) as (sheets & Hw & Hdata & Hnd & _ & Hall).
  rewrite size_empty in Hall. simpl in Hall.
  exists sheets. split; [done|]. split; [done|]. split; [done|]. split; [done|].
  split.
  - intros i j ti tj Hij Hi Hj.
    destruct (Forall2_lookup_l _ _ _ _ _ Hall Hi) as (ni & Hni & _).
    destruct (Forall2_lookup_l _ _ _ _ _ Hall Hj) as (nj & Hnj & _).
    exists ni, nj. split; [done|]. split; [done|]. intros ->.
    apply Hij. by eapply NoDup_lookup.
  - intros Hlen. apply Forall_forall. intros name Hin.
    apply list_elem_of_lookup in Hin as [i Hi].
    destruct (Forall2_lookup_r _ _ _ _ _ Hall Hi) as (tbl & _ & Hnamed).
    by eapply named_after_len.
Qed.

Lemma num_cols_width (preview : Table) :
  match preview with [] => 0 | _ => max_list (map length preview) end = width preview.
Proof. by destruct preview. Qed.

Section Classifier.
Variable prompt : string.
Variable remote : nat → Request → result (option string).
Variable json_loads : string → result pyval.

Abbreviation classify := (classify_table_with_model prompt remote json_loads).

(** What the function does once both gates are passed: one request is
    sent and its answer parsed. *)
Definition decide_remotely (model : string) (page_index : nat)
    (page_text : option string) (preview : Table) (w : world)
    : result pyval * world :=
  let req := request_of prompt model page_index page_text preview in
  (match remote (length (calls w)) req with
   | inl e => inl e
   | inr raw => loads json_loads raw
   end, with_call w req).

Lemma classify_unfold page_index page_text preview model w :
  classify page_index page_text preview model w =
  if (length preview <? 4) || (width preview <? 4) then (inr REJECTED, w)
  else match sum_numeric 0 preview with
       | inl e => (inl e, w)
       | inr n => if n <? 2 then (inr REJECTED, w)
                  else decide_remotely model page_index page_text preview w
       end.
Proof.
  unfold classify_table_with_model. rewrite num_cols_width.
  destruct (_ || _); [reflexivity|].
  unfold bind, lift. destruct (sum_numeric 0 preview) as [e|n]; [reflexivity|].
  destruct (n <? 2); [reflexivity|].
  unfold decide_remotely, create, request_of, with_call. simpl.
  destruct (remote _ _); reflexivity.
Qed.

Lemma classify_passes page_index page_text preview model w :
  4 ≤ length preview → 4 ≤ width preview →
  Forall (λ r, r ≠ []) preview → 2 ≤ numeric_rows preview →
  classify page_index page_text preview model w
  = decide_remotely model page_index page_text preview w.
Proof.
  intros Hr Hc Hne Hn. rewrite classify_unfold.
  replace (length preview <? 4) with false by (symmetry; apply Nat.ltb_ge; lia).
  replace (width preview <? 4) with false by (symmetry; apply Nat.ltb_ge; lia).
  simpl. rewrite sum_numeric_nonempty by done. simpl.
  replace (numeric_rows preview <? 2) with false by (symmetry; apply Nat.ltb_ge; lia).
  reflexivity.
Qed.

(** The numeric-density gate on previews whose rows all have a cell: with
    fewer than two numeric rows the table is rejected and nothing is sent. *)
Lemma numeric_gate_rejects page_index page_text preview model w :
  4 ≤ length preview → 4 ≤ width preview →
  Forall (λ r, r ≠ []) preview → numeric_rows preview < 2 →
  classify page_index page_text preview model w = (inr REJECTED, w).
Proof.
  intros Hr Hc Hne Hn. rewrite classify_unfold.
  replace (length preview <? 4) with false by (symmetry; apply Nat.ltb_ge; lia).
  replace (width preview <? 4) with false by (symmetry; apply Nat.ltb_ge; lia).
  simpl. rewrite sum_numeric_nonempty by done. simpl.
  replace (numeric_rows preview <? 2) with true by (symmetry; apply Nat.ltb_lt; lia).
  reflexivity.
Qed.

(** C1.  A preview with fewer than 4 rows, or whose longest row has fewer
    than 4 cells (width 0 for a preview with no row), is rejected:
    [classify_table_with_model] returns the dict with [is_rate_table] false
    and [sheet_title] empty, and leaves the world as it was, so that no
    request is sent to the remote classifier. *)
Theorem structural_gate_rejects page_index page_text preview model w :
  length preview < 4 ∨ width preview < 4 →
  classify page_index page_text preview model w = (inr REJECTED, w)
  ∧ py_get REJECTED "is_rate_table" = inr (PBool false)
  ∧ py_get REJECTED "sheet_title" = inr (PStr "")
  ∧ calls (snd (classify page_index page_text preview model w)) = calls w.
Proof.
  intros H. rewrite classify_unfold.
  replace ((length preview <? 4) || (width preview <? 4)) with true.
  - done.
  - symmetry. apply orb_true_iff. rewrite !Nat.ltb_lt. done.
Qed.

(** C2.  The preview of four rows whose first row has no cell and whose
    other rows hold four cells without a digit passes the structural gate
    and has no numeric row; the call does not return the rejection but
    raises [ZeroDivisionError], from the division by the length of the
    first row. *)
Theorem numeric_gate_zero_length_row page_index page_text model w :
  let r := [Some "a"; Some "b"; Some "c"; Some "d"] in
  classify page_index page_text [[]; r; r; r] model w = (inl ZeroDivisionError, w).
Proof. reflexivity. Qed.

(** C10.  On every preview that passes the structural gate and holds a row
    without cells, [classify_table_with_model] reaches no decision: the
    density of that row divides by zero, [ZeroDivisionError] is raised and
    nothing is sent. *)
Theorem zero_length_row_raises page_index page_text preview model w :
  4 ≤ length preview → 4 ≤ width preview → [] ∈ preview →
  classify page_index page_text preview model w = (inl ZeroDivisionError, w).
Proof.
  intros Hr Hc Hin. rewrite classify_unfold.
  replace (length preview <? 4) with false by (symmetry; apply Nat.ltb_ge; lia).
  replace (width preview <? 4) with false by (symmetry; apply Nat.ltb_ge; lia).
  simpl. by rewrite sum_numeric_empty_row.
Qed.

(** C4, as amended.  On every preview that passes both gates (at least 4
    rows, width at least 4, every row with a cell, at least 2 numeric rows)
    and for every page text, with or without a keyword, exactly one request
    is sent and its parsed answer is the result.  The request holds the
    model, the system prompt, the page index, the first 1500 characters of
    the lower-cased page text and the preview: the keyword signal is no part
    of it. *)
Theorem keyword_signal_does_not_gate page_index page_text preview model w :
  4 ≤ length preview → 4 ≤ width preview →
  Forall (λ r, r ≠ []) preview → 2 ≤ numeric_rows preview →
  let req := request_of prompt model page_index page_text preview in
  classify page_index page_text preview model w
  = (match remote (length (calls w)) req with
     | inl e => inl e
     | inr raw => loads json_loads raw
     end, with_call w req)
  ∧ calls (snd (classify page_index page_text preview model w)) = calls w ++ [req]
  ∧ req_user req
    = mkPayload page_index
        (slice_to (lower (match page_text with
                          | Some s => if truthy_str s then s else ""
                          | None => ""
                          end)) 1500)
        preview.
Proof.
  intros Hr Hc Hne Hn req. rewrite classify_passes by done. done.
Qed.

Abbreviation for_tables := (Transfer.for_tables prompt remote json_loads).

(** C3.  When the request for a table fails, by an exception of the call or
    of the parsing of its answer, the loop over the tables of the page goes
    on with the next table from a world where the list of accepted tables is
    the one before, one line [Warn (page_idx + 1) (t_idx + 1) e] was printed,
    and the request was sent once. *)
Theorem failed_call_skips_table model page_idx page_text t_idx tbl rest rate_tables w e :
  let preview := map (take 8) (take 6 tbl) in
  let req := request_of prompt model page_idx (Some page_text) preview in
  tbl ≠ [] →
  4 ≤ length preview → 4 ≤ width preview →
  Forall (λ r, r ≠ []) preview → 2 ≤ numeric_rows preview →
  (remote (length (calls w)) req = inl e
   ∨ ∃ raw, remote (length (calls w)) req = inr raw ∧ loads json_loads raw = inl e) →
  for_tables model page_idx page_text t_idx (tbl :: rest) rate_tables w
  = for_tables model page_idx page_text (S t_idx) rest rate_tables
      (with_line (with_call w req) (Warn (page_idx + 1) (t_idx + 1) e)).
Proof.
  intros preview req Htbl Hr Hc Hne Hn Hfail.
  simpl. unfold bind at 1. unfold process_table.
  change (map (take 8) (take 6 tbl)) with preview. clearbody preview.
  destruct tbl as [|r0 tbl0]; [done|].
  unfold bind at 1. unfold try_except. unfold bind at 1.
  rewrite classify_passes by done. unfold decide_remotely. fold req.
  destruct Hfail as [->|(raw & -> & ->)]; reflexivity.
Qed.

End Classifier.

(** ** Instances *)

Definition r_text : Row := [Some "a"; Some "b"; Some "c"; Some "d"].
Definition r_nums : Row := [Some "1"; Some "2"; Some "3"; Some "4"].
Definition down : nat → Request → result (option string) :=
  λ _ _, inl (Exn "APIConnectionError" "Connection error.").
Definition no_json : string → result pyval :=
  λ _, inl (Exn "JSONDecodeError" "Expecting value").
Definition w0 : world := mkWorld [] [] [].
Definition pad (n : nat) : string := string_of_list_ascii (repeat "x"%char n).

Lemma structural_gate_rejects_witness :
  classify_table_with_model "" down no_json 0 (Some "phone") [r_text; r_text; r_text] "gpt-4o-mini" w0
  = (inr REJECTED, w0).
Proof.
  apply (structural_gate_rejects "" down no_json 0 (Some "phone")
           [r_text; r_text; r_text] "gpt-4o-mini" w0).
  left. simpl. lia.
Defined.

Lemma zero_length_row_raises_witness :
  classify_table_with_model "" down no_json 0 (Some "") [r_nums; r_nums; []; r_nums] "gpt-4o-mini" w0
  = (inl ZeroDivisionError, w0).
Proof.
  apply (zero_length_row_raises "" down no_json 0 (Some "")
           [r_nums; r_nums; []; r_nums] "gpt-4o-mini" w0).
  - simpl. lia.
  - vm_compute. lia.
  - set_solver.
Defined.

Lemma keyword_signal_does_not_gate_witness :
  calls (snd (classify_table_with_model "" down no_json 2 (Some "Contact us")
                [r_nums; r_nums; r_nums; r_nums] "gpt-4o-mini" w0))
  = [request_of "" "gpt-4o-mini" 2 (Some "Contact us") [r_nums; r_nums; r_nums; r_nums]].
Proof.
  apply (keyword_signal_does_not_gate "" down no_json 2 (Some "Contact us")
           [r_nums; r_nums; r_nums; r_nums] "gpt-4o-mini" w0).
  - simpl. lia.
  - vm_compute. lia.
  - repeat constructor; discriminate.
  - vm_compute. lia.
Defined.

(** C4, the claim as stated fails.  Two page texts that agree on their
    first 1500 characters, one with the keyword [rate] after them and one
    without any keyword: the keyword signal is true for the first and false
    for the second, a request is sent for both, and the two requests are
    the same.  The signal is thus not in what is sent. *)
Lemma keyword_signal_not_sent :
  let t1 := pad 1500 +:+ " rate" in
  let t2 := pad 1500 in
  let pv := [r_nums; r_nums; r_nums; r_nums] in
  hit_keyword (lower t1) = true
  ∧ hit_keyword (lower t2) = false
  ∧ calls (snd (classify_table_with_model "" down no_json 0 (Some t1) pv "gpt-4o-mini" w0))
    = calls (snd (classify_table_with_model "" down no_json 0 (Some t2) pv "gpt-4o-mini" w0))
  ∧ length (calls (snd (classify_table_with_model "" down no_json 0 (Some t2) pv "gpt-4o-mini" w0))) = 1.
Proof. vm_compute. done. Qed.

Lemma failed_call_skips_table_witness :
  for_tables "" down no_json "gpt-4o-mini" 0 "Premium rates" 0
    [[r_nums; r_nums; r_nums; r_nums]] [] w0
  = (inr [],
     mkWorld [request_of "" "gpt-4o-mini" 0 (Some "Premium rates") [r_nums; r_nums; r_nums; r_nums]]
             [Warn 1 1 (Exn "APIConnectionError" "Connection error.")] []).
Proof.
  apply (failed_call_skips_table "" down no_json "gpt-4o-mini" 0 "Premium rates" 0
           [r_nums; r_nums; r_nums; r_nums] [] [] w0
           (Exn "APIConnectionError" "Connection error.")).
  - discriminate.
  - simpl. lia.
  - vm_compute. lia.
  - repeat constructor; discriminate.
  - vm_compute. lia.
  - left. reflexivity.
Defined.

(** A run of the whole pipeline on a PDF of one page with the same table
    twice, a remote service that answers and an answer that parses to an
    accepted table: two requests are sent, and one file with two sheets of
    distinct names is written. *)
Definition answers : nat → Request → result (option string) :=
  λ _ _, inr (Some "{...}").
Definition accepted : string → result pyval :=
  λ _, inr (PDict [("is_rate_table", PBool true); ("sheet_title", PStr " Death cover ")]).
Definition t_nums : Table := [r_nums; r_nums; r_nums; r_nums].

Example process_single_pdf_two_tables :
  process_single_pdf "" answers accepted
    (mkPdf "a.pdf" "a" [mkPage (Some "Weekly COST") [t_nums; []; t_nums]]) "gpt-4o-mini" w0
  = (inr tt,
     mkWorld [request_of "" "gpt-4o-mini" 0 (Some "Weekly COST") t_nums;
              request_of "" "gpt-4o-mini" 0 (Some "Weekly COST") t_nums]
             [Processing "a.pdf"; Generated "output/a_rates.xlsx"]
             [("output/a_rates.xlsx", [("Death cover", t_nums); ("Death cover_1", t_nums)])]).
Proof. vm_compute. reflexivity. Qed.

Definition death_tpd : RateTable :=
  mkRateTable "Premium rates for death and TPD cover (weekly)" [r_nums].
Definition death_tpd_monthly : RateTable :=
  mkRateTable "Premium rates for death and TPD cover (monthly)" [r_text].

Example write_sheets_same_prefix :
  write_sheets ∅ [death_tpd; death_tpd_monthly; death_tpd]
  = Some [("Premium rates for death and TPD", [r_nums]);
          ("Premium rates for death and T_1", [r_text]);
          ("Premium rates for death and T_2", [r_nums])].
Proof. vm_compute. reflexivity. Qed.

Lemma sheet_names_distinct_witness :
  Forall (λ name, len name ≤ 31)
    ["Premium rates for death and TPD"; "Premium rates for death and T_1"].
Proof.
  destruct (sheet_names_distinct [death_tpd; death_tpd_monthly])
    as (sheets & Hw & _ & _ & _ & _ & Hlen).
  vm_compute in Hw. injection Hw as <-.
  apply Hlen. simpl. lia.
Defined.

End TransferSpec.

(* ===================================================================== *)
(** * Properties of viz_app.py *)
(* ===================================================================== *)

Module VizAppSpec.
Import Pandas VizApp.

(** ** What the queries compute, as functions of the content of the table *)

Definition rbind {A B} (r : result A) (f : A → result B) : result B :=
  match r with
  | inl e => inl e
  | inr a => f a
  end.

Definition where_value (F : DataFrame) (c : string) (v : cell) : result DataFrame :=
  rbind (getitem F c) (λ s, inr (mask_rows (eq_mask s v) F)).

Definition where_benefit_value (F : DataFrame) (benefit_col : option string)
    (benefit : string) : result DataFrame :=
  match benefit_col with
  | Some c => where_value F c (CStr benefit)
  | None => inr F
  end.

Definition where_period_value (F : DataFrame) (c : string)
    (period : option string) : result DataFrame :=
  match period with
  | Some v =>
    if truthy_str v then
      if bool_decide (c ∈ columns F) then where_value F c (CStr v) else inr F
    else inr F
  | None => inr F
  end.

Fixpoint lookup_rows_value (Q : DataFrame) (company_cols : list string)
    : result (list (string * cell)) :=
  match company_cols with
  | [] => inr []
  | comp :: rest =>
    rbind (if negb (empty Q) then
             rbind (getitem Q comp)
               (λ series, inr (match dropna series with [] => CNone | x :: _ => x end))
           else inr CNone)
      (λ rate, rbind (lookup_rows_value Q rest)
                 (λ rows, inr ((display_name comp, rate) :: rows)))
  end.

Definition lookup_value (d : DataFrame) (age : float)
    (gender occupation benefit : string) : result DataFrame :=
  rbind (where_value d "Age" (CNum age)) (λ q,
  rbind (where_value q "Gender" (CStr gender)) (λ q,
  rbind (where_value q "Occupation" (CStr occupation)) (λ q,
  rbind (where_benefit_value q (benefit_col_of (columns d)) benefit) (λ q,
  rbind (lookup_rows_value q (company_columns (columns d))) (λ rows,
  rbind (getitem (lookup_frame rows) "Rate") (λ rate,
  getitem_list (set_col "Display" (display_cell <$> rate) (lookup_frame rows))
    ["Company"; "Display"])))))).

Section Values.

Variable parse_float : string → float.
Variable mean : list float → float.

(** The filters shared by the two trend queries, followed by [kv]. *)
Definition filter_then {A} (d : DataFrame) (gender occupation benefit : string)
    (benefit_period waiting_period : option string)
    (kv : DataFrame → result A) : result A :=
  rbind (where_value d "Gender" (CStr gender)) (λ f,
  rbind (where_value f "Occupation" (CStr occupation)) (λ f,
  rbind (where_benefit_value f (benefit_col_of (columns d)) benefit) (λ f,
  rbind (where_period_value f "BenefitPeriod" benefit_period) (λ f,
  rbind (where_period_value f "WaitingPeriod" waiting_period) kv)))).

(** [coerce_and_report]: what it returns and the frame it leaves. *)
Fixpoint coerce_report_value (F : DataFrame) (melt_cols missing : list string)
    : result (list string) * DataFrame :=
  match melt_cols with
  | [] => (inr missing, F)
  | c :: rest =>
    match getitem F c with
    | inl e => (inl e, F)
    | inr s =>
      let F' := set_col c (to_numeric parse_float s) F in
      match getitem F' c with
      | inl e => (inl e, F')
      | inr s' =>
        coerce_report_value F' rest
          (match dropna s' with [] => missing ++ [c] | _ => missing end)
      end
    end
  end.

Definition trend_value (d : DataFrame) (companies : list string)
    (gender occupation benefit : string)
    (benefit_period waiting_period : option string)
    : result (DataFrame * list string) :=
  filter_then d gender occupation benefit benefit_period waiting_period (λ F,
    let melt_cols :=
      List.filter (λ c, match companies with
                        | [] => true
                        | _ => bool_decide (c ∈ companies)
                        end) (company_columns (columns d)) in
    match melt_cols with
    | [] => inr ([], [])
    | _ =>
      let cr := coerce_report_value F melt_cols [] in
      rbind cr.1 (λ missing,
      rbind (getitem_list cr.2 ("Age" :: melt_cols)) (λ sub,
      inr (strip_company (dropna_rate (melt sub)), missing)))
    end).

(** [coerce_cols]: what it returns and the frame it leaves. *)
Fixpoint coerce_value (F : DataFrame) (numeric_cols : list string)
    : result unit * DataFrame :=
  match numeric_cols with
  | [] => (inr tt, F)
  | c :: rest =>
    match getitem F c with
    | inl e => (inl e, F)
    | inr s => coerce_value (set_col c (to_numeric parse_float s) F) rest
    end
  end.

Fixpoint compare_value (F : DataFrame) (base_series : list (float * float))
    (compare_companies : list string) (rows : list Block) (missing : list string)
    : result (list Block * list string) :=
  match compare_companies with
  | [] => inr (rows, missing)
  | comp :: rest =>
    rbind (mean_by_age mean F comp) (λ comp_series,
      match join base_series comp_series with
      | [] => compare_value F base_series rest rows (missing ++ [comp])
      | joined => compare_value F base_series rest
                    (rows ++ [ratio_block comp joined]) missing
      end)
  end.

(** The frame the relative trend is computed on: the rows left by the
    filters, the columns of the companies made numeric. *)
Definition numeric_frame (F : DataFrame) (base_company : string)
    (compare_companies : list string) : result unit * DataFrame :=
  coerce_value F
    (List.filter (λ c, bool_decide (c ∈ columns F)) (base_company :: compare_companies)).

Definition relative_tail (F : DataFrame) (base_company : string)
    (compare_companies : list string) : result (DataFrame * list string * bool) :=
  let nf := numeric_frame F base_company compare_companies in
  rbind nf.1 (λ _,
  rbind (mean_by_age mean nf.2 base_company) (λ base_series,
    let baseline_missing := match base_series with [] => true | _ => false end in
    let rows := match base_series with
                | [] => []
                | _ => [base_block base_company base_series]
                end in
    rbind (compare_value nf.2 base_series compare_companies rows []) (λ rm,
      match rm.1 with
      | [] => inr ([], rm.2, baseline_missing)
      | _ => inr (ratio_frame rm.1, rm.2, baseline_missing)
      end))).

Definition relative_value (d : DataFrame) (base_company : string)
    (compare_companies : list string) (gender occupation benefit : string)
    (benefit_period waiting_period : option string)
    : result (DataFrame * list string * bool) :=
  if negb (truthy_str base_company)
     || match compare_companies with [] => true | _ => false end
  then inr ([], [], false)
  else filter_then d gender occupation benefit benefit_period waiting_period
         (λ F, relative_tail F base_company compare_companies).

End Values.

(** ** Running a query on a store of objects *)

Section Run.

(** The store the query starts from. *)
Variable h0 : list DataFrame.

(** A frame made by the query: it lies beyond the objects of [h0]. *)
Definition local_frame (H : list DataFrame) (l : loc) (F : DataFrame) : Prop :=
  h0 `prefix_of` H ∧ length h0 ≤ l ∧ H !! l = Some F.

(** A run gives [r] and leaves the objects of [h0] as they were. *)
Definition ends {A} (out : result A * list DataFrame) (r : result A) : Prop :=
  out.1 = r ∧ h0 `prefix_of` out.2.

Lemma prefix_insert_beyond (H : list DataFrame) (l : loc) (F : DataFrame) :
  h0 `prefix_of` H → length h0 ≤ l → h0 `prefix_of` <[l := F]> H.
Proof.
  intros [k ->] Hl. rewrite insert_app_r_alt by done. by apply prefix_app_r.
Qed.

Lemma local_frame_alloc (H : list DataFrame) (F : DataFrame) :
  h0 `prefix_of` H → local_frame (H ++ [F]) (length H) F.
Proof.
  intros Hp. split; [by apply prefix_app_r|]. split; [by apply prefix_length|].
  by apply list_lookup_middle.
Qed.

Lemma local_frame_store (H : list DataFrame) (l : loc) (F F' : DataFrame) :
  local_frame H l F → local_frame (<[l := F']> H) l F'.
Proof.
  intros (Hp & Hl & Hlk). split; [by apply prefix_insert_beyond|]. split; [done|].
  apply list_lookup_insert_eq. by eapply lookup_lt_Some.
Qed.

(** *** The operations on a frame *)

Lemma df_where_run (H : list DataFrame) (l : loc) (F : DataFrame) (c : string) (v : cell) :
  H !! l = Some F →
  df_where l c v H
  = match getitem F c with
    | inr s => (inr (length H), H ++ [mask_rows (eq_mask s v) F])
    | inl e => (inl e, H)
    end.
Proof.
  intros Hlk. unfold df_where, df_getitem, df_mask, bind, load, lift, alloc.
  cbv beta. rewrite Hlk. destruct (getitem F c); [done|]. by rewrite Hlk.
Qed.

Lemma df_getitem_run (H : list DataFrame) (l : loc) (F : DataFrame) (c : string) :
  H !! l = Some F → df_getitem l c H = (getitem F c, H).
Proof. intros Hlk. unfold df_getitem, bind, load, lift. cbv beta. by rewrite Hlk. Qed.

Lemma df_setitem_run (H : list DataFrame) (l : loc) (F : DataFrame) (c : string) (s : Series) :
  H !! l = Some F → df_setitem l c s H = (inr tt, <[l := set_col c s F]> H).
Proof. intros Hlk. unfold df_setitem, bind, load, store. cbv beta. by rewrite Hlk. Qed.

Lemma df_columns_run (H : list DataFrame) (l : loc) (F : DataFrame) :
  H !! l = Some F → df_columns l H = (inr (columns F), H).
Proof. intros Hlk. unfold df_columns, bind, load, ret. cbv beta. by rewrite Hlk. Qed.

Lemma df_empty_run (H : list DataFrame) (l : loc) (F : DataFrame) :
  H !! l = Some F → df_empty l H = (inr (empty F), H).
Proof. intros Hlk. unfold df_empty, bind, load, ret. cbv beta. by rewrite Hlk. Qed.

Lemma df_copy_run (H : list DataFrame) (l : loc) (F : DataFrame) :
  H !! l = Some F → df_copy l H = (inr (length H), H ++ [F]).
Proof. intros Hlk. unfold df_copy, bind, load, alloc. cbv beta. by rewrite Hlk. Qed.

Lemma load_run (H : list DataFrame) (l : loc) (F : DataFrame) :
  H !! l = Some F → load l H = (inr F, H).
Proof. intros Hlk. unfold load. cbv beta. by rewrite Hlk. Qed.

(** *** Steps of a run *)

(** A step that makes a new frame out of the current one. *)
Definition moves (m : loc → ES heap loc) (f : DataFrame → result DataFrame) : Prop :=
  ∀ H l F, local_frame H l F →
    match f F with
    | inr F' => ∃ H' l', m l H = (inr l', H') ∧ local_frame H' l' F'
    | inl e => ends (m l H) (inl e)
    end.

Lemma ends_moves {A} (m : loc → ES heap loc) (f : DataFrame → result DataFrame)
    (k : loc → ES heap A) (kv : DataFrame → result A) H l F :
  moves m f → local_frame H l F →
  (∀ H' l' F', local_frame H' l' F' → ends (k l' H') (kv F')) →
  ends (bind (m l) k H) (rbind (f F) kv).
Proof.
  intros Hm HF Hk. specialize (Hm H l F HF). unfold bind.
  destruct (f F) as [e|F']; simpl.
  - destruct Hm as [Hr Hp]. destruct (m l H) as [r H']. simpl in *. subst r. done.
  - destruct Hm as (H' & l' & -> & HF'). by apply Hk.
Qed.

Lemma moves_where (c : string) (v : cell) :
  moves (λ l, df_where l c v) (λ F, where_value F c v).
Proof.
  intros H l F (Hp & Hl & Hlk). rewrite (df_where_run _ _ _ _ _ Hlk).
  unfold where_value. destruct (getitem F c) as [e|s]; simpl.
  - done.
  - eexists _, _. split; [done|]. by apply local_frame_alloc.
Qed.

Lemma moves_ret (f : DataFrame → result DataFrame) :
  (∀ F, f F = inr F) → moves (λ l, ret l) f.
Proof. intros Hf H l F HF. rewrite Hf. by eexists _, _. Qed.

Lemma moves_where_benefit (benefit_col : option string) (benefit : string) :
  moves (λ l, where_benefit l benefit_col benefit)
        (λ F, where_benefit_value F benefit_col benefit).
Proof.
  destruct benefit_col as [c|]; simpl.
  - apply moves_where.
  - by apply moves_ret.
Qed.

Lemma moves_where_period (c : string) (period : option string) :
  moves (λ l, where_period l c period) (λ F, where_period_value F c period).
Proof.
  intros H l F HF. unfold where_period, where_period_value.
  destruct period as [v|]; [|by eexists _, _].
  destruct (truthy_str v); [|by eexists _, _].
  destruct HF as (Hp & Hl & Hlk).
  unfold bind. rewrite (df_columns_run _ _ _ Hlk).
  case_bool_decide.
  - by apply moves_where.
  - by eexists _, _.
Qed.

(** A step that reads or changes the current frame where it is. *)
Definition acts {A} (m : loc → ES heap A) (v : DataFrame → result A * DataFrame) : Prop :=
  ∀ H l F, local_frame H l F →
    ∃ H', m l H = ((v F).1, H') ∧ local_frame H' l (v F).2.

(** Reading an object of [h0] in a store that extends it. *)
Lemma get_company_columns_run (H : list DataFrame) (df : loc) (d : DataFrame) :
  h0 !! df = Some d → h0 `prefix_of` H →
  get_company_columns df H = (inr (company_columns (columns d)), H).
Proof.
  intros Hd Hp. unfold get_company_columns, bind.
  by rewrite (df_columns_run _ _ _ (prefix_lookup_Some _ _ _ _ Hd Hp)).
Qed.

Lemma ends_lift {A} (H : list DataFrame) (r : result A) :
  h0 `prefix_of` H → ends (lift r H) r.
Proof. done. Qed.

Lemma ends_lift_bind {A B} (H : list DataFrame) (r : result A) (k : A → ES heap B)
    (kv : A → result B) :
  h0 `prefix_of` H → (∀ a, ends (k a H) (kv a)) → ends (bind (lift r) k H) (rbind r kv).
Proof. intros Hp Hk. unfold bind, lift. destruct r as [e|a]; [done|]. apply Hk. Qed.

(** *** build_lookup *)

Lemma lookup_rows_run (H : list DataFrame) (l : loc) (Q : DataFrame) (cs : list string) :
  H !! l = Some Q → lookup_rows l cs H = (lookup_rows_value Q cs, H).
Proof.
  intros Hlk. induction cs as [|comp rest IH]; [done|].
  cbn [lookup_rows lookup_rows_value]. unfold bind at 1.
  rewrite (df_empty_run _ _ _ Hlk). unfold bind at 1.
  destruct (empty Q); simpl.
  - unfold ret at 1. unfold bind at 1. rewrite IH.
    by destruct (lookup_rows_value Q rest).
  - unfold bind at 1. rewrite (df_getitem_run _ _ _ _ Hlk).
    destruct (getitem Q comp) as [e|series]; simpl; [done|].
    assert (∀ x : cell, (let (r, s') := ret x H in
       match r with
       | inl e => (inl e, s')
       | inr a => (rows <- lookup_rows l rest;; ret ((display_name comp, a) :: rows))%es s'
       end)
      = (rbind (lookup_rows_value Q rest) (λ rows, inr ((display_name comp, x) :: rows)), H)) as Hx.
    { intros x. unfold ret at 1. unfold bind. rewrite IH.
      by destruct (lookup_rows_value Q rest). }
    destruct (dropna series); apply Hx.
Qed.

Lemma build_lookup_run (df : loc) (d : DataFrame) (age : float)
    (gender occupation benefit : string) :
  h0 !! df = Some d →
  ends (build_lookup df age gender occupation benefit h0)
       (lookup_value d age gender occupation benefit).
Proof.
  intros Hd. unfold build_lookup, lookup_value.
  unfold bind at 1. rewrite (df_columns_run _ _ _ Hd).
  unfold bind at 1. rewrite (df_copy_run _ _ _ Hd).
  assert (local_frame (h0 ++ [d]) (length h0) d) as HF by by apply local_frame_alloc.
  revert HF. generalize (h0 ++ [d]) (length h0). intros H l HF.
  apply (ends_moves _ _ _ _ _ _ _ (moves_where "Age" (CNum age)) HF).
  clear H l HF. intros H l F HF.
  apply (ends_moves _ _ _ _ _ _ _ (moves_where "Gender" (CStr gender)) HF).
  clear H l F HF. intros H l F HF.
  apply (ends_moves _ _ _ _ _ _ _ (moves_where "Occupation" (CStr occupation)) HF).
  clear H l F HF. intros H l F HF.
  apply (ends_moves _ _ _ _ _ _ _
           (moves_where_benefit (benefit_col_of (columns d)) benefit) HF).
  clear H l F HF. intros H l F (Hp & Hl & Hlk).
  unfold bind at 1. rewrite (get_company_columns_run _ _ _ Hd Hp).
  unfold bind at 1. rewrite (lookup_rows_run _ _ _ _ Hlk).
  destruct (lookup_rows_value F (company_columns (columns d))) as [e|rows]; [done|].
  cbn [rbind]. apply ends_lift_bind; [done|]. intros rate. by apply ends_lift.
Qed.

(** *** The filters of the trend queries *)

Lemma ends_filters {A} (df : loc) (d : DataFrame) (gender occupation benefit : string)
    (benefit_period waiting_period : option string)
    (k : loc → ES heap A) (kv : DataFrame → result A) :
  h0 !! df = Some d →
  (∀ H l F, local_frame H l F → ends (k l H) (kv F)) →
  ends ((filtered <- df_copy df ;;
         filtered <- df_where filtered "Gender" (CStr gender) ;;
         filtered <- df_where filtered "Occupation" (CStr occupation) ;;
         filtered <- where_benefit filtered (benefit_col_of (columns d)) benefit ;;
         filtered <- where_period filtered "BenefitPeriod" benefit_period ;;
         filtered <- where_period filtered "WaitingPeriod" waiting_period ;;
         k filtered)%es h0)
       (filter_then d gender occupation benefit benefit_period waiting_period kv).
Proof.
  intros Hd Hk. unfold filter_then.
  unfold bind at 1. rewrite (df_copy_run _ _ _ Hd).
  assert (local_frame (h0 ++ [d]) (length h0) d) as HF by by apply local_frame_alloc.
  revert HF. generalize (h0 ++ [d]) (length h0). intros H l HF.
  apply (ends_moves _ _ _ _ _ _ _ (moves_where "Gender" (CStr gender)) HF).
  clear H l HF. intros H l F HF.
  apply (ends_moves _ _ _ _ _ _ _ (moves_where "Occupation" (CStr occupation)) HF).
  clear H l F HF. intros H l F HF.
  apply (ends_moves _ _ _ _ _ _ _
           (moves_where_benefit (benefit_col_of (columns d)) benefit) HF).
  clear H l F HF. intros H l F HF.
  apply (ends_moves _ _ _ _ _ _ _ (moves_where_period "BenefitPeriod" benefit_period) HF).
  clear H l F HF. intros H l F HF.
  apply (ends_moves _ _ _ _ _ _ _ (moves_where_period "WaitingPeriod" waiting_period) HF).
  exact Hk.
Qed.

Variable parse_float : string → float.
Variable mean : list float → float.

(** *** build_trend *)

Lemma coerce_and_report_run (cs : list string) :
  ∀ missing, acts (λ l, coerce_and_report parse_float l cs missing)
                  (λ F, coerce_report_value parse_float F cs missing).
Proof.
  induction cs as [|c rest IH]; intros missing H l F HF.
  - by exists H.
  - cbn [coerce_and_report coerce_report_value].
    pose proof HF as (Hp & Hl & Hlk).
    unfold bind at 1. rewrite (df_getitem_run _ _ _ _ Hlk).
    destruct (getitem F c) as [e|s]; [by exists H|].
    unfold bind at 1. rewrite (df_setitem_run _ _ _ _ _ Hlk).
    set (F' := set_col c (to_numeric parse_float s) F).
    assert (local_frame (<[l := F']> H) l F') as HF' by by eapply local_frame_store.
    pose proof HF' as (_ & _ & Hlk').
    unfold bind at 1. rewrite (df_getitem_run _ _ _ _ Hlk').
    destruct (getitem F' c) as [e|s']; [by eexists|].
    by apply IH.
Qed.

Lemma build_trend_run (df : loc) (d : DataFrame) (companies : list string)
    (gender occupation benefit : string)
    (benefit_period waiting_period : option string) :
  h0 !! df = Some d →
  ends (build_trend parse_float df companies gender occupation benefit
          benefit_period waiting_period h0)
       (trend_value parse_float d companies gender occupation benefit
          benefit_period waiting_period).
Proof.
  intros Hd. unfold build_trend, trend_value.
  unfold bind at 1. rewrite (df_columns_run _ _ _ Hd).
  apply ends_filters; [done|]. intros H l F HF.
  pose proof HF as (Hp & Hl & Hlk).
  unfold bind at 1. rewrite (get_company_columns_run _ _ _ Hd Hp).
  set (melt_cols := List.filter _ (company_columns (columns d))).
  destruct melt_cols as [|c0 cs0] eqn:Hmc; [done|]. rewrite <- Hmc. clear Hmc.
  destruct (coerce_and_report_run melt_cols [] H l F HF) as (H' & Heq & HF').
  unfold bind at 1. rewrite Heq.
  destruct (coerce_report_value parse_float F melt_cols []).1 as [e|missing];
    [split; [done|apply HF']|].
  cbn [rbind]. pose proof HF' as (Hp' & _ & Hlk').
  unfold bind at 1. rewrite (load_run _ _ _ Hlk').
  apply ends_lift_bind; [done|]. intros sub. done.
Qed.

(** *** build_relative_trend *)

Lemma coerce_cols_run (cs : list string) :
  acts (λ l, coerce_cols parse_float l cs) (λ F, coerce_value parse_float F cs).
Proof.
  induction cs as [|c rest IH]; intros H l F HF.
  - by exists H.
  - cbn [coerce_cols coerce_value].
    pose proof HF as (Hp & Hl & Hlk).
    unfold bind at 1. rewrite (df_getitem_run _ _ _ _ Hlk).
    destruct (getitem F c) as [e|s]; [by exists H|].
    unfold bind at 1. rewrite (df_setitem_run _ _ _ _ _ Hlk).
    apply IH. by eapply local_frame_store.
Qed.

Lemma df_mean_by_age_run (H : list DataFrame) (l : loc) (F : DataFrame) (c : string) :
  H !! l = Some F → df_mean_by_age mean l c H = (mean_by_age mean F c, H).
Proof. intros Hlk. unfold df_mean_by_age, bind. by rewrite (load_run _ _ _ Hlk). Qed.

Lemma compare_loop_run (H : list DataFrame) (l : loc) (F : DataFrame)
    (base_series : list (float * float)) (cs : list string) :
  H !! l = Some F →
  ∀ rows missing,
    compare_loop mean l base_series cs rows missing H
    = (compare_value mean F base_series cs rows missing, H).
Proof.
  intros Hlk. induction cs as [|comp rest IH]; intros rows missing; [done|].
  cbn [compare_loop compare_value]. unfold bind at 1.
  rewrite (df_mean_by_age_run _ _ _ _ Hlk).
  destruct (mean_by_age mean F comp) as [e|comp_series]; [done|]. cbn [rbind].
  destruct (join base_series comp_series); apply IH.
Qed.

Lemma build_relative_trend_run (df : loc) (d : DataFrame) (base_company : string)
    (compare_companies : list string) (gender occupation benefit : string)
    (benefit_period waiting_period : option string) :
  h0 !! df = Some d →
  ends (build_relative_trend parse_float mean df base_company compare_companies
          gender occupation benefit benefit_period waiting_period h0)
       (relative_value parse_float mean d base_company compare_companies
          gender occupation benefit benefit_period waiting_period).
Proof.
  intros Hd. unfold build_relative_trend, relative_value.
  destruct (_ || _); [done|].
  unfold bind at 1. rewrite (df_columns_run _ _ _ Hd).
  apply ends_filters; [done|]. intros H l F HF.
  pose proof HF as (Hp & Hl & Hlk). unfold relative_tail, numeric_frame.
  unfold bind at 1. rewrite (df_columns_run _ _ _ Hlk).
  set (numeric_cols := List.filter _ (base_company :: compare_companies)).
  destruct (coerce_cols_run numeric_cols H l F HF) as (H' & Heq & HF').
  unfold bind at 1. rewrite Heq.
  destruct (coerce_value parse_float F numeric_cols).1 as [e|[]];
    [split; [done|apply HF']|].
  cbn [rbind]. pose proof HF' as (Hp' & _ & Hlk').
  unfold bind at 1. rewrite (df_mean_by_age_run _ _ _ _ Hlk').
  destruct (mean_by_age mean _ base_company) as [e|base_series]; [done|].
  cbn [rbind]. unfold bind at 1. rewrite (compare_loop_run _ _ _ _ _ Hlk').
  destruct (compare_value _ _ _ _ _ _) as [e|[rows missing]]; [done|].
  cbn [rbind fst snd]. by destruct rows.
Qed.

End Run.

(** ** Columns, masks and rows *)

(** The column [c] of [d], empty when [d] has no such column. *)
Definition col (d : DataFrame) (c : string) : Series := default [] (lookup_col c d).

(** Row by row conjunction of two masks. *)
Definition and_mask (m1 m2 : list bool) : list bool := zip_with andb m1 m2.

(** All columns of a frame have the same length. *)
Definition rectangular (d : DataFrame) : Prop :=
  ∃ n, Forall (λ cs, length cs.2 = n) d.

Lemma lookup_col_columns (d : DataFrame) (c : string) :
  c ∈ columns d → ∃ s, lookup_col c d = Some s.
Proof.
  induction d as [|[c' s'] d IH]; simpl; [by intros ?%elem_of_nil|].
  intros Hin. destruct (String.eqb_spec c c') as [->|Hne]; [by eexists|].
  apply IH. apply elem_of_cons in Hin as [?|?]; [done|done].
Qed.

Lemma lookup_col_Some (d : DataFrame) (c : string) (s : Series) :
  lookup_col c d = Some s → c ∈ columns d ∧ (c, s) ∈ d.
Proof.
  induction d as [|[c' s'] d IH]; simpl; [done|].
  destruct (String.eqb_spec c c') as [->|Hne].
  - intros [= ->]. split; apply elem_of_cons; by left.
  - intros [H1 H2]%IH. split; apply elem_of_cons; by right.
Qed.

Lemma getitem_col (d : DataFrame) (c : string) :
  c ∈ columns d → getitem d c = inr (col d c).
Proof.
  intros [s Hs]%lookup_col_columns. unfold getitem, col. by rewrite Hs.
Qed.

Lemma columns_mask_rows (m : list bool) (d : DataFrame) :
  columns (mask_rows m d) = columns d.
Proof.
  unfold columns, mask_rows. rewrite <- list_fmap_compose.
  apply list_fmap_ext. by intros i [c s] _.
Qed.

Lemma keep_nil_r {A} (m : list bool) : keep m (@nil A) = [].
Proof. by destruct m. Qed.

Lemma lookup_col_mask_rows (m : list bool) (d : DataFrame) (c : string) :
  lookup_col c (mask_rows m d) = keep m <$> lookup_col c d.
Proof.
  induction d as [|[c' s'] d IH]; simpl; [done|].
  by destruct (String.eqb c c').
Qed.

Lemma col_mask_rows (m : list bool) (d : DataFrame) (c : string) :
  col (mask_rows m d) c = keep m (col d c).
Proof.
  unfold col. rewrite lookup_col_mask_rows.
  destruct (lookup_col c d); simpl; [done|]. by rewrite keep_nil_r.
Qed.

Lemma keep_fmap {A B} (f : A → B) (m : list bool) (s : list A) :
  keep m (f <$> s) = f <$> keep m s.
Proof.
  revert s. induction m as [|b m IH]; intros [|x s]; simpl; try done.
  destruct b; simpl; by rewrite IH.
Qed.

Lemma keep_keep {A} (m1 m2 : list bool) (s : list A) :
  keep (keep m1 m2) (keep m1 s) = keep (and_mask m1 m2) s.
Proof.
  revert m2 s. induction m1 as [|b1 m1 IH]; intros m2 s; [done|].
  destruct m2 as [|b2 m2], s as [|x s]; simpl; rewrite ?keep_nil_r; try done.
  destruct b1; simpl; [destruct b2|]; by rewrite IH.
Qed.

Lemma keep_length {A B} (m : list bool) (s : list A) (s' : list B) :
  length s = length s' → length (keep m s) = length (keep m s').
Proof.
  revert s s'. induction m as [|b m IH]; intros [|x s] [|y s'] Hlen; simpl in *; try done.
  destruct b; simpl; rewrite (IH s s') by lia; done.
Qed.

Lemma mask_rows_twice (m1 m2 : list bool) (d : DataFrame) :
  mask_rows (keep m1 m2) (mask_rows m1 d) = mask_rows (and_mask m1 m2) d.
Proof.
  unfold mask_rows. rewrite <- list_fmap_compose.
  apply list_fmap_ext. intros i [c s] _. simpl. by rewrite keep_keep.
Qed.

Lemma rectangular_mask_rows (m : list bool) (d : DataFrame) :
  rectangular d → rectangular (mask_rows m d).
Proof.
  intros [n Hn]. destruct d as [|[c0 s0] d]; [by exists 0|].
  exists (length (keep m s0)). unfold mask_rows. rewrite Forall_fmap.
  apply Forall_cons in Hn as [Hn0 Hn].
  apply Forall_cons. split; [done|].
  eapply Forall_impl; [exact Hn|]. intros [c s] Hs. simpl in *.
  apply keep_length. congruence.
Qed.

Lemma where_value_col (F : DataFrame) (c : string) (v : cell) :
  c ∈ columns F → where_value F c v = inr (mask_rows (eq_mask (col F c) v) F).
Proof. intros Hc. unfold where_value. by rewrite getitem_col. Qed.

Lemma where_value_mask (M : list bool) (d : DataFrame) (c : string) (v : cell) :
  c ∈ columns d →
  where_value (mask_rows M d) c v
  = inr (mask_rows (and_mask M (eq_mask (col d c) v)) d).
Proof.
  intros Hc. rewrite where_value_col by by rewrite columns_mask_rows.
  rewrite col_mask_rows. unfold eq_mask. by rewrite <- keep_fmap, mask_rows_twice.
Qed.

Lemma dropna_head (s : Series) (x : cell) (t : Series) :
  dropna s = x :: t → isna x = false.
Proof.
  intros Heq. assert (x ∈ dropna s) as Hin by (rewrite Heq; apply elem_of_cons; by left).
  apply list_elem_of_In, filter_In in Hin as [_ Hx]. by apply negb_true_iff.
Qed.

(** ** The point lookup *)

(** A normalized table: a frame with the four fields of a query. *)
Definition normalized (d : DataFrame) : Prop :=
  rectangular d ∧ "Age" ∈ columns d ∧ "Gender" ∈ columns d
  ∧ "Occupation" ∈ columns d ∧ "BenefitType" ∈ columns d.

(** The rows that match the four fields of a query. *)
Definition match_mask (d : DataFrame) (age : float)
    (gender occupation benefit : string) : list bool :=
  and_mask (and_mask (and_mask (eq_mask (col d "Age") (CNum age))
                               (eq_mask (col d "Gender") (CStr gender)))
                     (eq_mask (col d "Occupation") (CStr occupation)))
           (eq_mask (col d "BenefitType") (CStr benefit)).

(** Row [i] is in the mask when its four cells equal the four fields. *)
Lemma match_mask_row (d : DataFrame) (age : float) (gender occupation benefit : string)
    (i : nat) (a g o b : cell) :
  col d "Age" !! i = Some a → col d "Gender" !! i = Some g →
  col d "Occupation" !! i = Some o → col d "BenefitType" !! i = Some b →
  match_mask d age gender occupation benefit !! i
  = Some (eq_scalar (CNum age) a && eq_scalar (CStr gender) g
          && eq_scalar (CStr occupation) o && eq_scalar (CStr benefit) b).
Proof.
  intros Ha Hg Ho Hb. unfold match_mask, and_mask, eq_mask.
  rewrite !lookup_zip_with, !list_lookup_fmap, Ha, Hg, Ho, Hb. done.
Qed.

(** What is shown for a company: the first value that is not missing among
    the rows of the mask, or the words "no available". *)
Definition shown (d : DataFrame) (M : list bool) (comp : string) : cell :=
  default (CStr "no available") (head (dropna (keep M (col d comp)))).

(** The spec's wording of the display name: the header without a final
    [suffix]. *)
Definition strip_suffix (suffix s : string) : string :=
  if String.prefix (String.rev suffix) (String.rev s)
  then take_str (len s - len suffix) s
  else s.

Lemma company_columns_in (cols : list string) :
  Forall (λ c, c ∈ cols) (company_columns cols).
Proof.
  apply Forall_forall. intros c Hc.
  apply list_elem_of_In, filter_In in Hc as [Hc _]. by apply list_elem_of_In.
Qed.

Lemma empty_col (Q : DataFrame) (c : string) :
  rectangular Q → empty Q = true → col Q c = [].
Proof.
  intros [n Hn] He. unfold col.
  destruct (lookup_col c Q) as [s|] eqn:Hs; [|done]. simpl.
  apply lookup_col_Some in Hs as [_ Hin].
  destruct Q as [|[c0 s0] Q]; [by apply elem_of_nil in Hin|].
  simpl in He. destruct s0; [|done].
  pose proof (Forall_inv Hn) as H0. simpl in H0. subst n.
  eapply Forall_forall in Hn; [|exact Hin]. simpl in Hn.
  by apply nil_length_inv.
Qed.

Lemma lookup_rows_value_ok (Q : DataFrame) (comps : list string) :
  rectangular Q → Forall (λ c, c ∈ columns Q) comps →
  lookup_rows_value Q comps
  = inr ((λ comp, (display_name comp, default CNone (head (dropna (col Q comp)))))
           <$> comps).
Proof.
  intros Hrect Hin. induction Hin as [|comp rest Hc _ IH]; [done|].
  cbn [lookup_rows_value]. rewrite IH, (getitem_col _ _ Hc).
  destruct (empty Q) eqn:He; simpl.
  - by rewrite (empty_col _ _ Hrect He).
  - by destruct (dropna (col Q comp)).
Qed.

Lemma display_cell_head (s : Series) :
  display_cell (default CNone (head (dropna s)))
  = default (CStr "no available") (head (dropna s)).
Proof.
  destruct (dropna s) as [|x t] eqn:Hs; [done|]. simpl.
  unfold display_cell. by rewrite (dropna_head _ _ _ Hs).
Qed.

Lemma lookup_result (rows : list (string * cell)) :
  rows ≠ [] →
  rbind (getitem (lookup_frame rows) "Rate") (λ rate,
    getitem_list (set_col "Display" (display_cell <$> rate) (lookup_frame rows))
      ["Company"; "Display"])
  = inr [("Company", CStr <$> rows.*1); ("Display", display_cell <$> rows.*2)].
Proof. by destruct rows. Qed.

(** With no company column the frame of the rows has no column [Rate]. *)
Lemma lookup_result_empty :
  rbind (getitem (lookup_frame []) "Rate") (λ rate,
    getitem_list (set_col "Display" (display_cell <$> rate) (lookup_frame []))
      ["Company"; "Display"])
  = inl (KeyError "Rate").
Proof. reflexivity. Qed.

(** C8, as amended.  On every normalized table that has a company column,
    and for every query [(age, gender, occupation, benefit)], the point
    lookup returns a frame of two columns with one row per company column,
    in the order of the columns.  [Company] holds the header of the column
    with every occurrence of [" rates"] removed; [Display] holds the first
    value that is not missing among the rows that equal the query on all
    four fields, or ["no available"] when those rows hold no value. *)
Theorem point_lookup_rows (h : list DataFrame) (df : loc) (d : DataFrame)
    (age : float) (gender occupation benefit : string) :
  h !! df = Some d → normalized d → company_columns (columns d) ≠ [] →
  let comps := company_columns (columns d) in
  let M := match_mask d age gender occupation benefit in
  (build_lookup df age gender occupation benefit h).1
  = inr [("Company", (λ comp, CStr (remove_all " rates" comp)) <$> comps);
         ("Display", (λ comp, shown d M comp) <$> comps)].
Proof.
  intros Hd (Hrect & Ha & Hg & Ho & Hb) Hcomps comps M.
  destruct (build_lookup_run h df d age gender occupation benefit Hd) as [-> _].
  unfold lookup_value.
  rewrite (where_value_col _ _ _ Ha). cbn [rbind].
  rewrite (where_value_mask _ _ _ _ Hg). cbn [rbind].
  rewrite (where_value_mask _ _ _ _ Ho). cbn [rbind].
  unfold benefit_col_of. rewrite bool_decide_eq_true_2 by done.
  cbn [where_benefit_value]. rewrite (where_value_mask _ _ _ _ Hb). cbn [rbind].
  fold (match_mask d age gender occupation benefit). fold M. fold comps.
  rewrite lookup_rows_value_ok.
  - cbn [rbind]. rewrite lookup_result by (by intros ?%fmap_nil_inv).
    rewrite <- !list_fmap_compose.
    assert (display_cell ∘ snd
            ∘ (λ comp, (display_name comp,
                        default CNone (head (dropna (col (mask_rows M d) comp)))))
            <$> comps = (λ comp, shown d M comp) <$> comps) as ->; [|done].
    apply list_fmap_ext. intros i comp _. simpl.
    rewrite display_cell_head, col_mask_rows. done.
  - by apply rectangular_mask_rows.
  - rewrite columns_mask_rows. apply company_columns_in.
Qed.

(** ** The relative trend *)

Definition numeric_cell (c : cell) : bool :=
  match c with
  | CStr _ => false
  | _ => true
  end.

(** The [Age] column holds numbers or missing values, as [load_data]
    leaves it. *)
Definition age_numeric (d : DataFrame) : Prop :=
  Forall (λ c, numeric_cell c = true) (col d "Age").

(** A frame got from [d] by dropping rows. *)
Inductive filtered_of (d : DataFrame) : DataFrame → Prop :=
| filtered_refl : filtered_of d d
| filtered_mask (m : list bool) (F : DataFrame) :
    filtered_of d F → filtered_of d (mask_rows m F).

Lemma filtered_of_columns (d F : DataFrame) :
  filtered_of d F → columns F = columns d.
Proof. induction 1; [done|]. by rewrite columns_mask_rows. Qed.

Lemma Forall_keep {A} (P : A → Prop) (m : list bool) (s : list A) :
  Forall P s → Forall P (keep m s).
Proof.
  intros Hs. revert m. induction Hs as [|x s Hx _ IH]; intros [|b m]; simpl; try done.
  destruct b; [constructor|]; auto.
Qed.

Lemma filtered_of_col (d F : DataFrame) (P : cell → Prop) (c : string) :
  filtered_of d F → Forall P (col d c) → Forall P (col F c).
Proof.
  induction 1; [done|]. intros Hd. rewrite col_mask_rows. by apply Forall_keep, IHfiltered_of.
Qed.

Lemma where_value_filtered (d F : DataFrame) (c : string) (v : cell) :
  filtered_of d F → c ∈ columns d →
  ∃ F', filtered_of d F' ∧ where_value F c v = inr F'.
Proof.
  intros HF Hc. eexists. split; [|apply where_value_col; by rewrite (filtered_of_columns d F)].
  by constructor.
Qed.

Lemma where_period_value_filtered (d F : DataFrame) (c : string) (period : option string) :
  filtered_of d F → ∃ F', filtered_of d F' ∧ where_period_value F c period = inr F'.
Proof.
  intros HF. unfold where_period_value.
  destruct period as [v|]; [|by exists F].
  destruct (truthy_str v); [|by exists F].
  case_bool_decide as Hc; [|by exists F].
  apply where_value_filtered; [done|]. by rewrite <- (filtered_of_columns d F).
Qed.

(** The filters raise nothing on a table that has the columns [Gender] and
    [Occupation]: they leave a frame of rows of the table. *)
Lemma filter_then_ok (d : DataFrame) (gender occupation benefit : string)
    (benefit_period waiting_period : option string) :
  "Gender" ∈ columns d → "Occupation" ∈ columns d →
  ∃ F, filtered_of d F
       ∧ ∀ A (kv : DataFrame → result A),
           filter_then d gender occupation benefit benefit_period waiting_period kv = kv F.
Proof.
  intros Hg Ho.
  destruct (where_value_filtered d d "Gender" (CStr gender)) as (F1 & HF1 & E1);
    [constructor|done|].
  destruct (where_value_filtered d F1 "Occupation" (CStr occupation)) as (F2 & HF2 & E2);
    [done..|].
  assert (∃ F3, filtered_of d F3
                ∧ where_benefit_value F2 (benefit_col_of (columns d)) benefit = inr F3)
    as (F3 & HF3 & E3).
  { unfold benefit_col_of. case_bool_decide; [|by exists F2].
    by apply where_value_filtered. }
  destruct (where_period_value_filtered d F3 "BenefitPeriod" benefit_period HF3)
    as (F4 & HF4 & E4).
  destruct (where_period_value_filtered d F4 "WaitingPeriod" waiting_period HF4)
    as (F5 & HF5 & E5).
  exists F5. split; [done|]. intros A kv. unfold filter_then.
  rewrite E1. cbn [rbind]. rewrite E2. cbn [rbind]. rewrite E3. cbn [rbind].
  rewrite E4. cbn [rbind]. by rewrite E5.
Qed.

(** *** Assigning a column *)

Lemma columns_set_col (c : string) (s : Series) (F : DataFrame) :
  c ∈ columns F → columns (set_col c s F) = columns F.
Proof.
  induction F as [|[c' s'] F IH]; simpl; [by intros ?%elem_of_nil|].
  intros Hin. destruct (String.eqb_spec c c') as [->|Hne]; [done|].
  simpl. f_equal. apply IH. apply elem_of_cons in Hin as [?|?]; done.
Qed.

Lemma col_set_col (c c' : string) (s : Series) (F : DataFrame) :
  col (set_col c s F) c' = if decide (c' = c) then s else col F c'.
Proof.
  unfold col. induction F as [|[c0 s0] F IH]; simpl.
  - destruct (String.eqb_spec c' c); by case_decide.
  - destruct (String.eqb_spec c c0) as [->|Hne]; simpl.
    + destruct (String.eqb_spec c' c0); by case_decide.
    + destruct (String.eqb_spec c' c0) as [->|Hne']; [by rewrite decide_False|done].
Qed.

Lemma company_columns_spec (cols : list string) (c : string) :
  c ∈ company_columns cols → c ∈ cols ∧ c ∉ base_cols.
Proof.
  intros Hc. apply list_elem_of_In, filter_In in Hc as [Hc Hb].
  split; [by apply list_elem_of_In|]. apply negb_true_iff in Hb.
  by apply bool_decide_eq_false in Hb.
Qed.

Lemma company_column_not_age (cols : list string) (c : string) :
  c ∈ company_columns cols → c ≠ "Age".
Proof.
  intros [_ Hb]%company_columns_spec ->. apply Hb. apply elem_of_cons. by left.
Qed.

Lemma filter_all {A} (f : A → bool) (l : list A) :
  Forall (λ x, f x = true) l → List.filter f l = l.
Proof. induction 1 as [|x l Hx _ IH]; simpl; [done|]. by rewrite Hx, IH. Qed.

(** *** The keys of the groups *)

Lemma distinct_from_seen (seen l : list float) (k : float) :
  k ∈ seen → k ∈ distinct_from seen l.
Proof.
  revert seen. induction l as [|x l IH]; intros seen Hk; simpl; [done|].
  destruct (existsb _ seen); apply IH; [done|]. apply elem_of_app. by left.
Qed.

(** Every key that is a number is one of the distinct keys, up to the
    equality of floats. *)
Lemma distinct_from_covers (seen l : list float) (x : float) :
  x ∈ l → (x =? x)%float = true →
  ∃ k, k ∈ distinct_from seen l ∧ (k =? x)%float = true.
Proof.
  revert seen. induction l as [|y l IH]; intros seen Hx Hxx; [by apply elem_of_nil in Hx|].
  simpl. apply elem_of_cons in Hx as [->|Hx].
  - destruct (existsb (λ k, (k =? y)%float) seen) eqn:He.
    + apply existsb_exists in He as (k & Hk & Hky).
      exists k. split; [|done]. apply distinct_from_seen. by apply list_elem_of_In.
    + exists y. split; [|done]. apply distinct_from_seen, elem_of_app. right.
      apply elem_of_cons. by left.
  - destruct (existsb _ seen); by apply IH.
Qed.

Lemma distinct_from_sub (seen l : list float) (k : float) :
  k ∈ distinct_from seen l → k ∈ seen ∨ k ∈ l.
Proof.
  revert seen. induction l as [|x l IH]; intros seen; simpl; [by left|].
  destruct (existsb _ seen); intros [Hk|Hk]%IH.
  - by left.
  - right. apply elem_of_cons. by right.
  - apply elem_of_app in Hk as [Hk|Hk%list_elem_of_singleton]; [by left|].
    right. apply elem_of_cons. by left.
  - right. apply elem_of_cons. by right.
Qed.

Lemma insert_sorted_elem (x y : float) (l : list float) :
  y ∈ insert_sorted x l ↔ y = x ∨ y ∈ l.
Proof.
  induction l as [|z l IH]; simpl.
  - rewrite list_elem_of_singleton. split; [by left|]. intros [?|?%elem_of_nil]; done.
  - destruct (x <=? z)%float.
    + by rewrite elem_of_cons.
    + rewrite !elem_of_cons, IH. tauto.
Qed.

Lemma sort_keys_elem (y : float) (l : list float) : y ∈ sort_keys l ↔ y ∈ l.
Proof.
  induction l as [|x l IH]; simpl; [done|].
  rewrite insert_sorted_elem, IH, elem_of_cons. done.
Qed.

Section Relative.

Variable parse_float : string → float.
Variable mean : list float → float.

(** The points of the baseline: the rows left by the filters where neither
    the age nor the value of the baseline, read as a number, is missing. *)
Definition baseline_points (d : DataFrame) (base_company : string)
    (gender occupation benefit : string)
    (benefit_period waiting_period : option string) : result (list (float * float)) :=
  filter_then d gender occupation benefit benefit_period waiting_period (λ F,
    rbind (getitem F "Age") (λ ages,
    rbind (getitem F base_company) (λ vals,
    points ages (to_numeric parse_float vals)))).

Lemma to_numeric_idem (s : Series) :
  to_numeric parse_float (to_numeric parse_float s) = to_numeric parse_float s.
Proof.
  unfold to_numeric. rewrite <- list_fmap_compose.
  apply list_fmap_ext. by intros i [x|t|] _.
Qed.

Lemma coerce_value_ok (cs : list string) (F : DataFrame) :
  Forall (λ c, c ∈ columns F) cs →
  (coerce_value parse_float F cs).1 = inr tt
  ∧ columns (coerce_value parse_float F cs).2 = columns F
  ∧ ∀ c, col (coerce_value parse_float F cs).2 c
         = if decide (c ∈ cs) then to_numeric parse_float (col F c) else col F c.
Proof.
  revert F. induction cs as [|c0 rest IH]; intros F Hall.
  - split; [done|]. split; [done|]. intros c. rewrite decide_False; [done|].
    by intros ?%elem_of_nil.
  - apply Forall_cons in Hall as [Hc0 Hrest].
    cbn [coerce_value]. rewrite (getitem_col _ _ Hc0).
    set (F1 := set_col c0 (to_numeric parse_float (col F c0)) F).
    assert (columns F1 = columns F) as Hcols by by apply columns_set_col.
    destruct (IH F1) as (H1 & H2 & H3); [by rewrite Hcols|].
    split; [done|]. split; [congruence|].
    intros c. rewrite H3. unfold F1. rewrite col_set_col.
    destruct (decide (c = c0)) as [->|Hne].
    + rewrite (decide_True (P := c0 ∈ c0 :: rest)) by (apply elem_of_cons; by left).
      case_decide; [apply to_numeric_idem|done].
    + destruct (decide (c ∈ rest)) as [Hin|Hout].
      * by rewrite decide_True by (apply elem_of_cons; by right).
      * rewrite decide_False; [done|]. by intros [?|?]%elem_of_cons.
Qed.

Lemma points_ok (ages vals : Series) :
  Forall (λ c, numeric_cell c = true) ages → ∃ ps, points ages vals = inr ps.
Proof.
  intros Hages. revert vals.
  induction Hages as [|a ages Ha _ IH]; intros [|v vals]; simpl; try by eexists.
  destruct (isna a || isna v) eqn:Hna; [apply IH|].
  destruct (IH vals) as [ps ->].
  destruct a as [x|t|]; [by eexists|done|done].
Qed.

Lemma points_keys (ages vals : Series) (ps : list (float * float)) :
  points ages vals = inr ps → Forall (λ p, (p.1 =? p.1)%float = true) ps.
Proof.
  revert vals ps. induction ages as [|a ages IH]; intros [|v vals] ps; simpl;
    try (intros [= <-]; constructor).
  destruct (isna a || isna v) eqn:Hna; [apply IH|].
  apply orb_false_iff in Hna as [Ha _].
  destruct a as [x|t|]; simpl; [|done..].
  destruct (points ages vals) as [e|ps'] eqn:Hps; [done|].
  intros [= <-]. constructor; [|by eapply IH].
  simpl in *. unfold is_nan in Ha. by apply negb_false_iff in Ha.
Qed.

Lemma mean_by_age_col (F : DataFrame) (c : string) :
  "Age" ∈ columns F → c ∈ columns F →
  mean_by_age mean F c
  = rbind (points (col F "Age") (col F c)) (λ ps, inr (groupby_mean mean ps)).
Proof.
  intros Ha Hc. unfold mean_by_age. rewrite (getitem_col _ _ Ha), (getitem_col _ _ Hc).
  by destruct (points _ _).
Qed.

Lemma mean_by_age_ok (F : DataFrame) (c : string) :
  "Age" ∈ columns F → age_numeric F → c ∈ columns F →
  ∃ s, mean_by_age mean F c = inr s.
Proof.
  intros Ha Hnum Hc. rewrite mean_by_age_col by done.
  destruct (points_ok (col F "Age") (col F c) Hnum) as [ps ->]. by eexists.
Qed.

(** The loop over the compare companies raises nothing and keeps the rows
    it is given in front. *)
Lemma compare_value_ok (F : DataFrame) (bs : list (float * float)) (cs : list string) :
  "Age" ∈ columns F → age_numeric F → Forall (λ c, c ∈ columns F) cs →
  ∀ rows missing, ∃ extra missing',
    compare_value mean F bs cs rows missing = inr (rows ++ extra, missing').
Proof.
  intros Ha Hnum Hcs. induction Hcs as [|c rest Hc _ IH]; intros rows missing.
  - exists [], missing. simpl. by rewrite app_nil_r.
  - cbn [compare_value].
    destruct (mean_by_age_ok F c Ha Hnum Hc) as [s ->]. cbn [rbind].
    destruct (join bs s) as [|j js]; [apply IH|].
    destruct (IH (rows ++ [ratio_block c (j :: js)]) missing) as (extra & missing' & ->).
    exists (ratio_block c (j :: js) :: extra), missing'. by rewrite <- app_assoc.
Qed.

(** With an empty series for the baseline every compare company is
    reported missing. *)
Lemma compare_value_nil (F : DataFrame) (cs : list string) :
  "Age" ∈ columns F → age_numeric F → Forall (λ c, c ∈ columns F) cs →
  ∀ rows missing, compare_value mean F [] cs rows missing = inr (rows, missing ++ cs).
Proof.
  intros Ha Hnum Hcs. induction Hcs as [|c rest Hc _ IH]; intros rows missing.
  - simpl. by rewrite app_nil_r.
  - cbn [compare_value].
    destruct (mean_by_age_ok F c Ha Hnum Hc) as [s ->]. cbn [rbind join omap].
    rewrite IH. by rewrite <- app_assoc.
Qed.

(** The frame the series are computed on, for a baseline and compare
    companies that are company columns of the table. *)
Lemma numeric_frame_ok (F : DataFrame) (base_company : string)
    (compare_companies : list string) :
  Forall (λ c, c ∈ columns F ∧ c ≠ "Age") (base_company :: compare_companies) →
  let nf := numeric_frame parse_float F base_company compare_companies in
  nf.1 = inr tt ∧ columns nf.2 = columns F ∧ col nf.2 "Age" = col F "Age"
  ∧ col nf.2 base_company = to_numeric parse_float (col F base_company).
Proof.
  intros Hall nf. unfold nf, numeric_frame.
  rewrite filter_all.
  2:{ eapply Forall_impl; [exact Hall|]. intros c [Hc _]. by apply bool_decide_eq_true. }
  destruct (coerce_value_ok (base_company :: compare_companies) F) as (H1 & H2 & H3).
  { eapply Forall_impl; [exact Hall|]. by intros c [Hc _]. }
  split; [done|]. split; [done|]. rewrite !H3. split.
  - rewrite decide_False; [done|]. intros Hin.
    eapply Forall_forall in Hall; [|exact Hin]. by destruct Hall.
  - rewrite decide_True; [done|]. apply elem_of_cons. by left.
Qed.

Lemma groupby_mean_nil : groupby_mean mean [] = [].
Proof. reflexivity. Qed.

Lemma col_ratio_frame (rows : list Block) :
  col (ratio_frame rows) "Age" = (λ r, CNum r.1.1) <$> concat rows
  ∧ col (ratio_frame rows) "Company" = (λ r, CStr (display_name r.1.2)) <$> concat rows
  ∧ col (ratio_frame rows) "Ratio" = (λ r, CNum r.2) <$> concat rows.
Proof. done. Qed.

(** Every point of the baseline has its age among the keys of the series. *)
Lemma groupby_mean_covers (ps : list (float * float)) (p : float * float) :
  Forall (λ p, (p.1 =? p.1)%float = true) ps → p ∈ ps →
  ∃ i k m, groupby_mean mean ps !! i = Some (k, m) ∧ (k =? p.1)%float = true.
Proof.
  intros Hps Hp.
  destruct (distinct_from_covers [] (fst <$> ps) p.1) as (k & Hk & Hkp).
  { apply list_elem_of_fmap. by exists p. }
  { by eapply Forall_forall in Hps. }
  apply sort_keys_elem, list_elem_of_lookup in Hk as [i Hi].
  exists i, k. eexists. split; [|done].
  unfold groupby_mean, distinct. by rewrite list_lookup_fmap, Hi.
Qed.

(** What the query computes once the filters are passed, for a baseline and
    compare companies that are company columns, on a frame of numeric ages. *)
Lemma relative_tail_ok (F : DataFrame) (base_company : string)
    (compare_companies : list string) :
  "Age" ∈ columns F → age_numeric F →
  Forall (λ c, c ∈ columns F ∧ c ≠ "Age") (base_company :: compare_companies) →
  ∃ ps, points (col F "Age") (to_numeric parse_float (col F base_company)) = inr ps
    ∧ match ps with
      | [] => relative_tail parse_float mean F base_company compare_companies
              = inr ([], compare_companies, true)
      | _ => ∃ rest missing,
          relative_tail parse_float mean F base_company compare_companies
          = inr (ratio_frame (base_block base_company (groupby_mean mean ps) :: rest),
                 missing, false)
      end.
Proof.
  intros Ha Hnum Hall.
  destruct (numeric_frame_ok F base_company compare_companies Hall) as (N1 & N2 & N3 & N4).
  destruct (points_ok (col F "Age") (to_numeric parse_float (col F base_company)) Hnum)
    as [ps Hps].
  exists ps. split; [done|].
  unfold relative_tail. rewrite N1. cbn [rbind].
  set (F' := (numeric_frame parse_float F base_company compare_companies).2) in *.
  assert ("Age" ∈ columns F') as Ha' by by rewrite N2.
  assert (age_numeric F') as Hnum' by (unfold age_numeric; by rewrite N3).
  assert (Forall (λ c, c ∈ columns F') compare_companies) as Hcs.
  { apply Forall_cons in Hall as [_ Hall].
    eapply Forall_impl; [exact Hall|]. intros c [Hc _]. by rewrite N2. }
  rewrite mean_by_age_col; [|done|].
  2:{ rewrite N2. apply Forall_cons in Hall as [[Hb _] _]. done. }
  rewrite N3, N4, Hps. cbn [rbind].
  destruct ps as [|p0 ps'].
  - rewrite groupby_mean_nil. rewrite (compare_value_nil F' _ Ha' Hnum' Hcs). done.
  - destruct (groupby_mean mean (p0 :: ps')) as [|b0 bs'] eqn:Hbs.
    { exfalso.
      destruct (groupby_mean_covers (p0 :: ps') p0) as (i & k & m & Hi & _).
      - by eapply points_keys.
      - apply elem_of_cons. by left.
      - by rewrite Hbs in Hi. }
    destruct (compare_value_ok F' (b0 :: bs') compare_companies Ha' Hnum' Hcs
                [base_block base_company (b0 :: bs')] []) as (extra & missing' & ->).
    cbn [rbind fst snd app]. by exists extra, missing'.
Qed.

(** C7, as amended.  When a baseline is named and at least one compare
    company is given, the baseline and the compare companies being company
    columns of a table with its [Age], [Gender] and [Occupation] columns and
    numeric ages: if no row left by the filters has both an age and a
    numeric value of the baseline, [build_relative_trend] returns the empty
    frame, the flag [baseline_missing] true, and every compare company as
    missing, whatever data the compare companies have. *)
Theorem baseline_missing_flag (h : list DataFrame) (df : loc) (d : DataFrame)
    (base_company : string) (compare_companies : list string)
    (gender occupation benefit : string)
    (benefit_period waiting_period : option string) :
  h !! df = Some d →
  "Age" ∈ columns d → "Gender" ∈ columns d → "Occupation" ∈ columns d →
  age_numeric d →
  base_company ≠ "" → compare_companies ≠ [] →
  Forall (λ c, c ∈ company_columns (columns d)) (base_company :: compare_companies) →
  baseline_points d base_company gender occupation benefit
    benefit_period waiting_period = inr [] →
  (build_relative_trend parse_float mean df base_company compare_companies
     gender occupation benefit benefit_period waiting_period h).1
  = inr ([], compare_companies, true).
Proof.
  intros Hd Ha Hg Ho Hnum Hbase Hcmp Hall Hzero.
  destruct (build_relative_trend_run h parse_float mean df d base_company
              compare_companies gender occupation benefit benefit_period
              waiting_period Hd) as [-> _].
  unfold relative_value.
  replace (truthy_str base_company) with true
    by (symmetry; unfold truthy_str; apply negb_true_iff; by apply String.eqb_neq).
  destruct compare_companies as [|c0 cs0]; [done|]. cbn [negb orb].
  destruct (filter_then_ok d gender occupation benefit benefit_period waiting_period Hg Ho)
    as (F & HF & Hft).
  rewrite Hft. unfold baseline_points in Hzero. rewrite Hft in Hzero.
  pose proof (filtered_of_columns d F HF) as Hcols.
  assert (Forall (λ c, c ∈ columns F ∧ c ≠ "Age") (base_company :: c0 :: cs0)) as Hall'.
  { eapply Forall_impl; [exact Hall|]. intros c Hc. split.
    - rewrite Hcols. by apply company_columns_spec in Hc as [? _].
    - by apply (company_column_not_age (columns d)). }
  destruct (relative_tail_ok F base_company (c0 :: cs0)) as (ps & Hps & Hres).
  { by rewrite Hcols. }
  { by apply (filtered_of_col d F). }
  { done. }
  rewrite !getitem_col in Hzero.
  - cbn [rbind] in Hzero. rewrite Hzero in Hps. injection Hps as <-. exact Hres.
  - apply Forall_inv in Hall'. apply Hall'.
  - by rewrite Hcols.
Qed.

(** C6.  When a baseline is named and at least one compare company is
    given (the baseline and the compare companies being company columns of
    a table with its [Age], [Gender] and [Occupation] columns and numeric
    ages), the rows of the baseline open the frame returned, one per age of
    its series, each with the ratio [100.0] exactly; and for every row left
    by the filters that has an age and a numeric value of the baseline,
    the frame has a row of the baseline at that age with ratio [100.0]. *)
Theorem baseline_ratio_is_100 (h : list DataFrame) (df : loc) (d : DataFrame)
    (base_company : string) (compare_companies : list string)
    (gender occupation benefit : string)
    (benefit_period waiting_period : option string) :
  h !! df = Some d →
  "Age" ∈ columns d → "Gender" ∈ columns d → "Occupation" ∈ columns d →
  age_numeric d →
  base_company ≠ "" → compare_companies ≠ [] →
  Forall (λ c, c ∈ company_columns (columns d)) (base_company :: compare_companies) →
  ∃ ps res missing,
    baseline_points d base_company gender occupation benefit
      benefit_period waiting_period = inr ps
    ∧ (build_relative_trend parse_float mean df base_company compare_companies
         gender occupation benefit benefit_period waiting_period h).1
      = inr (res, missing, match ps with [] => true | _ => false end)
    ∧ (ps ≠ [] →
       ∃ rest, res = ratio_frame
                       (base_block base_company (groupby_mean mean ps) :: rest))
    ∧ (∀ i k m, ps ≠ [] → groupby_mean mean ps !! i = Some (k, m) →
         col res "Age" !! i = Some (CNum k)
         ∧ col res "Company" !! i = Some (CStr (remove_all " rates" base_company))
         ∧ col res "Ratio" !! i = Some (CNum 100%float))
    ∧ (∀ p, p ∈ ps →
         ∃ i k, (k =? p.1)%float = true
           ∧ col res "Age" !! i = Some (CNum k)
           ∧ col res "Company" !! i = Some (CStr (remove_all " rates" base_company))
           ∧ col res "Ratio" !! i = Some (CNum 100%float)).
Proof.
  intros Hd Ha Hg Ho Hnum Hbase Hcmp Hall.
  destruct (build_relative_trend_run h parse_float mean df d base_company
              compare_companies gender occupation benefit benefit_period
              waiting_period Hd) as [-> _].
  unfold relative_value, baseline_points.
  replace (truthy_str base_company) with true
    by (symmetry; unfold truthy_str; apply negb_true_iff; by apply String.eqb_neq).
  destruct compare_companies as [|c0 cs0]; [done|]. cbn [negb orb].
  destruct (filter_then_ok d gender occupation benefit benefit_period waiting_period Hg Ho)
    as (F & HF & Hft).
  rewrite !Hft.
  pose proof (filtered_of_columns d F HF) as Hcols.
  assert (Forall (λ c, c ∈ columns F ∧ c ≠ "Age") (base_company :: c0 :: cs0)) as Hall'.
  { eapply Forall_impl; [exact Hall|]. intros c Hc. split.
    - rewrite Hcols. by apply company_columns_spec in Hc as [? _].
    - by apply (company_column_not_age (columns d)). }
  destruct (relative_tail_ok F base_company (c0 :: cs0)) as (ps & Hps & Hres).
  { by rewrite Hcols. }
  { by apply (filtered_of_col d F). }
  { done. }
  rewrite !getitem_col; [|apply Forall_inv in Hall'; apply Hall'|by rewrite Hcols].
  cbn [rbind]. exists ps.
  destruct ps as [|p0 ps'].
  - exists [], (c0 :: cs0). split; [done|]. split; [done|].
    split; [done|]. split; [done|]. by intros p ?%elem_of_nil.
  - destruct Hres as (rest & missing & Hres).
    set (ps := p0 :: ps') in *.
    set (res := ratio_frame (base_block base_company (groupby_mean mean ps) :: rest)) in *.
    assert (∀ i k m, groupby_mean mean ps !! i = Some (k, m) →
              col res "Age" !! i = Some (CNum k)
              ∧ col res "Company" !! i = Some (CStr (remove_all " rates" base_company))
              ∧ col res "Ratio" !! i = Some (CNum 100%float)) as Hrows.
    { intros i k m Hi.
      assert (concat (base_block base_company (groupby_mean mean ps) :: rest) !! i
              = Some (k, base_company, 100%float)) as Hrow.
      { cbn [concat]. apply lookup_app_l_Some. unfold base_block.
        by rewrite list_lookup_fmap, Hi. }
      unfold res.
      destruct (col_ratio_frame (base_block base_company (groupby_mean mean ps) :: rest))
        as (-> & -> & ->).
      by rewrite !list_lookup_fmap, Hrow. }
    exists res, missing. split; [done|]. split; [done|].
    split; [by exists rest|]. split; [by intros i k m _; apply Hrows|].
    intros p Hp.
    destruct (groupby_mean_covers ps p) as (i & k & m & Hi & Hk); [by eapply points_keys|done|].
    exists i, k. split; [done|]. by eapply Hrows.
Qed.

End Relative.

(** C9.  The three queries are pure in the table they are given.  Run on any
    store [h] where [df] is a table with content [d], each of [build_lookup],
    [build_trend] and [build_relative_trend], for every choice of filters,
    leaves a store whose objects of [h] are all as they were (the store only
    grows: the frames changed in place are the ones the query made itself);
    in particular [df] still holds [d].  Running the same query again on the
    store left gives the same output. *)
Theorem queries_leave_table_unchanged (parse_float : string → float)
    (mean : list float → float) (h : list DataFrame) (df : loc) (d : DataFrame) :
  h !! df = Some d →
  (∀ age gender occupation benefit,
     let out := build_lookup df age gender occupation benefit h in
     out.2 !! df = Some d ∧ h `prefix_of` out.2
     ∧ (build_lookup df age gender occupation benefit out.2).1 = out.1)
  ∧ (∀ companies gender occupation benefit benefit_period waiting_period,
     let out := build_trend parse_float df companies gender occupation benefit
                  benefit_period waiting_period h in
     out.2 !! df = Some d ∧ h `prefix_of` out.2
     ∧ (build_trend parse_float df companies gender occupation benefit
          benefit_period waiting_period out.2).1 = out.1)
  ∧ (∀ base_company compare_companies gender occupation benefit
       benefit_period waiting_period,
     let out := build_relative_trend parse_float mean df base_company compare_companies
                  gender occupation benefit benefit_period waiting_period h in
     out.2 !! df = Some d ∧ h `prefix_of` out.2
     ∧ (build_relative_trend parse_float mean df base_company compare_companies
          gender occupation benefit benefit_period waiting_period out.2).1 = out.1).
Proof.
  intros Hd.
  assert (∀ A (prog : ES heap A) (v : result A),
            (∀ h0, h0 !! df = Some d → ends h0 (prog h0) v) →
            (prog h).2 !! df = Some d ∧ h `prefix_of` (prog h).2
            ∧ (prog (prog h).2).1 = (prog h).1) as Hpure.
  { intros A prog v Hrun. destruct (Hrun h Hd) as [Hv Hp].
    assert ((prog h).2 !! df = Some d) as Hd' by by eapply prefix_lookup_Some.
    split; [done|]. split; [done|].
    destruct (Hrun _ Hd') as [Hv' _]. congruence. }
  split; [|split].
  - intros age gender occupation benefit.
    apply (Hpure _ _ (lookup_value d age gender occupation benefit)).
    intros h0 Hd0. by apply build_lookup_run.
  - intros companies gender occupation benefit benefit_period waiting_period.
    apply (Hpure _ _ (trend_value parse_float d companies gender occupation benefit
                        benefit_period waiting_period)).
    intros h0 Hd0. by apply build_trend_run.
  - intros base_company compare_companies gender occupation benefit
      benefit_period waiting_period.
    apply (Hpure _ _ (relative_value parse_float mean d base_company compare_companies
                        gender occupation benefit benefit_period waiting_period)).
    intros h0 Hd0. by apply build_relative_trend_run.
Qed.

(** ** Instances *)

(** A mean by plain summation, and a reader of numbers that reads none:
    the properties above hold for every choice of the two. *)
Definition plain_mean (l : list float) : float :=
  let sn := foldl (λ sn x, ((sn.1 + x)%float, (sn.2 + 1)%float)) (0%float, 0%float) l in
  (sn.1 / sn.2)%float.

Definition reads_none : string → float := λ _, nan.

(** Acme has a rate at the ages 30 and 40, Beta at the age 40 only. *)
Definition rates : DataFrame :=
  [("Age", [CNum 30; CNum 40]);
   ("Gender", [CStr "F"; CStr "F"]);
   ("Occupation", [CStr "Clerk"; CStr "Clerk"]);
   ("BenefitType", [CStr "Death"; CStr "Death"]);
   ("Acme rates", [CNum 1.5; CNum 2]);
   ("Beta rates", [CNone; CNum 3])].

(** A table whose company column has [" rates"] inside its header. *)
Definition best : DataFrame :=
  [("Age", [CNum 30]);
   ("Gender", [CStr "F"]);
   ("Occupation", [CStr "Clerk"]);
   ("BenefitType", [CStr "Death"]);
   ("Best rates Co", [CNum 1.5])].

(** A table with no company column. *)
Definition no_company : DataFrame :=
  [("Age", [CNum 30]);
   ("Gender", [CStr "F"]);
   ("Occupation", [CStr "Clerk"]);
   ("BenefitType", [CStr "Death"])].

Ltac by_computing := apply (bool_decide_unpack _); vm_compute; exact I.

Example lookup_at_30 :
  (build_lookup 0 30 "F" "Clerk" "Death" [rates]).1
  = inr [("Company", [CStr "Acme"; CStr "Beta"]);
         ("Display", [CNum 1.5; CStr "no available"])].
Proof. vm_compute. reflexivity. Qed.

Example relative_trend_acme_beta :
  build_relative_trend reads_none plain_mean 0 "Acme rates" ["Beta rates"]
    "F" "Clerk" "Death" None None [rates]
  = (inr ([("Age", [CNum 30; CNum 40; CNum 40]);
           ("Company", [CStr "Acme"; CStr "Acme"; CStr "Beta"]);
           ("Ratio", [CNum 100; CNum 100; CNum 150])], [], false),
     [rates; rates; mask_rows [true; true] rates; mask_rows [true; true] rates;
      [("Age", [CNum 30; CNum 40]);
       ("Gender", [CStr "F"; CStr "F"]);
       ("Occupation", [CStr "Clerk"; CStr "Clerk"]);
       ("BenefitType", [CStr "Death"; CStr "Death"]);
       ("Acme rates", [CNum 1.5; CNum 2]);
       ("Beta rates", [CNum nan; CNum 3])]]).
Proof. vm_compute. reflexivity. Qed.

(** An assignment to a column of the table itself would be seen in the
    store: the store does tell a query that changes its input from one that
    does not. *)
Example setitem_changes_the_table :
  (df_setitem 0 "Age" [CNum 31; CNum 41] [rates]).2 !! 0 ≠ Some rates.
Proof. vm_compute. discriminate. Qed.

Lemma queries_leave_table_unchanged_witness :
  (build_relative_trend reads_none plain_mean 0 "Acme rates" ["Beta rates"]
     "F" "Clerk" "Death" None None [rates]).2 !! 0 = Some rates.
Proof.
  destruct (queries_leave_table_unchanged reads_none plain_mean [rates] 0 rates eq_refl)
    as (_ & _ & H).
  apply (H "Acme rates" ["Beta rates"] "F" "Clerk" "Death" None None).
Defined.

Lemma normalized_rates : normalized rates.
Proof.
  split; [exists 2; repeat constructor|].
  repeat split; by_computing.
Defined.

Lemma point_lookup_rows_witness :
  (build_lookup 0 40 "F" "Clerk" "Death" [rates]).1
  = inr [("Company", (λ comp, CStr (remove_all " rates" comp)) <$> ["Acme rates"; "Beta rates"]);
         ("Display", (λ comp, shown rates (match_mask rates 40 "F" "Clerk" "Death") comp)
                       <$> ["Acme rates"; "Beta rates"])].
Proof.
  apply (point_lookup_rows [rates] 0 rates 40 "F" "Clerk" "Death" eq_refl normalized_rates).
  vm_compute. discriminate.
Defined.

(** C8, the claim as stated fails.  The header [Best rates Co] does not end
    with [" rates"], so stripping that suffix leaves it whole, and the
    lookup shows the company as [Best Co]; and on a table with no company
    column the lookup returns no frame with zero rows but raises
    [KeyError]. *)
Lemma point_lookup_counterexample :
  (build_lookup 0 30 "F" "Clerk" "Death" [best]).1
  = inr [("Company", [CStr "Best Co"]); ("Display", [CNum 1.5])]
  ∧ strip_suffix " rates" "Best rates Co" = "Best rates Co"
  ∧ (build_lookup 0 30 "F" "Clerk" "Death" [no_company]).1 = inl (KeyError "Rate").
Proof. vm_compute. done. Qed.

Lemma age_numeric_rates : age_numeric rates.
Proof. unfold age_numeric. vm_compute. repeat constructor. Defined.

Lemma companies_of_rates :
  Forall (λ c, c ∈ company_columns (columns rates)) ["Acme rates"; "Beta rates"].
Proof. repeat constructor; by_computing. Defined.

Lemma baseline_missing_flag_witness :
  (build_relative_trend reads_none plain_mean 0 "Acme rates" ["Beta rates"]
     "M" "Clerk" "Death" None None [rates]).1
  = inr ([], ["Beta rates"], true).
Proof.
  apply (baseline_missing_flag reads_none plain_mean [rates] 0 rates
           "Acme rates" ["Beta rates"] "M" "Clerk" "Death" None None eq_refl).
  - by_computing.
  - by_computing.
  - by_computing.
  - exact age_numeric_rates.
  - discriminate.
  - discriminate.
  - exact companies_of_rates.
  - vm_compute. reflexivity.
Defined.

(** C7, the claim as stated fails.  No row of the table is for gender [M],
    so the baseline has no matching row; with no compare company given the
    query returns the flag [baseline_missing] false. *)
Lemma baseline_missing_counterexample :
  baseline_points reads_none rates "Acme rates" "M" "Clerk" "Death" None None = inr []
  ∧ (build_relative_trend reads_none plain_mean 0 "Acme rates" []
       "M" "Clerk" "Death" None None [rates]).1
    = inr ([], [], false).
Proof. vm_compute. done. Qed.

Lemma baseline_ratio_is_100_witness :
  ∃ ps res missing,
    baseline_points reads_none rates "Acme rates" "F" "Clerk" "Death" None None = inr ps
    ∧ (build_relative_trend reads_none plain_mean 0 "Acme rates" ["Beta rates"]
         "F" "Clerk" "Death" None None [rates]).1
      = inr (res, missing, match ps with [] => true | _ => false end)
    ∧ (∀ p, p ∈ ps →
         ∃ i k, (k =? p.1)%float = true
           ∧ col res "Age" !! i = Some (CNum k)
           ∧ col res "Company" !! i = Some (CStr (remove_all " rates" "Acme rates"))
           ∧ col res "Ratio" !! i = Some (CNum 100%float)).
Proof.
  destruct (baseline_ratio_is_100 reads_none plain_mean [rates] 0 rates
              "Acme rates" ["Beta rates"] "F" "Clerk" "Death" None None eq_refl)
    as (ps & res & missing & H1 & H2 & _ & _ & H3).
  - by_computing.
  - by_computing.
  - by_computing.
  - exact age_numeric_rates.
  - discriminate.
  - discriminate.
  - exact companies_of_rates.
  - by exists ps, res, missing.
Defined.

End VizAppSpec.

(* ===================================================================== *)
(** * More on transfer.py: the loops of a PDF and the file written *)
(* ===================================================================== *)

Module TransferExtra.
Import Transfer TransferSpec.

(** The preview of a table: its first 6 rows, cut to their first 8 cells. *)
Definition preview_of (tbl : Table) : Table := map (take 8) (take 6 tbl).

(** A request whose preview has at most 6 rows of at most 8 cells. *)
Definition small_preview (req : Request) : Prop :=
  length (table_preview (req_user req)) ≤ 6
  ∧ Forall (λ r : Row, length r ≤ 8) (table_preview (req_user req)).

Definition is_warning (l : line) : Prop := ∃ p t e, l = Warn p t e.

(** The tables of a list of pages, in the order in which they are met. *)
Definition tables_of (pages : list Page) : list Table :=
  concat (extract_tables <$> pages).

Lemma preview_of_small (tbl : Table) :
  length (preview_of tbl) ≤ 6 ∧ Forall (λ r : Row, length r ≤ 8) (preview_of tbl).
Proof.
  unfold preview_of. split.
  - rewrite length_map, length_take. lia.
  - apply Forall_forall. intros r Hr.
    apply list_elem_of_In, in_map_iff in Hr as (r0 & <- & _).
    rewrite length_take. lia.
Qed.

Section Loops.

Variable prompt : string.
Variable remote : nat → Request → result (option string).
Variable json_loads : string → result pyval.

Abbreviation classify := (classify_table_with_model prompt remote json_loads).
Abbreviation process_table := (Transfer.process_table prompt remote json_loads).
Abbreviation for_tables := (Transfer.for_tables prompt remote json_loads).
Abbreviation for_pages := (Transfer.for_pages prompt remote json_loads).
Abbreviation process_single_pdf := (Transfer.process_single_pdf prompt remote json_loads).
Abbreviation process_all_pdfs := (Transfer.process_all_pdfs prompt remote json_loads).

(** What a classification does to the world: nothing, or one request. *)
Lemma classify_world page_index page_text preview model w :
  let out := classify page_index page_text preview model w in
  out.2 = w
  ∨ out.2 = with_call w (request_of prompt model page_index page_text preview).
Proof.
  intros out. unfold out. rewrite classify_unfold.
  destruct (_ || _); [by left|].
  destruct (sum_numeric 0 preview) as [e|n]; [by left|].
  destruct (n <? 2); [by left|]. by right.
Qed.

(** What the body of the loop does for one table. *)
Definition step_outcome (model : string) (page_idx : nat) (page_text : string)
    (t_idx : nat) (tbl : Table) (rate_tables : list RateTable) (w : world)
    (out : result (list RateTable) * world) : Prop :=
  files out.2 = files w
  ∧ (calls out.2 = calls w
     ∨ tbl ≠ [] ∧ calls out.2
                  = calls w ++ [request_of prompt model page_idx (Some page_text)
                                  (preview_of tbl)])
  ∧ (stdout out.2 = stdout w
     ∨ tbl ≠ [] ∧ ∃ e, stdout out.2 = stdout w ++ [Warn (page_idx + 1) (t_idx + 1) e])
  ∧ (∀ rate_tables', out.1 = inr rate_tables' →
       rate_tables' = rate_tables
       ∨ ∃ title, title ≠ "" ∧ tbl ≠ []
                  ∧ rate_tables' = rate_tables ++ [mkRateTable title tbl])
  ∧ (∀ e, out.1 = inl e → exn_class e = "AttributeError").

Lemma py_get_raises (cls : pyval) (k : string) (e : exn) :
  py_get cls k = inl e → exn_class e = "AttributeError".
Proof. destruct cls; simpl; by intros [= <-]. Qed.

Lemma py_strip_raises (v : pyval) (e : exn) :
  py_strip v = inl e → exn_class e = "AttributeError".
Proof. destruct v; simpl; by intros [= <-]. Qed.

Lemma fallback_title_nonempty (page_idx t_idx : nat) : fallback_title page_idx t_idx ≠ "".
Proof. done. Qed.

Lemma truthy_str_nonempty (s : string) : truthy_str s = true → s ≠ "".
Proof. intros H ->. done. Qed.

Lemma process_table_outcome model page_idx page_text t_idx tbl rate_tables w :
  step_outcome model page_idx page_text t_idx tbl rate_tables w
    (process_table model page_idx page_text t_idx tbl rate_tables w).
Proof.
  remember (process_table model page_idx page_text t_idx tbl rate_tables w) as out eqn:Hout.
  unfold Transfer.process_table in Hout.
  destruct tbl as [|r0 tbl0].
  { subst out. unfold step_outcome. simpl. split; [done|]. split; [by left|].
    split; [by left|]. split; [|done]. intros rt' [= <-]. by left. }
  cbv iota in Hout.
  change (map (take 8) (take 6 (r0 :: tbl0))) with (preview_of (r0 :: tbl0)) in Hout.
  assert (r0 :: tbl0 ≠ []) as Hne by done.
  revert Hout Hne. generalize (r0 :: tbl0). intros tbl Hout Hne.
  unfold bind at 1 in Hout. unfold try_except in Hout. unfold bind at 1 in Hout.
  pose proof (classify_world page_idx (Some page_text) (preview_of tbl) model w) as Hw.
  destruct (classify page_idx (Some page_text) (preview_of tbl) model w) as [[e|cls] w1].
  - (* the classification raised: a warning, and the next table *)
    simpl in Hw. simpl in Hout. subst out. unfold step_outcome. simpl.
    split; [by destruct Hw as [->| ->]|].
    split; [destruct Hw as [->| ->]; simpl; auto|].
    split; [right; split; [done|]; exists e; by destruct Hw as [->| ->]|].
    split; [|done]. intros rt' [= <-]. by left.
  - simpl in Hw. unfold ret at 1 in Hout. cbv beta iota in Hout.
    assert (∀ r : result (list RateTable),
              (∀ rt', r = inr rt' →
                 rt' = rate_tables
                 ∨ ∃ title, title ≠ "" ∧ rt' = rate_tables ++ [mkRateTable title tbl]) →
              (∀ e, r = inl e → exn_class e = "AttributeError") →
              step_outcome model page_idx page_text t_idx tbl rate_tables w (r, w1))
      as Hfin.
    { intros r Hr He. unfold step_outcome. simpl.
      split; [by destruct Hw as [->| ->]|].
      split; [destruct Hw as [->| ->]; simpl; auto|].
      split; [left; by destruct Hw as [->| ->]|].
      split; [|done].
      intros rt' Hrt. destruct (Hr rt' Hrt) as [?|(title & ? & ?)]; [by left|].
      right. by exists title. }
    unfold bind at 1 in Hout. unfold lift at 1 in Hout.
    destruct (py_get cls "is_rate_table") as [e|is_rate] eqn:H1.
    { subst out. apply Hfin; [done|]. intros e' [= <-]. by eapply py_get_raises. }
    destruct (negb (truthy is_rate));
      [subst out; apply Hfin; [intros rt' [= <-]; by left|done]|].
    unfold bind at 1 in Hout. unfold lift at 1 in Hout.
    destruct (py_get cls "sheet_title") as [e|title] eqn:H2.
    { subst out. apply Hfin; [done|]. intros e' [= <-]. by eapply py_get_raises. }
    unfold bind at 1 in Hout. unfold lift at 1 in Hout.
    destruct (py_strip _) as [e|stripped] eqn:H3.
    { subst out. apply Hfin; [done|]. intros e' [= <-]. by eapply py_strip_raises. }
    subst out. apply Hfin; [|done]. intros rt' [= <-]. right. eexists. split; [|done].
    destruct (truthy_str stripped) eqn:Hs'; [by apply truthy_str_nonempty|done].
Qed.

(** The tables that have a row. *)
Definition with_rows (tables : list Table) : list Table :=
  List.filter (λ t : Table, negb (bool_decide (t = []))) tables.

(** What a loop over [tables] does: no file is written; requests are added
    to the trace, at most one per table that has a row, each with a small
    preview; lines are added to the output, all of them warnings, at most one
    per table that has a row; and when the loop ends normally, tables are added to the
    accepted ones, each with a title and with rows, their data a
    subsequence of [tables]. *)
Definition loop_outcome (tables : list Table) (rate_tables : list RateTable)
    (w : world) (out : result (list RateTable) * world) : Prop :=
  files out.2 = files w
  ∧ (∃ reqs, calls out.2 = calls w ++ reqs
             ∧ length reqs ≤ length (with_rows tables)
             ∧ Forall small_preview reqs)
  ∧ (∃ warns, stdout out.2 = stdout w ++ warns
              ∧ Forall is_warning warns ∧ length warns ≤ length (with_rows tables))
  ∧ (∀ rate_tables', out.1 = inr rate_tables' →
       ∃ new, rate_tables' = rate_tables ++ new
              ∧ Forall (λ t, sheet_title t ≠ "" ∧ data t ≠ []) new
              ∧ data <$> new `sublist_of` tables)
  ∧ (∀ e, out.1 = inl e → exn_class e = "AttributeError").

Lemma loop_outcome_nil rate_tables w : loop_outcome [] rate_tables w (inr rate_tables, w).
Proof.
  split; [done|]. split; [exists []; by rewrite app_nil_r|].
  split; [exists []; by rewrite app_nil_r|]. split; [|done].
  intros rt' [= <-]. exists []. by rewrite app_nil_r.
Qed.

Lemma step_is_loop model page_idx page_text t_idx tbl rate_tables w out :
  step_outcome model page_idx page_text t_idx tbl rate_tables w out →
  loop_outcome [tbl] rate_tables w out.
Proof.
  intros (Hf & Hc & Hs & Hr & He). split; [done|]. split; [|split; [|split; [|done]]].
  - destruct Hc as [->|[Hne ->]]; [exists []; rewrite app_nil_r; simpl; split; [done|split; [lia|done]]|].
    eexists. split; [done|]. split.
    + unfold with_rows. simpl. rewrite bool_decide_eq_false_2 by done. simpl. lia.
    + constructor; [|done]. apply preview_of_small.
  - destruct Hs as [->|[Hne [e ->]]]; [exists []; rewrite app_nil_r; simpl; split; [done|split; [done|lia]]|].
    eexists. split; [done|]. split.
    + constructor; [|done]. by eexists _, _, _.
    + unfold with_rows. simpl. rewrite bool_decide_eq_false_2 by done. simpl. lia.
  - intros rt' Hrt. destruct (Hr rt' Hrt) as [->|(title & Ht & Hne & ->)].
    + exists []. rewrite app_nil_r. split; [done|]. split; [done|]. apply sublist_nil_l.
    + eexists. split; [done|]. split; [by repeat constructor|]. done.
Qed.

(** A loop that raised, followed by nothing. *)
Lemma loop_outcome_raise ts1 ts2 rate_tables w e w1 :
  loop_outcome ts1 rate_tables w (inl e, w1) →
  loop_outcome (ts1 ++ ts2) rate_tables w (inl e, w1).
Proof.
  intros (Hf & (reqs & Hc & Hn & Hp) & (warns & Hs & Hw & Hm) & _ & He).
  split; [done|]. split; [|split; [|done]].
  - exists reqs. split; [done|]. split; [|done].
    unfold with_rows in *. rewrite List.filter_app, length_app. lia.
  - exists warns. split; [done|]. split; [done|].
    unfold with_rows in *. rewrite List.filter_app, length_app. lia.
Qed.

(** A loop that ended, followed by another. *)
Lemma loop_outcome_app ts1 ts2 rate_tables w rate_tables1 w1 out :
  loop_outcome ts1 rate_tables w (inr rate_tables1, w1) →
  loop_outcome ts2 rate_tables1 w1 out →
  loop_outcome (ts1 ++ ts2) rate_tables w out.
Proof.
  intros (Hf & (reqs & Hc & Hn & Hp) & (warns & Hs & Hw & Hm) & Hr & _)
         (Hf' & (reqs' & Hc' & Hn' & Hp') & (warns' & Hs' & Hw' & Hm') & Hr' & He').
  simpl in *. destruct (Hr _ eq_refl) as (new & -> & Hnew & Hsub).
  split; [congruence|]. split; [|split; [|split; [|done]]].
  - exists (reqs ++ reqs'). split; [by rewrite Hc', Hc, app_assoc|]. split.
    + unfold with_rows in *. rewrite List.filter_app, !length_app. lia.
    + by apply Forall_app.
  - exists (warns ++ warns'). split; [by rewrite Hs', Hs, app_assoc|]. split.
    + by apply Forall_app.
    + unfold with_rows in *. rewrite List.filter_app, !length_app. lia.
  - intros rt' Hrt. destruct (Hr' rt' Hrt) as (new' & -> & Hnew' & Hsub').
    exists (new ++ new'). split; [by rewrite app_assoc|]. split.
    + by apply Forall_app.
    + rewrite fmap_app. by apply sublist_app.
Qed.

Lemma for_tables_outcome model page_idx page_text tables :
  ∀ t_idx rate_tables w,
    loop_outcome tables rate_tables w
      (for_tables model page_idx page_text t_idx tables rate_tables w).
Proof.
  induction tables as [|tbl rest IH]; intros t_idx rate_tables w.
  - apply loop_outcome_nil.
  - cbn [Transfer.for_tables]. unfold bind.
    pose proof (process_table_outcome model page_idx page_text t_idx tbl rate_tables w)
      as Hstep%step_is_loop.
    destruct (process_table model page_idx page_text t_idx tbl rate_tables w)
      as [[e|rt1] w1].
    + by apply (loop_outcome_raise [tbl] rest).
    + by apply (loop_outcome_app [tbl] rest _ _ rt1 w1).
Qed.

Lemma for_pages_outcome model pages :
  ∀ page_idx rate_tables w,
    loop_outcome (tables_of pages) rate_tables w
      (for_pages model page_idx pages rate_tables w).
Proof.
  induction pages as [|page rest IH]; intros page_idx rate_tables w.
  - apply loop_outcome_nil.
  - cbn [Transfer.for_pages]. unfold bind.
    unfold tables_of. rewrite fmap_cons. cbn [concat].
    match goal with
    | |- context [Transfer.for_tables _ _ _ ?m ?p ?t 0 ?ts ?rt ?w0] =>
        pose proof (for_tables_outcome m p t ts 0 rt w0) as Hpage;
        destruct (Transfer.for_tables prompt remote json_loads m p t 0 ts rt w0)
          as [[e|rt1] w1]
    end.
    + by apply loop_outcome_raise.
    + eapply loop_outcome_app; [exact Hpage|apply IH].
Qed.

(** ** One PDF *)

(** The path of the Excel file of a PDF. *)
Definition out_path_of (pdf : Pdf) : string :=
  OUTPUT_DIR +:+ "/" +:+ pdf_stem pdf +:+ "_rates.xlsx".

Definition with_file (w : world) (path : string) (wb : Workbook) : world :=
  mkWorld (calls w) (stdout w) (files w ++ [(path, wb)]).

Lemma take_str_nonempty (n : nat) (s : string) : s ≠ "" → take_str (S n) s ≠ "".
Proof. by destruct s. Qed.

Lemma candidate_nonempty (base_name : string) (k : nat) : candidate base_name k ≠ "".
Proof.
  intros H. apply (f_equal len) in H. unfold candidate in H.
  rewrite !len_app in H. unfold len in H. simpl in H. lia.
Qed.

Lemma named_after_nonempty (bound : nat) (tbl : RateTable) (name : string) :
  sheet_title tbl ≠ "" → named_after bound tbl name → name ≠ "".
Proof.
  intros Ht [->|(k & _ & ->)]; [by apply take_str_nonempty|apply candidate_nonempty].
Qed.

Lemma process_single_pdf_unfold (pdf : Pdf) (model : string) (w : world) :
  process_single_pdf pdf model w
  = match for_pages model 0 (pdf_pages pdf) [] (with_line w (Processing (pdf_name pdf))) with
    | (inl e, w1) => (inl e, w1)
    | (inr [], w1) => (inr tt, with_line w1 Skipping)
    | (inr rate_tables, w1) =>
      match write_sheets ∅ rate_tables with
      | Some sheets =>
        (inr tt, with_line (with_file w1 (out_path_of pdf) sheets)
                   (Generated (out_path_of pdf)))
      | None => (inl Diverges, w1)
      end
    end.
Proof.
  unfold Transfer.process_single_pdf, bind, print, with_line. cbv beta iota.
  destruct (for_pages model 0 (pdf_pages pdf) [] _) as [[e|[|t rt]] w1]; try reflexivity.
  destruct (write_sheets ∅ (t :: rt)); reflexivity.
Qed.

(** What a run on one PDF comes to: the loop over its pages, then nothing
    more when the loop raised, the line [Skipping] when no table was
    accepted, and else the file of the accepted tables and the line that
    names it.  The loop that names the sheets always ends. *)
Lemma pdf_outcome (pdf : Pdf) (model : string) (w : world) :
  ∃ r1 w1,
    loop_outcome (tables_of (pdf_pages pdf)) [] (with_line w (Processing (pdf_name pdf)))
      (r1, w1)
    ∧ match r1 with
      | inl e => process_single_pdf pdf model w = (inl e, w1)
      | inr [] => process_single_pdf pdf model w = (inr tt, with_line w1 Skipping)
      | inr rate_tables =>
        ∃ sheets,
          write_sheets ∅ rate_tables = Some sheets
          ∧ process_single_pdf pdf model w
            = (inr tt, with_line (with_file w1 (out_path_of pdf) sheets)
                         (Generated (out_path_of pdf)))
      end.
Proof.
  rewrite process_single_pdf_unfold.
  pose proof (for_pages_outcome model (pdf_pages pdf) 0 []
                (with_line w (Processing (pdf_name pdf)))) as Hloop.
  destruct (for_pages model 0 (pdf_pages pdf) [] (with_line w (Processing (pdf_name pdf))))
    as [[e|rt] w1].
  - by exists (inl e), w1.
  - exists (inr rt), w1. split; [done|].
    destruct rt as [|t rt]; [done|].
    destruct (write_sheets_spec (t :: rt) ∅) as (sheets & Hws & _).
    exists sheets. split; [done|]. by rewrite Hws.
Qed.

(** X1.  For every PDF, whatever the remote service and the parser do, the
    requests sent by [process_single_pdf] are at most one per extracted
    table that has a row, and each carries a preview of at most 6 rows of
    at most 8 cells. *)
Theorem pdf_requests_are_bounded (pdf : Pdf) (model : string) (w : world) :
  ∃ reqs,
    calls (process_single_pdf pdf model w).2 = calls w ++ reqs
    ∧ length reqs ≤ length (with_rows (tables_of (pdf_pages pdf)))
    ∧ Forall small_preview reqs.
Proof.
  destruct (pdf_outcome pdf model w) as (r1 & w1 & Hloop & Hout).
  destruct Hloop as (_ & (reqs & Hc & Hn & Hp) & _). simpl in Hc.
  exists reqs. split; [|done].
  destruct r1 as [e|[|t rt]]; [by rewrite Hout..|].
  destruct Hout as (sheets & _ & ->). done.
Qed.




(** ** What is done with an answer *)

(** What [process_table] does with the parsed answer [cls] for the table
    [tbl]. *)
Definition after_answer (page_idx t_idx : nat) (tbl : Table)
    (rate_tables : list RateTable) (cls : pyval) : result (list RateTable) :=
  match py_get cls "is_rate_table" with
  | inl e => inl e
  | inr is_rate =>
    if negb (truthy is_rate) then inr rate_tables else
    match py_get cls "sheet_title" with
    | inl e => inl e
    | inr title =>
      match py_strip (if truthy title then title
                      else PStr (fallback_title page_idx t_idx)) with
      | inl e => inl e
      | inr stripped =>
        inr (rate_tables
             ++ [mkRateTable (if truthy_str stripped then stripped
                              else fallback_title page_idx t_idx) tbl])
      end
    end
  end.

(** A table whose preview passes both gates and whose request is answered
    by a text that parses. *)
Lemma process_table_answered model page_idx page_text t_idx tbl rate_tables w raw cls :
  tbl ≠ [] →
  4 ≤ length (preview_of tbl) → 4 ≤ width (preview_of tbl) →
  Forall (λ r, r ≠ []) (preview_of tbl) → 2 ≤ numeric_rows (preview_of tbl) →
  remote (length (calls w))
    (request_of prompt model page_idx (Some page_text) (preview_of tbl)) = inr raw →
  loads json_loads raw = inr cls →
  process_table model page_idx page_text t_idx tbl rate_tables w
  = (after_answer page_idx t_idx tbl rate_tables cls,
     with_call w (request_of prompt model page_idx (Some page_text) (preview_of tbl))).
Proof.
  intros Htbl Hr Hc Hne Hn Hraw Hcls. unfold Transfer.process_table.
  destruct tbl as [|r0 tbl0]; [done|].
  change (map (take 8) (take 6 (r0 :: tbl0))) with (preview_of (r0 :: tbl0)).
  revert Hr Hc Hne Hn Hraw. generalize (preview_of (r0 :: tbl0)). intros pv Hr Hc Hne Hn Hraw.
  unfold bind at 1. unfold try_except. unfold bind at 1.
  rewrite classify_passes by done. unfold decide_remotely.
  rewrite Hraw, Hcls. unfold ret at 1. cbv beta iota.
  unfold after_answer, bind, lift, ret.
  destruct (py_get cls "is_rate_table") as [e|is_rate]; [done|].
  destruct (negb (truthy is_rate)); [done|].
  destruct (py_get cls "sheet_title") as [e|title]; [done|].
  by destruct (py_strip _).
Qed.

(** *** A string that loses nothing by [strip] *)

Lemma app_assoc_str (a b c : string) : (a +:+ b) +:+ c = a +:+ (b +:+ c).
Proof. induction a as [|x a IH]; [done|]. rewrite !app_cons. by rewrite IH. Qed.

Lemma rev_app_acc (s acc : string) : String.rev_app s acc = String.rev s +:+ acc.
Proof.
  unfold String.rev. revert acc. induction s as [|x s IH]; intros acc; [done|].
  simpl. rewrite (IH (String x acc)), (IH (String x "")).
  by rewrite app_assoc_str.
Qed.

Lemma rev_cons (x : ascii) (s : string) : String.rev (String x s) = String.rev s +:+ String x "".
Proof. unfold String.rev at 1. simpl. apply rev_app_acc. Qed.

Lemma app_empty_r (s : string) : s +:+ "" = s.
Proof. induction s as [|x s IH]; [done|]. by rewrite app_cons, IH. Qed.

Lemma rev_app_str (a b : string) : String.rev (a +:+ b) = String.rev b +:+ String.rev a.
Proof.
  induction a as [|x a IH].
  - by rewrite app_empty, app_empty_r.
  - by rewrite app_cons, !rev_cons, IH, app_assoc_str.
Qed.

Lemma rev_rev (s : string) : String.rev (String.rev s) = s.
Proof.
  induction s as [|x s IH]; [done|].
  by rewrite rev_cons, rev_app_str, IH.
Qed.

Lemma str_any_rev (p : ascii → bool) (s : string) : str_any p (String.rev s) = str_any p s.
Proof.
  induction s as [|x s IH]; [done|].
  rewrite rev_cons, str_any_app, IH. simpl. by rewrite orb_false_r, orb_comm.
Qed.

(** A string with a first and a last character that are no spaces. *)
Definition trimmed (s : string) : Prop := lstrip s = s ∧ lstrip (String.rev s) = String.rev s.

Lemma strip_trimmed (s : string) : trimmed s → strip s = s.
Proof. intros [H1 H2]. unfold strip. by rewrite H1, H2, rev_rev. Qed.

Lemma lstrip_no_space (s t : string) :
  s ≠ "" → str_any isspace s = false → lstrip (s +:+ t) = s +:+ t.
Proof.
  destruct s as [|x s]; [done|]. intros _ H. rewrite app_cons. simpl in *.
  apply orb_false_iff in H as [-> _]. done.
Qed.

Lemma pretty_N_char_no_space (x : N) : isspace (pretty_N_char x) = false.
Proof. unfold pretty_N_char. by repeat case_match. Qed.

Lemma pretty_N_go_no_space (x : N) (s : string) :
  str_any isspace s = false → str_any isspace (pretty_N_go x s) = false.
Proof.
  revert s. induction (N.lt_wf_0 x) as [x _ IH]; intros s Hs.
  destruct (decide (x = 0%N)) as [->|Hx]; [by rewrite pretty_N_go_0|].
  rewrite pretty_N_go_step by lia. apply IH.
  - apply N.div_lt; lia.
  - cbn [str_any]. by rewrite pretty_N_char_no_space.
Qed.

Lemma pretty_N_go_nonempty (x : N) (s : string) : s ≠ "" → pretty_N_go x s ≠ "".
Proof.
  revert s. induction (N.lt_wf_0 x) as [x _ IH]; intros s Hs.
  destruct (decide (x = 0%N)) as [->|Hx]; [by rewrite pretty_N_go_0|].
  rewrite pretty_N_go_step by lia. apply IH; [apply N.div_lt; lia|done].
Qed.

Lemma str_nat_no_space (n : nat) : str_any isspace (str_nat n) = false.
Proof.
  unfold str_nat, pretty, pretty_nat, pretty, pretty_N.
  case_decide; [done|]. by apply pretty_N_go_no_space.
Qed.

Lemma str_nat_nonempty (n : nat) : str_nat n ≠ "".
Proof.
  unfold str_nat, pretty, pretty_nat, pretty, pretty_N.
  case_decide as Hn; [done|].
  rewrite pretty_N_go_step by lia. by apply pretty_N_go_nonempty.
Qed.

Lemma rev_nonempty (s : string) : s ≠ "" → String.rev s ≠ "".
Proof. intros Hs Hr. apply Hs. by rewrite <- (rev_rev s), Hr. Qed.

Lemma fallback_title_trimmed (page_idx t_idx : nat) : trimmed (fallback_title page_idx t_idx).
Proof.
  unfold fallback_title. split; [done|].
  rewrite <- !app_assoc_str, rev_app_str.
  apply lstrip_no_space.
  - apply rev_nonempty, str_nat_nonempty.
  - rewrite str_any_rev. apply str_nat_no_space.
Qed.

(** The table [tbl] is put to the remote service, which answers by a text
    that parses to [cls]. *)
Definition answered (model : string) (page_idx : nat) (page_text : string)
    (tbl : Table) (w : world) (cls : pyval) : Prop :=
  tbl ≠ []
  ∧ 4 ≤ length (preview_of tbl) ∧ 4 ≤ width (preview_of tbl)
  ∧ Forall (λ r, r ≠ []) (preview_of tbl) ∧ 2 ≤ numeric_rows (preview_of tbl)
  ∧ ∃ raw, remote (length (calls w))
             (request_of prompt model page_idx (Some page_text) (preview_of tbl)) = inr raw
           ∧ loads json_loads raw = inr cls.

Lemma for_tables_answered model page_idx page_text t_idx tbl rest rate_tables w cls :
  answered model page_idx page_text tbl w cls →
  for_tables model page_idx page_text t_idx (tbl :: rest) rate_tables w
  = match after_answer page_idx t_idx tbl rate_tables cls with
    | inl e =>
      (inl e, with_call w (request_of prompt model page_idx (Some page_text) (preview_of tbl)))
    | inr rate_tables' =>
      for_tables model page_idx page_text (S t_idx) rest rate_tables'
        (with_call w (request_of prompt model page_idx (Some page_text) (preview_of tbl)))
    end.
Proof.
  intros (Htbl & Hr & Hc & Hne & Hn & raw & Hraw & Hcls).
  cbn [Transfer.for_tables]. unfold bind.
  rewrite (process_table_answered _ _ _ _ _ _ _ raw cls) by done.
  by destruct (after_answer _ _ _ _ _).
Qed.

(** The title given to an accepted table: the title of the answer without
    the blanks around it, or ["Rates page p table t"] (counted from 1) when
    that leaves nothing. *)
Definition chosen_title (page_idx t_idx : nat) (title : pyval) : string :=
  match title with
  | PStr s => if truthy_str (strip s) then strip s else fallback_title page_idx t_idx
  | _ => fallback_title page_idx t_idx
  end.

(** X5.  An answer that parses, but to a JSON value that is no object (a
    list, a string, a number, [null]...), is fatal to the run on the PDF:
    [AttributeError] leaves the loop, no warning is printed and the tables
    that follow are not looked at. *)
Theorem non_object_answer_is_fatal model page_idx page_text t_idx tbl rest rate_tables w cls :
  answered model page_idx page_text tbl w cls →
  (∀ d, cls ≠ PDict d) →
  for_tables model page_idx page_text t_idx (tbl :: rest) rate_tables w
  = (inl (AttributeError "object has no attribute 'get'"),
     with_call w (request_of prompt model page_idx (Some page_text) (preview_of tbl))).
Proof.
  intros Hans Hcls. rewrite (for_tables_answered _ _ _ _ _ _ _ _ cls Hans).
  unfold after_answer. destruct cls; try done. by destruct (Hcls d).
Qed.

(** X6.  An answer that is an object whose [is_rate_table] is false, or
    any other value Python takes for false, or is not there, rejects the
    table without a word: the accepted tables and the lines printed are the
    ones before, and the loop goes on with the next table. *)
Theorem rejected_answer_skips_table model page_idx page_text t_idx tbl rest rate_tables w d :
  answered model page_idx page_text tbl w (PDict d) →
  truthy (default PNone (assoc "is_rate_table" d)) = false →
  for_tables model page_idx page_text t_idx (tbl :: rest) rate_tables w
  = for_tables model page_idx page_text (S t_idx) rest rate_tables
      (with_call w (request_of prompt model page_idx (Some page_text) (preview_of tbl))).
Proof.
  intros Hans Hrej. rewrite (for_tables_answered _ _ _ _ _ _ _ _ (PDict d) Hans).
  unfold after_answer. simpl. by rewrite Hrej.
Qed.

(** X7.  An answer that is an object whose [is_rate_table] is true, with a
    [sheet_title] that is a string or a value Python takes for false (or
    not there), accepts the table: the table, in full, is added last to the
    accepted ones under the title of the answer without the blanks around
    it, or under ["Rates page p table t"] when that title is empty, blank
    or not given. *)
Theorem accepted_answer_title model page_idx page_text t_idx tbl rest rate_tables w d :
  answered model page_idx page_text tbl w (PDict d) →
  truthy (default PNone (assoc "is_rate_table" d)) = true →
  (truthy (default PNone (assoc "sheet_title" d)) = false
   ∨ ∃ s, default PNone (assoc "sheet_title" d) = PStr s) →
  for_tables model page_idx page_text t_idx (tbl :: rest) rate_tables w
  = for_tables model page_idx page_text (S t_idx) rest
      (rate_tables
       ++ [mkRateTable (chosen_title page_idx t_idx (default PNone (assoc "sheet_title" d)))
             tbl])
      (with_call w (request_of prompt model page_idx (Some page_text) (preview_of tbl))).
Proof.
  intros Hans Hacc Htitle. rewrite (for_tables_answered _ _ _ _ _ _ _ _ (PDict d) Hans).
  unfold after_answer. simpl. rewrite Hacc. simpl.
  assert (truthy_str (fallback_title page_idx t_idx) = true) as Hfb
    by (unfold truthy_str; apply negb_true_iff, String.eqb_neq, fallback_title_nonempty).
  set (title := default PNone (assoc "sheet_title" d)) in *.
  destruct (truthy title) eqn:Ht.
  - destruct Htitle as [?|[s Hs]]; [done|]. by rewrite Hs.
  - simpl. rewrite (strip_trimmed _ (fallback_title_trimmed page_idx t_idx)), Hfb.
    do 3 f_equal. unfold chosen_title. destruct title as [| | | |s| |]; try done.
    simpl in Ht. unfold truthy_str in Ht. apply negb_false_iff, String.eqb_eq in Ht.
    by subst s.
Qed.

(** ** Tables that are not put to the remote service *)

(** X19.  A table that has a row and whose preview fails a local gate
    (fewer than 4 rows, no row of 4 cells, or fewer than 2 numeric rows
    among rows that all have a cell) is skipped without a trace: no request
    is sent, no line is printed, and the loop goes on with the next table
    and the same accepted tables.  Only the first 6 rows and the first 8
    cells of each are looked at. *)
Theorem locally_rejected_table_is_skipped model page_idx page_text t_idx tbl rest
    rate_tables w :
  tbl ≠ [] →
  length (preview_of tbl) < 4 ∨ width (preview_of tbl) < 4
  ∨ (Forall (λ r, r ≠ []) (preview_of tbl) ∧ numeric_rows (preview_of tbl) < 2) →
  for_tables model page_idx page_text t_idx (tbl :: rest) rate_tables w
  = for_tables model page_idx page_text (S t_idx) rest rate_tables w.
Proof.
  intros Htbl Hgate. cbn [Transfer.for_tables]. unfold bind at 1.
  unfold Transfer.process_table. fold (preview_of tbl).
  generalize dependent (preview_of tbl). intros preview Hgate.
  destruct tbl as [|r0 tbl0]; [done|].
  unfold bind at 1. unfold try_except. unfold bind at 1.
  rewrite classify_unfold.
  destruct ((length preview <? 4) || (width preview <? 4)) eqn:Hs; [reflexivity|].
  apply orb_false_iff in Hs as [Hr%Nat.ltb_ge Hc%Nat.ltb_ge].
  destruct Hgate as [?|[?|[Hne Hn]]]; [lia|lia|].
  rewrite sum_numeric_nonempty by done. cbn [Nat.add].
  replace (numeric_rows preview <? 2) with true by (symmetry; apply Nat.ltb_lt; lia).
  reflexivity.
Qed.

(** X20.  A table whose preview passes the structural gate and has a row
    without a cell is reported as a failed classification although no
    request is sent: the [ZeroDivisionError] of the numeric gate is caught
    in [process_single_pdf], which prints its warning and goes on with the
    next table. *)
Theorem zero_length_row_is_logged model page_idx page_text t_idx tbl rest rate_tables w :
  tbl ≠ [] →
  4 ≤ length (preview_of tbl) → 4 ≤ width (preview_of tbl) → [] ∈ preview_of tbl →
  for_tables model page_idx page_text t_idx (tbl :: rest) rate_tables w
  = for_tables model page_idx page_text (S t_idx) rest rate_tables
      (with_line w (Warn (page_idx + 1) (t_idx + 1) ZeroDivisionError)).
Proof.
  intros Htbl Hr Hc Hin. cbn [Transfer.for_tables]. unfold bind at 1.
  unfold Transfer.process_table. fold (preview_of tbl).
  generalize dependent (preview_of tbl). intros preview Hr Hc Hin.
  destruct tbl as [|r0 tbl0]; [done|].
  unfold bind at 1. unfold try_except. unfold bind at 1.
  rewrite classify_unfold.
  replace (length preview <? 4) with false by (symmetry; apply Nat.ltb_ge; lia).
  replace (width preview <? 4) with false by (symmetry; apply Nat.ltb_ge; lia).
  cbn [orb]. rewrite sum_numeric_empty_row by done.
  reflexivity.
Qed.

(** ** A PDF without tables *)

Lemma for_tables_without_rows model page_idx page_text tables :
  Forall (λ t : Table, t = []) tables →
  ∀ t_idx rate_tables w,
    for_tables model page_idx page_text t_idx tables rate_tables w = (inr rate_tables, w).
Proof.
  induction 1 as [|tbl rest -> _ IH]; intros t_idx rate_tables w; [done|].
  cbn [Transfer.for_tables]. unfold bind. simpl. apply IH.
Qed.

Lemma for_pages_without_rows model pages :
  Forall (λ t : Table, t = []) (tables_of pages) →
  ∀ page_idx rate_tables w,
    for_pages model page_idx pages rate_tables w = (inr rate_tables, w).
Proof.
  induction pages as [|page rest IH]; intros Hall page_idx rate_tables w; [done|].
  unfold tables_of in Hall. rewrite fmap_cons in Hall. cbn [concat] in Hall.
  apply Forall_app in Hall as [H1 H2].
  cbn [Transfer.for_pages]. unfold bind.
  rewrite for_tables_without_rows by done. by apply IH.
Qed.

(** X8.  On a PDF none of whose pages has a table with a row (no page, no
    table, or empty tables only), [process_single_pdf] sends no request and
    writes no file: it prints the line of the PDF and the line [Skipping],
    and ends normally. *)
Theorem pdf_without_tables (pdf : Pdf) (model : string) (w : world) :
  Forall (λ t : Table, t = []) (tables_of (pdf_pages pdf)) →
  process_single_pdf pdf model w
  = (inr tt, mkWorld (calls w) (stdout w ++ [Processing (pdf_name pdf); Skipping]) (files w)).
Proof.
  intros Hall. rewrite process_single_pdf_unfold, for_pages_without_rows by done.
  unfold with_line. simpl. by rewrite <- app_assoc.
Qed.

(** ** The PDFs of a folder *)


End Loops.

(** ** Sheet names without collision *)

(** X9.  When the titles of the accepted tables, cut to 31 characters, are
    pairwise distinct and none of them is a name in use, every sheet is
    written under its title cut to 31 characters: no suffix is added, and
    the sheets are the tables in their order. *)
Theorem distinct_titles_keep_names (rate_tables : list RateTable) (used : gset string) :
  NoDup ((λ t, take_str 31 (sheet_title t)) <$> rate_tables) →
  Forall (λ t, take_str 31 (sheet_title t) ∉ used) rate_tables →
  write_sheets used rate_tables
  = Some ((λ t, (take_str 31 (sheet_title t), data t)) <$> rate_tables).
Proof.
  revert used. induction rate_tables as [|tbl rest IH]; intros used Hnd Hfree; [done|].
  rewrite fmap_cons in Hnd. apply NoDup_cons in Hnd as [Hnotin Hnd].
  apply Forall_cons in Hfree as [Hfree Hrest].
  cbn [write_sheets]. set (base_name := take_str 31 (sheet_title tbl)) in *.
  replace (size used + 2) with (S (size used + 1)) by lia.
  rewrite next_free_name_S, bool_decide_eq_false_2 by done.
  cbn [mbind option_bind]. rewrite IH; [done|done|].
  apply Forall_forall. intros t Ht Hin.
  apply elem_of_union in Hin as [Heq%elem_of_singleton|Hin].
  - apply Hnotin. rewrite <- Heq. apply list_elem_of_fmap. by exists t.
  - by apply (proj1 (Forall_forall _ _) Hrest t).
Qed.

(** ** Instances *)

Definition listed : string → result pyval := λ _, inr (PList []).
Definition refused : string → result pyval :=
  λ _, inr (PDict [("is_rate_table", PBool false); ("sheet_title", PStr "Fees")]).
Definition untitled : string → result pyval :=
  λ _, inr (PDict [("is_rate_table", PInt 1); ("sheet_title", PStr "   ")]).
Definition one_page : Pdf :=
  mkPdf "a.pdf" "a" [mkPage (Some "Weekly COST") [t_nums; []; t_nums]].

Lemma answered_t_nums (json_loads : string → result pyval) (cls : pyval) :
  json_loads "{...}" = inr cls →
  answered "" answers json_loads "gpt-4o-mini" 0 "weekly cost" t_nums w0 cls.
Proof.
  intros Hcls. split; [done|]. split; [vm_compute; lia|]. split; [vm_compute; lia|].
  split; [by repeat constructor|]. split; [vm_compute; lia|].
  exists (Some "{...}"). split; [reflexivity|]. exact Hcls.
Qed.



Lemma non_object_answer_is_fatal_witness :
  Transfer.for_tables "" answers listed "gpt-4o-mini" 0 "weekly cost" 0 [t_nums; t_nums] [] w0
  = (inl (AttributeError "object has no attribute 'get'"),
     with_call w0 (request_of "" "gpt-4o-mini" 0 (Some "weekly cost") (preview_of t_nums))).
Proof.
  apply (non_object_answer_is_fatal "" answers listed _ _ _ _ _ _ _ _ (PList [])).
  - by apply answered_t_nums.
  - done.
Defined.

Lemma rejected_answer_skips_table_witness :
  Transfer.for_tables "" answers refused "gpt-4o-mini" 0 "weekly cost" 0 [t_nums] [] w0
  = Transfer.for_tables "" answers refused "gpt-4o-mini" 0 "weekly cost" 1 [] []
      (with_call w0 (request_of "" "gpt-4o-mini" 0 (Some "weekly cost") (preview_of t_nums))).
Proof.
  apply (rejected_answer_skips_table "" answers refused _ _ _ _ _ _ _ _
           [("is_rate_table", PBool false); ("sheet_title", PStr "Fees")]).
  - by apply answered_t_nums.
  - reflexivity.
Defined.

Lemma accepted_answer_title_witness :
  Transfer.for_tables "" answers untitled "gpt-4o-mini" 0 "weekly cost" 0 [t_nums] [] w0
  = Transfer.for_tables "" answers untitled "gpt-4o-mini" 0 "weekly cost" 1 []
      ([] ++ [mkRateTable (chosen_title 0 0 (PStr "   ")) t_nums])
      (with_call w0 (request_of "" "gpt-4o-mini" 0 (Some "weekly cost") (preview_of t_nums))).
Proof.
  apply (accepted_answer_title "" answers untitled _ _ _ _ _ _ _ _
           [("is_rate_table", PInt 1); ("sheet_title", PStr "   ")]).
  - by apply answered_t_nums.
  - reflexivity.
  - right. by exists "   ".
Defined.

Example blank_title_falls_back : chosen_title 0 0 (PStr "   ") = "Rates page 1 table 1".
Proof. vm_compute. reflexivity. Qed.

Lemma locally_rejected_table_is_skipped_witness :
  Transfer.for_tables "" answers accepted "gpt-4o-mini" 0 "weekly cost" 0
    [[r_text; r_text; r_text; r_text; r_text; r_text; r_nums; r_nums]] [] w0
  = Transfer.for_tables "" answers accepted "gpt-4o-mini" 0 "weekly cost" 1 [] [] w0.
Proof.
  apply (locally_rejected_table_is_skipped "" answers accepted); [done|].
  right. right. split; [by repeat constructor|]. vm_compute. lia.
Defined.

Lemma zero_length_row_is_logged_witness :
  Transfer.for_tables "" answers accepted "gpt-4o-mini" 0 "weekly cost" 0
    [[r_nums; []; r_nums; r_nums]] [] w0
  = Transfer.for_tables "" answers accepted "gpt-4o-mini" 0 "weekly cost" 1 [] []
      (with_line w0 (Warn (0 + 1) (0 + 1) ZeroDivisionError)).
Proof.
  apply (zero_length_row_is_logged "" answers accepted); [done|..].
  - vm_compute. lia.
  - vm_compute. lia.
  - apply elem_of_cons. right. apply elem_of_cons. by left.
Defined.

Lemma pdf_without_tables_witness :
  Transfer.process_single_pdf "" down no_json
    (mkPdf "b.pdf" "b" [mkPage None [[]; []]; mkPage (Some "text") []]) "gpt-4o-mini" w0
  = (inr tt, mkWorld [] [Processing "b.pdf"; Skipping] []).
Proof.
  apply (pdf_without_tables "" down no_json
           (mkPdf "b.pdf" "b" [mkPage None [[]; []]; mkPage (Some "text") []])
           "gpt-4o-mini" w0).
  by repeat constructor.
Defined.

Lemma distinct_titles_keep_names_witness :
  write_sheets ∅ [death_tpd; mkRateTable "Income protection" [r_text]]
  = Some [("Premium rates for death and TPD", [r_nums]); ("Income protection", [r_text])].
Proof.
  apply (distinct_titles_keep_names [death_tpd; mkRateTable "Income protection" [r_text]] ∅).
  - rewrite !fmap_cons. apply NoDup_cons. split; [|apply NoDup_singleton].
    intros Hin%list_elem_of_singleton. vm_compute in Hin. discriminate Hin.
  - repeat constructor; apply not_elem_of_empty.
Defined.

End TransferExtra.

(* ===================================================================== *)
(** * Further properties of viz_app.py *)
(* ===================================================================== *)

Module VizAppExtra.
Import Pandas VizApp VizAppSpec.

(** ** Tables that lack a column of the filters *)

(** The first name of [cs] that is no column. *)
Definition first_missing (cs cols : list string) : option string :=
  List.find (λ c, negb (bool_decide (c ∈ cols))) cs.

Lemma getitem_missing (d : DataFrame) (c : string) :
  c ∉ columns d → getitem d c = inl (KeyError c).
Proof.
  intros Hc. unfold getitem.
  destruct (lookup_col c d) as [s|] eqn:Hs; [|done].
  by apply lookup_col_Some in Hs as [? _].
Qed.

Lemma where_value_missing (F : DataFrame) (c : string) (v : cell) :
  c ∉ columns F → where_value F c v = inl (KeyError c).
Proof. intros Hc. unfold where_value. by rewrite getitem_missing. Qed.

Lemma where_value_masked_missing (M : list bool) (d : DataFrame) (c : string) (v : cell) :
  c ∉ columns d → where_value (mask_rows M d) c v = inl (KeyError c).
Proof. intros Hc. apply where_value_missing. by rewrite columns_mask_rows. Qed.

Lemma first_missing_cons (c0 c : string) (cs cols : list string) :
  first_missing (c0 :: cs) cols = Some c →
  ((c0 ∉ cols) ∧ c = c0) ∨ (c0 ∈ cols ∧ first_missing cs cols = Some c).
Proof.
  unfold first_missing. cbn [find]. case_bool_decide as Hin; simpl.
  - intros Hc. by right.
  - intros [= <-]. by left.
Qed.

(** ** The names shown for the companies *)

Lemma remove_all_absent (old s : string) :
  contains old s = false → remove_all old s = s.
Proof.
  unfold remove_all. induction s as [|c s IH]; [done|].
  cbn [contains]. intros [Hp Hc]%orb_false_iff.
  cbn [remove_all_from]. rewrite Hp. by rewrite IH.
Qed.

(** No occurrence of [" rates"] starts in a text free of it and ends in a
    [" rates"] written after it. *)
Lemma rates_not_across (c : ascii) (s : string) :
  String.prefix " rates" (String c s) = false →
  String.prefix " rates" (String c (s +:+ " rates")) = false.
Proof.
  cbn [String.prefix]. destruct (ascii_dec " " c) as [_|]; [|done].
  do 5 (destruct s as [|? s]; [intros _; by vm_compute|];
        rewrite TransferSpec.app_cons; cbn [String.prefix];
        destruct (ascii_dec _ _) as [_|]; [|done]).
  by destruct s.
Qed.

Lemma remove_all_suffix (s : string) :
  contains " rates" s = false → remove_all " rates" (s +:+ " rates") = s.
Proof.
  unfold remove_all. induction s as [|c s IH]; [done|].
  cbn [contains]. intros [Hp Hc]%orb_false_iff.
  rewrite TransferSpec.app_cons. cbn [remove_all_from].
  rewrite (rates_not_across _ _ Hp). by rewrite IH.
Qed.

(** X13.  For a name in which [" rates"] does not occur, the name shown
    for the column headed by the name followed by [" rates"] is the name,
    and so is the name shown for the column headed by the name alone. *)
Theorem display_name_drops_suffix (name : string) :
  contains " rates" name = false →
  display_name (name +:+ " rates") = name ∧ display_name name = name.
Proof.
  intros Hname. unfold display_name.
  split; [by apply remove_all_suffix|by apply remove_all_absent].
Qed.

Section Queries.

Variable parse_float : string → float.
Variable mean : list float → float.

(** X11.  The filters read their columns in a fixed order, [Age] (for the
    point lookup only), [Gender], [Occupation]: on a table that lacks one
    of them, each query raises [KeyError] with the name of the first one
    that is missing, whatever else it is given (the relative trend, when
    its guard on the two selections is passed). *)
Theorem missing_filter_column_raises (h : list DataFrame) (df : loc) (d : DataFrame)
    (age : float) (gender occupation benefit : string)
    (companies : list string) (base_company : string) (compare_companies : list string)
    (benefit_period waiting_period : option string) :
  h !! df = Some d →
  (∀ c, first_missing ["Age"; "Gender"; "Occupation"] (columns d) = Some c →
        (build_lookup df age gender occupation benefit h).1 = inl (KeyError c))
  ∧ (∀ c, first_missing ["Gender"; "Occupation"] (columns d) = Some c →
          (build_trend parse_float df companies gender occupation benefit
             benefit_period waiting_period h).1 = inl (KeyError c)
          ∧ (base_company ≠ "" → compare_companies ≠ [] →
             (build_relative_trend parse_float mean df base_company compare_companies
                gender occupation benefit benefit_period waiting_period h).1
             = inl (KeyError c))).
Proof.
  intros Hd. split.
  - intros c Hc.
    destruct (build_lookup_run h df d age gender occupation benefit Hd) as [-> _].
    unfold lookup_value.
    apply first_missing_cons in Hc as [[Ha ->]|[Ha Hc]];
      [by rewrite where_value_missing|].
    rewrite (where_value_col _ _ _ Ha). cbn [rbind].
    apply first_missing_cons in Hc as [[Hg ->]|[Hg Hc]];
      [by rewrite where_value_masked_missing|].
    rewrite (where_value_mask _ _ _ _ Hg). cbn [rbind].
    apply first_missing_cons in Hc as [[Ho ->]|[Ho Hc]];
      [by rewrite where_value_masked_missing|done].
  - intros c Hc.
    assert (∀ A (kv : DataFrame → result A),
              filter_then d gender occupation benefit benefit_period waiting_period kv
              = inl (KeyError c)) as Hf.
    { intros A kv. unfold filter_then.
      apply first_missing_cons in Hc as [[Hg ->]|[Hg Hc]];
        [by rewrite where_value_missing|].
      rewrite (where_value_col _ _ _ Hg). cbn [rbind].
      apply first_missing_cons in Hc as [[Ho ->]|[Ho Hc]];
        [by rewrite where_value_masked_missing|done]. }
    split.
    + destruct (build_trend_run h parse_float df d companies gender occupation benefit
                  benefit_period waiting_period Hd) as [-> _].
      apply Hf.
    + intros Hb Hcs.
      destruct (build_relative_trend_run h parse_float mean df d base_company
                  compare_companies gender occupation benefit
                  benefit_period waiting_period Hd) as [-> _].
      unfold relative_value.
      assert (truthy_str base_company = true) as ->
        by (unfold truthy_str; by apply negb_true_iff, String.eqb_neq).
      destruct compare_companies; [done|]. apply Hf.
Qed.

(** X12.  On a table without a [BenefitType] column the benefit asked for
    is not read: each query gives the same outcome for any two benefits. *)
Theorem benefit_ignored_without_column (h : list DataFrame) (df : loc) (d : DataFrame)
    (age : float) (gender occupation benefit benefit' : string)
    (companies : list string) (base_company : string) (compare_companies : list string)
    (benefit_period waiting_period : option string) :
  h !! df = Some d → "BenefitType" ∉ columns d →
  (build_lookup df age gender occupation benefit h).1
  = (build_lookup df age gender occupation benefit' h).1
  ∧ (build_trend parse_float df companies gender occupation benefit
       benefit_period waiting_period h).1
    = (build_trend parse_float df companies gender occupation benefit'
         benefit_period waiting_period h).1
  ∧ (build_relative_trend parse_float mean df base_company compare_companies
       gender occupation benefit benefit_period waiting_period h).1
    = (build_relative_trend parse_float mean df base_company compare_companies
         gender occupation benefit' benefit_period waiting_period h).1.
Proof.
  intros Hd Hb.
  assert (benefit_col_of (columns d) = None) as Hcol
    by (unfold benefit_col_of; by rewrite bool_decide_eq_false_2).
  split; [|split].
  - destruct (build_lookup_run h df d age gender occupation benefit Hd) as [-> _].
    destruct (build_lookup_run h df d age gender occupation benefit' Hd) as [-> _].
    unfold lookup_value. by rewrite Hcol.
  - destruct (build_trend_run h parse_float df d companies gender occupation benefit
                benefit_period waiting_period Hd) as [-> _].
    destruct (build_trend_run h parse_float df d companies gender occupation benefit'
                benefit_period waiting_period Hd) as [-> _].
    unfold trend_value, filter_then. by rewrite Hcol.
  - destruct (build_relative_trend_run h parse_float mean df d base_company
                compare_companies gender occupation benefit
                benefit_period waiting_period Hd) as [-> _].
    destruct (build_relative_trend_run h parse_float mean df d base_company
                compare_companies gender occupation benefit'
                benefit_period waiting_period Hd) as [-> _].
    unfold relative_value, filter_then. by rewrite Hcol.
Qed.

(** ** What the trend holds *)

(** The rows of a column where a value stands. *)
Definition notna_mask (s : Series) : list bool := (λ x, negb (isna x)) <$> s.

(** A column without a value. *)
Definition all_missing (s : Series) : bool :=
  match dropna s with [] => true | _ => false end.

(** The companies of the trend: all of them when none is selected. *)
Definition selected (companies company_cols : list string) : list string :=
  List.filter (λ c, match companies with
                    | [] => true
                    | _ => bool_decide (c ∈ companies)
                    end) company_cols.

(** The rows left by the filters of the two trend queries. *)
Definition filtered_rows (d : DataFrame) (gender occupation benefit : string)
    (benefit_period waiting_period : option string) : result DataFrame :=
  filter_then d gender occupation benefit benefit_period waiting_period inr.

(** The column of a company read as numbers. *)
Definition numeric (F : DataFrame) (c : string) : Series :=
  to_numeric parse_float (col F c).

(** The long frame of the rows [F] for the companies [melt_cols]: company
    after company, the rows where the company has a value. *)
Definition long_frame (F : DataFrame) (melt_cols : list string) : DataFrame :=
  [("Age", concat ((λ c, keep (notna_mask (numeric F c)) (col F "Age")) <$> melt_cols));
   ("Company",
    concat ((λ c, replicate (length (dropna (numeric F c))) (CStr (display_name c)))
              <$> melt_cols));
   ("Rate", concat ((λ c, dropna (numeric F c)) <$> melt_cols))].

Lemma keep_notna (s : Series) : keep (notna_mask s) s = dropna s.
Proof.
  unfold notna_mask, dropna. induction s as [|x s IH]; [done|].
  simpl. destruct (isna x); simpl; [|f_equal]; exact IH.
Qed.

Lemma keep_app {A} (m1 m2 : list bool) (s1 s2 : list A) :
  length m1 = length s1 → keep (m1 ++ m2) (s1 ++ s2) = keep m1 s1 ++ keep m2 s2.
Proof.
  revert s1. induction m1 as [|b m1 IH]; intros [|x s1] Hlen; simpl in *; try done.
  destruct b; simpl; [f_equal|]; apply IH; lia.
Qed.

Lemma keep_notna_replicate {A} (s : Series) (x : A) :
  keep (notna_mask s) (replicate (length s) x) = replicate (length (dropna s)) x.
Proof.
  unfold notna_mask, dropna. induction s as [|y s IH]; [done|].
  simpl. destruct (isna y); simpl; [|f_equal]; exact IH.
Qed.

Lemma keep_blocks {A} (f : string → Series) (g : string → list A) (cs : list string) :
  Forall (λ c, length (f c) = length (g c)) cs →
  keep (notna_mask (concat (f <$> cs))) (concat (g <$> cs))
  = concat ((λ c, keep (notna_mask (f c)) (g c)) <$> cs).
Proof.
  induction 1 as [|c cs Hc _ IH]; [done|].
  rewrite !fmap_cons. cbn [concat]. unfold notna_mask at 1. rewrite fmap_app.
  rewrite keep_app by by rewrite length_fmap.
  f_equal. apply IH.
Qed.

Lemma rectangular_col_length (F : DataFrame) (c c' : string) :
  rectangular F → c ∈ columns F → c' ∈ columns F → length (col F c) = length (col F c').
Proof.
  intros [n Hn] [s Hs]%lookup_col_columns [s' Hs']%lookup_col_columns.
  unfold col. rewrite Hs, Hs'. simpl.
  apply lookup_col_Some in Hs as [_ Hs]. apply lookup_col_Some in Hs' as [_ Hs'].
  rewrite Forall_forall in Hn.
  pose proof (Hn _ Hs) as H1. pose proof (Hn _ Hs') as H2. simpl in *. congruence.
Qed.

Lemma getitem_list_cols (D : DataFrame) (cs : list string) :
  Forall (λ c, c ∈ columns D) cs →
  getitem_list D cs = inr ((λ c, (c, col D c)) <$> cs).
Proof.
  induction 1 as [|c cs Hc _ IH]; [done|].
  cbn [getitem_list]. by rewrite (getitem_col _ _ Hc), IH.
Qed.

Lemma coerce_report_value_ok (cs : list string) (F : DataFrame) (missing : list string) :
  Forall (λ c, c ∈ columns F) cs →
  (coerce_report_value parse_float F cs missing).1
  = inr (missing ++ List.filter (λ c, all_missing (numeric F c)) cs)
  ∧ columns (coerce_report_value parse_float F cs missing).2 = columns F
  ∧ ∀ c, col (coerce_report_value parse_float F cs missing).2 c
         = if decide (c ∈ cs) then numeric F c else col F c.
Proof.
  revert F missing. induction cs as [|c0 rest IH]; intros F missing Hall.
  - split; [by rewrite app_nil_r|]. split; [done|]. intros c.
    rewrite decide_False; [done|]. by intros ?%elem_of_nil.
  - apply Forall_cons in Hall as [Hc0 Hrest].
    cbn [coerce_report_value]. rewrite (getitem_col _ _ Hc0). cbv zeta.
    set (F1 := set_col c0 (to_numeric parse_float (col F c0)) F).
    assert (columns F1 = columns F) as Hcols by by apply columns_set_col.
    assert (col F1 c0 = numeric F c0) as Hc1.
    { unfold F1. rewrite col_set_col. by rewrite decide_True. }
    rewrite getitem_col by by rewrite Hcols.
    assert (∀ c, numeric F1 c = numeric F c) as Hnum.
    { intros c. unfold numeric, F1. rewrite col_set_col.
      case_decide as Hc; [subst c; apply to_numeric_idem|done]. }
    match goal with
    | |- context [coerce_report_value parse_float F1 rest ?m] =>
        destruct (IH F1 m) as (H1 & H2 & H3); [by rewrite Hcols|]
    end.
    split; [|split].
    + rewrite H1, Hc1. cbn [List.filter]. unfold all_missing at 2.
      rewrite (List.filter_ext _ (λ c, all_missing (numeric F c)))
        by (intros c; by rewrite Hnum).
      destruct (dropna (numeric F c0)); [by rewrite <- app_assoc|done].
    + congruence.
    + intros c. rewrite H3. destruct (decide (c = c0)) as [->|Hne].
      * rewrite (decide_True (P := c0 ∈ c0 :: rest)) by (apply elem_of_cons; by left).
        case_decide; [apply Hnum|done].
      * destruct (decide (c ∈ rest)) as [Hin|Hout].
        -- rewrite decide_True by (apply elem_of_cons; by right). apply Hnum.
        -- rewrite decide_False by (by intros [?|?]%elem_of_cons).
           unfold F1. rewrite col_set_col. by rewrite decide_False.
Qed.

Lemma dropna_rate_long (A C R : Series) :
  dropna_rate [("Age", A); ("Company", C); ("Rate", R)]
  = [("Age", keep (notna_mask R) A); ("Company", keep (notna_mask R) C);
     ("Rate", keep (notna_mask R) R)].
Proof. reflexivity. Qed.

Lemma strip_company_long (A C R : Series) :
  strip_company [("Age", A); ("Company", C); ("Rate", R)]
  = [("Age", A); ("Company", replace_company <$> C); ("Rate", R)].
Proof. reflexivity. Qed.

Lemma company_blocks (ages : Series) (f : string → Series) (cs : list string) :
  Forall (λ c, length (f c) = length ages) cs →
  replace_company
    <$> concat ((λ c, keep (notna_mask (f c)) (replicate (length ages) (CStr c))) <$> cs)
  = concat ((λ c, replicate (length (dropna (f c))) (CStr (display_name c))) <$> cs).
Proof.
  induction 1 as [|c cs Hc _ IH]; [done|].
  rewrite !fmap_cons. cbn [concat]. rewrite fmap_app, IH. f_equal.
  by rewrite <- Hc, keep_notna_replicate, fmap_replicate.
Qed.

Lemma melt_long (ages : Series) (f : string → Series) (cs : list string) :
  Forall (λ c, length (f c) = length ages) cs →
  strip_company (dropna_rate (melt (("Age", ages) :: ((λ c, (c, f c)) <$> cs))))
  = [("Age", concat ((λ c, keep (notna_mask (f c)) ages) <$> cs));
     ("Company",
      concat ((λ c, replicate (length (dropna (f c))) (CStr (display_name c))) <$> cs));
     ("Rate", concat ((λ c, dropna (f c)) <$> cs))].
Proof.
  intros Hlen. unfold melt. rewrite dropna_rate_long, strip_company_long.
  rewrite <- !list_fmap_compose.
  change (concat (snd ∘ (λ c, (c, f c)) <$> cs)) with (concat (f <$> cs)).
  change (concat ((λ _, ages) ∘ (λ c, (c, f c)) <$> cs))
    with (concat ((λ _ : string, ages) <$> cs)).
  change (concat ((λ '(c, _), replicate (length ages) (CStr c))
                    ∘ (λ c, (c, f c)) <$> cs))
    with (concat ((λ c, replicate (length ages) (CStr c)) <$> cs)).
  rewrite (keep_blocks f (λ _, ages)) by done.
  rewrite (keep_blocks f (λ c, replicate (length ages) (CStr c)))
    by (eapply Forall_impl; [exact Hlen|]; intros c Hc; by rewrite length_replicate).
  rewrite (company_blocks _ _ _ Hlen).
  rewrite (keep_blocks f f) by (by apply Forall_forall).
  do 3 f_equal. do 2 f_equal.
  apply list_fmap_ext. intros i c _. apply keep_notna.
Qed.

(** What [build_trend] computes past its filters, for companies that are
    columns of the rows left. *)
Lemma long_value (F : DataFrame) (melt_cols : list string) :
  rectangular F → "Age" ∈ columns F →
  Forall (λ c, c ∈ columns F ∧ c ≠ "Age") melt_cols →
  rbind (coerce_report_value parse_float F melt_cols []).1 (λ missing,
  rbind (getitem_list (coerce_report_value parse_float F melt_cols []).2
           ("Age" :: melt_cols)) (λ sub,
  inr (strip_company (dropna_rate (melt sub)), missing)))
  = inr (long_frame F melt_cols,
         List.filter (λ c, all_missing (numeric F c)) melt_cols).
Proof.
  intros Hrect Ha Hall.
  destruct (coerce_report_value_ok melt_cols F []) as (H1 & H2 & H3).
  { eapply Forall_impl; [exact Hall|]. by intros c [Hc _]. }
  rewrite H1. cbn [rbind app]. rewrite getitem_list_cols.
  2:{ apply Forall_cons. rewrite H2. split; [done|].
      eapply Forall_impl; [exact Hall|]. by intros c [Hc _]. }
  cbn [rbind]. rewrite fmap_cons, H3.
  rewrite decide_False.
  2:{ intros Hin. eapply Forall_forall in Hall; [|exact Hin]. by destruct Hall. }
  assert ((λ c, (c, col (coerce_report_value parse_float F melt_cols []).2 c)) <$> melt_cols
          = (λ c, (c, numeric F c)) <$> melt_cols) as ->.
  { apply Forall_fmap_ext, Forall_forall. intros c Hc. by rewrite H3, decide_True. }
  rewrite melt_long; [done|].
  eapply Forall_impl; [exact Hall|]. intros c [Hc _]. unfold numeric, to_numeric.
  rewrite length_fmap. by apply rectangular_col_length.
Qed.

Lemma filtered_of_rectangular (d F : DataFrame) :
  filtered_of d F → rectangular d → rectangular F.
Proof. induction 1; [done|]. intros Hd. by apply rectangular_mask_rows, IHfiltered_of. Qed.

Lemma trend_value_ok (d : DataFrame) (companies : list string)
    (gender occupation benefit : string) (benefit_period waiting_period : option string) :
  rectangular d → "Age" ∈ columns d → "Gender" ∈ columns d → "Occupation" ∈ columns d →
  ∃ F, filtered_rows d gender occupation benefit benefit_period waiting_period = inr F
    ∧ filtered_of d F
    ∧ trend_value parse_float d companies gender occupation benefit
        benefit_period waiting_period
      = match selected companies (company_columns (columns d)) with
        | [] => inr ([], [])
        | melt_cols =>
          inr (long_frame F melt_cols,
               List.filter (λ c, all_missing (numeric F c)) melt_cols)
        end.
Proof.
  intros Hrect Ha Hg Ho.
  destruct (filter_then_ok d gender occupation benefit benefit_period waiting_period Hg Ho)
    as (F & HF & Hkv).
  exists F. split; [apply Hkv|]. split; [done|].
  unfold trend_value. rewrite Hkv. unfold selected.
  assert (Forall (λ c, c ∈ columns F ∧ c ≠ "Age")
            (List.filter (λ c, match companies with
                               | [] => true
                               | _ => bool_decide (c ∈ companies)
                               end) (company_columns (columns d)))) as Hall.
  { apply Forall_forall. intros c Hc.
    apply list_elem_of_In, filter_In in Hc as [Hc%list_elem_of_In _].
    rewrite (filtered_of_columns d F HF). split.
    - by apply company_columns_spec in Hc as [? _].
    - by apply (company_column_not_age (columns d)). }
  destruct (List.filter _ (company_columns (columns d))) as [|c0 rest]; [done|].
  cbv zeta. apply long_value; [|by rewrite (filtered_of_columns d F HF)|done].
  by apply (filtered_of_rectangular d).
Qed.


Lemma to_numeric_numbers (s : Series) :
  Forall (λ x, ∃ f, x = CNum f) (to_numeric parse_float s).
Proof.
  unfold to_numeric. apply Forall_fmap, Forall_forall. intros [x|t|] _; by eexists.
Qed.


(** ** What the relative trend holds *)

(** The series of a company on the rows [F]: by age, the mean of its values
    read as numbers, over the rows that have an age and a value. *)
Definition series_of (F : DataFrame) (c : string) : list (float * float) :=
  match points (col F "Age") (numeric F c) with
  | inr ps => groupby_mean mean ps
  | inl _ => []
  end.

Definition is_nil {A} (l : list A) : bool :=
  match l with [] => true | _ => false end.

(** The block of a compare company, from the rows it shares with the
    baseline: none when there is no such row. *)
Definition block_of (c : string) (joined : list (float * float * float)) : option Block :=
  match joined with
  | [] => None
  | _ => Some (ratio_block c joined)
  end.

(** The blocks of the relative trend: the baseline's, when its series has
    an entry, then one for each compare company that shares an age with the
    baseline, in the order of the compare companies. *)
Definition ratio_blocks (F : DataFrame) (base_company : string)
    (compare_companies : list string) : list Block :=
  let base_series := series_of F base_company in
  match base_series with
  | [] => []
  | _ => [base_block base_company base_series]
  end
  ++ omap (λ c, block_of c (join base_series (series_of F c))) compare_companies.

Lemma omap_cons_step {A B} (f : A → option B) (x : A) (l : list A) :
  omap f (x :: l) = match f x with Some y => y :: omap f l | None => omap f l end.
Proof. reflexivity. Qed.

Lemma filter_cons_step {A} (f : A → bool) (x : A) (l : list A) :
  List.filter f (x :: l) = if f x then x :: List.filter f l else List.filter f l.
Proof. reflexivity. Qed.

Lemma compare_value_spec (F' F : DataFrame) (bs : list (float * float))
    (cs : list string) :
  Forall (λ c, mean_by_age mean F' c = inr (series_of F c)) cs →
  ∀ rows missing,
    compare_value mean F' bs cs rows missing
    = inr (rows ++ omap (λ c, block_of c (join bs (series_of F c))) cs,
           missing ++ List.filter (λ c, is_nil (join bs (series_of F c))) cs).
Proof.
  induction 1 as [|c cs Hc _ IH]; intros rows missing.
  - simpl. by rewrite !app_nil_r.
  - cbn [compare_value]. rewrite Hc. cbn [rbind].
    rewrite omap_cons_step, filter_cons_step.
    destruct (join bs (series_of F c)) as [|j js]; cbn [block_of is_nil];
      rewrite IH; by rewrite <- app_assoc.
Qed.

(** The series computed on the frame whose columns [cs] were made numeric. *)
Lemma series_of_numeric (F : DataFrame) (cs : list string) :
  "Age" ∈ columns F → age_numeric F →
  Forall (λ c, c ∈ columns F ∧ c ≠ "Age") cs →
  Forall (λ c, mean_by_age mean (coerce_value parse_float F cs).2 c
               = inr (series_of F c)) cs.
Proof.
  intros Ha Hnum Hall.
  destruct (coerce_value_ok parse_float cs F) as (_ & H2 & H3).
  { eapply Forall_impl; [exact Hall|]. by intros c [Hc _]. }
  apply Forall_forall. intros c Hc.
  pose proof (proj1 (Forall_forall _ _) Hall c Hc) as [Hcol Hne].
  rewrite mean_by_age_col by by rewrite H2.
  rewrite (H3 "Age"), (H3 c), (decide_True (P := c ∈ cs)) by done.
  rewrite (decide_False (P := "Age" ∈ cs)).
  2:{ intros Hin. by destruct (proj1 (Forall_forall _ _) Hall _ Hin). }
  unfold series_of, numeric.
  destruct (points_ok (col F "Age") (to_numeric parse_float (col F c)) Hnum) as [ps ->].
  done.
Qed.

Lemma relative_tail_spec (F : DataFrame) (base_company : string)
    (compare_companies : list string) :
  "Age" ∈ columns F → age_numeric F →
  Forall (λ c, c ∈ columns F ∧ c ≠ "Age") (base_company :: compare_companies) →
  relative_tail parse_float mean F base_company compare_companies
  = inr (match ratio_blocks F base_company compare_companies with
         | [] => []
         | rows => ratio_frame rows
         end,
         List.filter (λ c, is_nil (join (series_of F base_company) (series_of F c)))
           compare_companies,
         is_nil (series_of F base_company)).
Proof.
  intros Ha Hnum Hall. unfold relative_tail, numeric_frame.
  rewrite filter_all.
  2:{ eapply Forall_impl; [exact Hall|]. intros c [Hc _]. by apply bool_decide_eq_true. }
  destruct (coerce_value_ok parse_float (base_company :: compare_companies) F)
    as (H1 & _ & _).
  { eapply Forall_impl; [exact Hall|]. by intros c [Hc _]. }
  pose proof (series_of_numeric F _ Ha Hnum Hall) as Hser.
  apply Forall_cons in Hser as [Hbase Hcomp].
  rewrite H1. cbn [rbind]. rewrite Hbase. cbn [rbind].
  rewrite (compare_value_spec _ F _ _ Hcomp). cbn [rbind fst snd app].
  unfold ratio_blocks. cbv zeta.
  by destruct (_ ++ _).
Qed.

(** X16.  What [build_relative_trend] returns when a baseline and at least
    one compare company are given, all of them columns other than [Age] of
    a table with its [Age] (numeric), [Gender] and [Occupation] columns:
    nothing is raised; with [F] the rows left by the filters, the companies
    reported missing are, in order, the compare companies whose series
    shares no age with the baseline's (none, when the baseline has no
    series); the frame holds the block of the baseline, when it has a
    series, then the block of each compare company that is not missing, in
    their order, with the ratio [comp / base * 100] at each shared age; the
    flag tells whether the baseline has no series. *)
Theorem relative_trend_blocks (h : list DataFrame) (df : loc) (d : DataFrame)
    (base_company : string) (compare_companies : list string)
    (gender occupation benefit : string)
    (benefit_period waiting_period : option string) :
  h !! df = Some d →
  "Age" ∈ columns d → "Gender" ∈ columns d → "Occupation" ∈ columns d →
  age_numeric d →
  base_company ≠ "" → compare_companies ≠ [] →
  Forall (λ c, c ∈ columns d ∧ c ≠ "Age") (base_company :: compare_companies) →
  ∃ F, filtered_rows d gender occupation benefit benefit_period waiting_period = inr F
    ∧ (build_relative_trend parse_float mean df base_company compare_companies
         gender occupation benefit benefit_period waiting_period h).1
      = inr (match ratio_blocks F base_company compare_companies with
             | [] => []
             | rows => ratio_frame rows
             end,
             List.filter (λ c, is_nil (join (series_of F base_company) (series_of F c)))
               compare_companies,
             is_nil (series_of F base_company)).
Proof.
  intros Hd Ha Hg Ho Hnum Hb Hcs Hall.
  destruct (filter_then_ok d gender occupation benefit benefit_period waiting_period Hg Ho)
    as (F & HF & Hkv).
  exists F. split; [apply Hkv|].
  destruct (build_relative_trend_run h parse_float mean df d base_company
              compare_companies gender occupation benefit
              benefit_period waiting_period Hd) as [-> _].
  unfold relative_value.
  assert (truthy_str base_company = true) as ->
    by (unfold truthy_str; by apply negb_true_iff, String.eqb_neq).
  destruct compare_companies as [|c0 rest]; [done|]. cbn [negb orb].
  rewrite Hkv. apply relative_tail_spec.
  - by rewrite (filtered_of_columns d F HF).
  - by apply (filtered_of_col d F _ "Age" HF).
  - by rewrite (filtered_of_columns d F HF).
Qed.

End Queries.

(** ** load_data *)

(** [rename_map] *)
Definition rename_map : list (string * string) :=
  [("Benefit type", "BenefitType"); ("Benefit Type", "BenefitType");
   ("Benefit", "BenefitType")].

(** The name [rename] gives to the column [c]. *)
Fixpoint renamed (m : list (string * string)) (c : string) : string :=
  match m with
  | [] => c
  | (k, v) :: m' => if String.eqb c k then v else renamed m' c
  end.

(** [df.rename(columns=rename_map)] *)
Definition rename_columns (d : DataFrame) : DataFrame :=
  (λ '(c, s), (renamed rename_map c, s)) <$> d.

(** The number of rows of a frame. *)
Definition nrows (d : DataFrame) : nat :=
  match d with
  | [] => 0
  | (_, s) :: _ => length s
  end.

(** The columns of the frames of [pd.concat]: the names in the order in
    which each is first met. *)
Fixpoint add_new (seen l : list string) : list string :=
  match l with
  | [] => seen
  | c :: l' =>
    if bool_decide (c ∈ seen) then add_new seen l' else add_new (seen ++ [c]) l'
  end.

Definition all_columns (frames : list DataFrame) : list string :=
  add_new [] (concat (columns <$> frames)).

(** The part of a frame in the column [c] of the result: its column [c],
    or [NaN] on each of its rows when it has none. *)
Definition column_or_nan (c : string) (f : DataFrame) : Series :=
  match lookup_col c f with
  | Some s => s
  | None => replicate (nrows f) (CNum nan)
  end.

(** What [pd.concat] does with frames in which a column name is repeated
    depends on the frames; the model does not follow it. *)
Definition RepeatedColumn : exn := Exn "<repeated column name>" "".

(** [pd.concat(frames, ignore_index=True)] *)
Definition concat_frames (frames : list DataFrame) : result DataFrame :=
  if bool_decide (Forall (λ f, NoDup (columns f)) frames) then
    inr ((λ c, (c, concat (column_or_nan c <$> frames))) <$> all_columns frames)
  else inl RepeatedColumn.

Section Loading.

Variable parse_float : string → float.

(** The body of the loop over the sheets, for a sheet that is not empty. *)
Definition sheet_frame (sheet_name : string) (df : DataFrame) : DataFrame :=
  let df := rename_columns df in
  let df := if bool_decide ("BenefitType" ∈ columns df) then df
            else set_col "BenefitType" (replicate (nrows df) (CStr sheet_name)) df in
  match lookup_col "Age" df with
  | Some age => set_col "Age" (to_numeric parse_float age) df
  | None => df
  end.

(** [for sheet_name, df in sheets.items()]: the list [frames]. *)
Fixpoint load_frames (sheets : list (string * DataFrame)) : list DataFrame :=
  match sheets with
  | [] => []
  | (sheet_name, df) :: rest =>
    if empty df then load_frames rest
    else sheet_frame sheet_name df :: load_frames rest
  end.

(** [load_data(path)], given what is at [path]: nothing, or a workbook
    that [pd.read_excel(path, sheet_name=None)] reads as [sheets]. *)
Definition load_data (file : option (list (string * DataFrame))) : result DataFrame :=
  match file with
  | None => inr []
  | Some sheets =>
    match load_frames sheets with
    | [] => inr []
    | frames => concat_frames frames
    end
  end.

(** *** Rows *)

Definition has_rows (n : nat) (d : DataFrame) : Prop :=
  Forall (λ cs, length cs.2 = n) d.

Lemma has_rows_set_col (n : nat) (c : string) (s : Series) (d : DataFrame) :
  has_rows n d → length s = n → has_rows n (set_col c s d).
Proof.
  intros Hd Hs. induction Hd as [|[c' s'] d H1 Hd IH]; simpl.
  - by repeat constructor.
  - destruct (String.eqb c c'); by constructor.
Qed.

Lemma has_rows_rename (n : nat) (d : DataFrame) :
  has_rows n d → has_rows n (rename_columns d).
Proof.
  intros Hd. unfold has_rows, rename_columns. rewrite Forall_fmap.
  eapply Forall_impl; [exact Hd|]. by intros [c s].
Qed.

Lemma has_rows_nrows (n : nat) (d : DataFrame) :
  has_rows n d → d ≠ [] → nrows d = n.
Proof. intros Hd Hne. destruct Hd as [|[c s] d H1 _]; [done|done]. Qed.

Lemma has_rows_lookup (n : nat) (d : DataFrame) (c : string) (s : Series) :
  has_rows n d → lookup_col c d = Some s → length s = n.
Proof.
  intros Hd [_ Hin]%lookup_col_Some. unfold has_rows in Hd.
  rewrite Forall_forall in Hd. apply (Hd _ Hin).
Qed.

Lemma set_col_nonempty (c : string) (s : Series) (d : DataFrame) : set_col c s d ≠ [].
Proof. destruct d as [|[c' s'] d]; simpl; [done|]. by destruct (String.eqb c c'). Qed.

Lemma empty_false_nonempty (d : DataFrame) : empty d = false → d ≠ [].
Proof. by destruct d. Qed.

Lemma rename_nonempty (d : DataFrame) : d ≠ [] → rename_columns d ≠ [].
Proof. by destruct d. Qed.

Lemma sheet_frame_rows (n : nat) (sheet_name : string) (df : DataFrame) :
  has_rows n df → df ≠ [] →
  has_rows n (sheet_frame sheet_name df) ∧ sheet_frame sheet_name df ≠ [].
Proof.
  intros Hd Hne. unfold sheet_frame.
  pose proof (has_rows_rename _ _ Hd) as Hr.
  pose proof (rename_nonempty _ Hne) as Hrne.
  set (df1 := rename_columns df) in *.
  assert (has_rows n (if bool_decide ("BenefitType" ∈ columns df1) then df1
                      else set_col "BenefitType"
                             (replicate (nrows df1) (CStr sheet_name)) df1)
          ∧ (if bool_decide ("BenefitType" ∈ columns df1) then df1
             else set_col "BenefitType"
                    (replicate (nrows df1) (CStr sheet_name)) df1) ≠ []) as [H2 H2ne].
  { case_bool_decide; [done|]. split; [|apply set_col_nonempty].
    apply has_rows_set_col; [done|].
    by rewrite length_replicate, (has_rows_nrows n). }
  cbv zeta. destruct (lookup_col "Age" _) as [age|] eqn:Hage; [|done].
  split; [|apply set_col_nonempty].
  apply has_rows_set_col; [done|]. unfold to_numeric. rewrite length_fmap.
  by eapply has_rows_lookup.
Qed.

(** *** Columns *)

Lemma columns_set_col_new (c : string) (s : Series) (d : DataFrame) :
  c ∉ columns d → columns (set_col c s d) = columns d ++ [c].
Proof.
  induction d as [|[c' s'] d IH]; simpl; [done|].
  intros Hc. destruct (String.eqb_spec c c') as [->|Hne].
  - exfalso. apply Hc. apply elem_of_cons. by left.
  - simpl. f_equal. apply IH. intros Hin. apply Hc. apply elem_of_cons. by right.
Qed.

Lemma columns_rename (d : DataFrame) :
  columns (rename_columns d) = renamed rename_map <$> columns d.
Proof.
  unfold columns, rename_columns. rewrite <- !list_fmap_compose.
  apply list_fmap_ext. by intros i [c s] _.
Qed.

(** The columns of the frame of a sheet: the renamed columns of the sheet,
    followed by [BenefitType] when none of them has this name. *)
Lemma columns_sheet_frame (sheet_name : string) (df : DataFrame) :
  columns (sheet_frame sheet_name df)
  = if bool_decide ("BenefitType" ∈ renamed rename_map <$> columns df)
    then renamed rename_map <$> columns df
    else (renamed rename_map <$> columns df) ++ ["BenefitType"].
Proof.
  unfold sheet_frame. cbv zeta. rewrite <- columns_rename.
  set (df1 := rename_columns df).
  assert (columns (if bool_decide ("BenefitType" ∈ columns df1) then df1
                   else set_col "BenefitType"
                          (replicate (nrows df1) (CStr sheet_name)) df1)
          = if bool_decide ("BenefitType" ∈ columns df1) then columns df1
            else columns df1 ++ ["BenefitType"]) as Hcols.
  { case_bool_decide; [done|]. by apply columns_set_col_new. }
  destruct (lookup_col "Age" _) as [age|] eqn:Hage; [|done].
  rewrite columns_set_col; [done|]. by apply lookup_col_Some in Hage as [? _].
Qed.

(** *** The frames put together *)

Lemma elem_of_add_new (l seen : list string) (c : string) :
  c ∈ add_new seen l ↔ c ∈ seen ∨ c ∈ l.
Proof.
  revert seen. induction l as [|x l IH]; intros seen; cbn [add_new].
  - split; [by left|]. by intros [?|?%elem_of_nil].
  - case_bool_decide as Hx; rewrite IH.
    + rewrite elem_of_cons. split; [tauto|]. intros [?|[->|?]]; tauto.
    + rewrite elem_of_app, list_elem_of_singleton, elem_of_cons. tauto.
Qed.

Lemma elem_of_concat_columns (frames : list DataFrame) (c : string) :
  c ∈ concat (columns <$> frames) ↔ ∃ f, f ∈ frames ∧ c ∈ columns f.
Proof.
  induction frames as [|f fs IH].
  - split; [by intros ?%elem_of_nil|]. by intros (f & ?%elem_of_nil & _).
  - rewrite fmap_cons. cbn [concat]. rewrite elem_of_app, IH. split.
    + intros [Hc|(f' & Hf' & Hc)].
      * exists f. split; [apply elem_of_cons; by left|done].
      * exists f'. split; [apply elem_of_cons; by right|done].
    + intros (f' & [->|Hf']%elem_of_cons & Hc); [by left|]. right. by exists f'.
Qed.

Lemma elem_of_all_columns (frames : list DataFrame) (c : string) :
  c ∈ all_columns frames ↔ ∃ f, f ∈ frames ∧ c ∈ columns f.
Proof.
  unfold all_columns. rewrite elem_of_add_new, elem_of_concat_columns.
  split; [|by right]. by intros [?%elem_of_nil|?].
Qed.

Lemma columns_keyed (g : string → Series) (cs : list string) :
  columns ((λ c, (c, g c)) <$> cs) = cs.
Proof.
  unfold columns. rewrite <- list_fmap_compose.
  induction cs as [|c cs IH]; [done|]. rewrite fmap_cons. by rewrite IH.
Qed.

Lemma lookup_col_keyed (g : string → Series) (cs : list string) (c : string) :
  lookup_col c ((λ c, (c, g c)) <$> cs) = if decide (c ∈ cs) then Some (g c) else None.
Proof.
  induction cs as [|c' cs IH].
  - rewrite decide_False; [done|]. by intros ?%elem_of_nil.
  - rewrite fmap_cons. cbn [lookup_col].
    destruct (String.eqb_spec c c') as [->|Hne].
    + by rewrite decide_True by (apply elem_of_cons; by left).
    + rewrite IH. destruct (decide (c ∈ cs)).
      * by rewrite decide_True by (apply elem_of_cons; by right).
      * rewrite decide_False; [done|]. by intros [?|?]%elem_of_cons.
Qed.

Lemma col_absent (d : DataFrame) (c : string) : c ∉ columns d → col d c = [].
Proof.
  intros Hc. unfold col. destruct (lookup_col c d) as [s|] eqn:Hs; [|done].
  by apply lookup_col_Some in Hs as [? _].
Qed.

Lemma concat_frames_spec (frames : list DataFrame) :
  Forall (λ f, NoDup (columns f)) frames →
  ∃ d, concat_frames frames = inr d
    ∧ columns d = all_columns frames
    ∧ Forall (λ cs, cs.2 = concat (column_or_nan cs.1 <$> frames)) d
    ∧ ∀ c, c ∈ all_columns frames → col d c = concat (column_or_nan c <$> frames).
Proof.
  intros Hnd. unfold concat_frames. rewrite bool_decide_eq_true_2 by done.
  eexists. split; [done|]. split; [apply columns_keyed|]. split.
  - rewrite Forall_fmap. by apply Forall_forall.
  - intros c Hc. unfold col.
    rewrite (lookup_col_keyed (λ c, concat (column_or_nan c <$> frames))).
    by rewrite decide_True.
Qed.

Lemma length_column_or_nan (c : string) (f : DataFrame) :
  has_rows (nrows f) f → length (column_or_nan c f) = nrows f.
Proof.
  intros Hf. unfold column_or_nan.
  destruct (lookup_col c f) as [s|] eqn:Hs; [by eapply has_rows_lookup|].
  by rewrite length_replicate.
Qed.

Lemma length_concat_columns (c : string) (frames : list DataFrame) :
  Forall (λ f, has_rows (nrows f) f) frames →
  length (concat (column_or_nan c <$> frames)) = sum_list (nrows <$> frames).
Proof.
  induction 1 as [|f fs Hf _ IH]; [done|].
  rewrite !fmap_cons. cbn [concat sum_list sum_list_with].
  rewrite length_app, IH. by rewrite length_column_or_nan.
Qed.

(** *** The frames of the sheets *)

(** The sheets that have a row. *)
Definition kept (sheets : list (string * DataFrame)) : list (string * DataFrame) :=
  List.filter (λ s, negb (empty s.2)) sheets.

Lemma load_frames_kept (sheets : list (string * DataFrame)) :
  load_frames sheets = (λ s, sheet_frame s.1 s.2) <$> kept sheets.
Proof.
  unfold kept. induction sheets as [|[name df] rest IH]; [done|].
  cbn [load_frames List.filter snd]. destruct (empty df); cbn [negb]; [done|].
  by rewrite fmap_cons, IH.
Qed.

(** A workbook as [read_excel] gives it is well formed when each of its
    sheets is rectangular and no two columns of a sheet get the same name
    from [rename]. *)
Definition well_formed (sheets : list (string * DataFrame)) : Prop :=
  Forall (λ s, rectangular s.2 ∧ NoDup (renamed rename_map <$> columns s.2)) sheets.

Lemma kept_well_formed (sheets : list (string * DataFrame)) :
  well_formed sheets →
  Forall (λ s, s.2 ≠ [] ∧ has_rows (nrows s.2) s.2
               ∧ NoDup (renamed rename_map <$> columns s.2)) (kept sheets).
Proof.
  intros Hwf. apply Forall_forall. intros s Hs.
  apply list_elem_of_In, filter_In in Hs as [Hs%list_elem_of_In He].
  apply negb_true_iff, empty_false_nonempty in He.
  unfold well_formed in Hwf. rewrite Forall_forall in Hwf.
  destruct (Hwf s Hs) as [[n Hn] Hnd].
  split; [done|]. split; [|done]. by rewrite (has_rows_nrows n).
Qed.

Lemma frames_well_formed (sheets : list (string * DataFrame)) :
  well_formed sheets →
  Forall (λ s, has_rows (nrows s.2) (sheet_frame s.1 s.2)
               ∧ nrows (sheet_frame s.1 s.2) = nrows s.2
               ∧ NoDup (columns (sheet_frame s.1 s.2))) (kept sheets).
Proof.
  intros Hwf. eapply Forall_impl; [apply (kept_well_formed _ Hwf)|].
  intros [name df] (Hne & Hrows & Hnd). simpl in *.
  destruct (sheet_frame_rows _ name df Hrows Hne) as [H1 H2].
  split; [done|]. split; [by apply has_rows_nrows|].
  rewrite columns_sheet_frame. case_bool_decide as Hb; [done|].
  apply NoDup_app. split; [done|]. split; [|apply NoDup_singleton].
  intros c Hc ->%list_elem_of_singleton. done.
Qed.

(** What [load_data] returns on a well formed workbook. *)
Lemma load_data_spec (sheets : list (string * DataFrame)) :
  well_formed sheets →
  ∃ d, load_data (Some sheets) = inr d
    ∧ columns d = all_columns (load_frames sheets)
    ∧ (∀ c, c ∈ columns d → col d c = concat (column_or_nan c <$> load_frames sheets))
    ∧ has_rows (sum_list ((λ s, nrows s.2) <$> kept sheets)) d.
Proof.
  intros Hwf. pose proof (frames_well_formed _ Hwf) as Hfr.
  assert (Forall (λ f, NoDup (columns f)) (load_frames sheets)) as Hnd.
  { rewrite load_frames_kept, Forall_fmap.
    eapply Forall_impl; [exact Hfr|]. by intros s (_ & _ & ?). }
  assert (Forall (λ f, has_rows (nrows f) f) (load_frames sheets)) as Hrows.
  { rewrite load_frames_kept, Forall_fmap.
    eapply Forall_impl; [exact Hfr|]. intros s (H1 & H2 & _). simpl. by rewrite H2. }
  assert (nrows <$> load_frames sheets = (λ s, nrows s.2) <$> kept sheets) as Hsum.
  { rewrite load_frames_kept, <- list_fmap_compose.
    apply Forall_fmap_ext. eapply Forall_impl; [exact Hfr|]. by intros s (_ & ? & _). }
  destruct (concat_frames_spec _ Hnd) as (d & Hd & Hcols & Hall & Hcol).
  cbn [load_data]. destruct (load_frames sheets) as [|f fs] eqn:Hfs.
  - exists []. split; [done|]. split; [done|]. split; [by intros c ?%elem_of_nil|].
    constructor.
  - exists d. split; [done|]. split; [done|]. split; [by rewrite Hcols|].
    eapply Forall_impl; [exact Hall|]. intros [c s] ->.
    by rewrite <- Hsum, <- (length_concat_columns c).
Qed.

(** *** The columns of a sheet's frame *)

Lemma lookup_col_absent (d : DataFrame) (c : string) :
  c ∉ columns d → lookup_col c d = None.
Proof.
  intros Hc. destruct (lookup_col c d) as [s|] eqn:Hs; [|done].
  by apply lookup_col_Some in Hs as [? _].
Qed.

Lemma lookup_col_set_col_same (c : string) (s : Series) (d : DataFrame) :
  lookup_col c (set_col c s d) = Some s.
Proof.
  induction d as [|[c' s'] d IH]; cbn [set_col lookup_col].
  - by rewrite String.eqb_refl.
  - destruct (String.eqb c c') eqn:He; cbn [lookup_col]; [by rewrite String.eqb_refl|].
    by rewrite He.
Qed.

Lemma lookup_col_set_col_other (c c' : string) (s : Series) (d : DataFrame) :
  c' ≠ c → lookup_col c' (set_col c s d) = lookup_col c' d.
Proof.
  intros Hne. induction d as [|[c0 s0] d IH]; cbn [set_col lookup_col].
  - by destruct (String.eqb_spec c' c).
  - destruct (String.eqb_spec c c0) as [->|Hc]; cbn [lookup_col].
    + by destruct (String.eqb_spec c' c0).
    + by rewrite IH.
Qed.

Lemma nrows_rename (d : DataFrame) : nrows (rename_columns d) = nrows d.
Proof. by destruct d as [|[c s] d]. Qed.

Lemma renamed_in_sheet_frame (sheet_name : string) (df : DataFrame) (c : string) :
  c ∈ columns df → renamed rename_map c ∈ columns (sheet_frame sheet_name df).
Proof.
  intros Hc. rewrite columns_sheet_frame.
  assert (renamed rename_map c ∈ renamed rename_map <$> columns df) as Hin
    by (apply list_elem_of_fmap; by exists c).
  case_bool_decide; [done|]. apply elem_of_app. by left.
Qed.

Lemma benefit_in_sheet_frame (sheet_name : string) (df : DataFrame) :
  "BenefitType" ∈ columns (sheet_frame sheet_name df).
Proof.
  rewrite columns_sheet_frame. case_bool_decide; [done|].
  apply elem_of_app. right. by apply list_elem_of_singleton.
Qed.

(** The [Age] column of the frame of a sheet holds numbers only. *)
Lemma age_of_sheet_frame (sheet_name : string) (df : DataFrame) :
  Forall (λ x, numeric_cell x = true) (column_or_nan "Age" (sheet_frame sheet_name df)).
Proof.
  unfold sheet_frame. cbv zeta.
  destruct (lookup_col "Age" _) as [age|] eqn:Hage; unfold column_or_nan.
  - rewrite lookup_col_set_col_same. unfold to_numeric.
    apply Forall_fmap, Forall_forall. by intros [x|t|] _.
  - rewrite Hage. by apply Forall_replicate.
Qed.

(** The [BenefitType] column of the frame of a sheet: the sheet's own,
    under whichever of its names, or the name of the sheet on every row. *)
Lemma benefit_of_sheet_frame (sheet_name : string) (df : DataFrame) :
  column_or_nan "BenefitType" (sheet_frame sheet_name df)
  = match lookup_col "BenefitType" (rename_columns df) with
    | Some b => b
    | None => replicate (nrows df) (CStr sheet_name)
    end.
Proof.
  unfold sheet_frame. cbv zeta. set (df1 := rename_columns df).
  assert (lookup_col "BenefitType"
            (if bool_decide ("BenefitType" ∈ columns df1) then df1
             else set_col "BenefitType" (replicate (nrows df1) (CStr sheet_name)) df1)
          = Some (match lookup_col "BenefitType" df1 with
                  | Some b => b
                  | None => replicate (nrows df) (CStr sheet_name)
                  end)) as Hb.
  { case_bool_decide as Hin.
    - by destruct (lookup_col_columns _ _ Hin) as [b ->].
    - rewrite lookup_col_set_col_same, (lookup_col_absent _ _ Hin).
      unfold df1. by rewrite nrows_rename. }
  unfold column_or_nan.
  destruct (lookup_col "Age" _) as [age|] eqn:Hage.
  - rewrite lookup_col_set_col_other by done. by rewrite Hb.
  - by rewrite Hb.
Qed.

(** X17.  On a workbook whose sheets are rectangular, with no two columns
    of a sheet that [rename] gives the same name, and with a sheet that has
    a row and the columns [Age], [Gender] and [Occupation], [load_data]
    returns a table as the queries expect it: rectangular, with the columns
    [Age], [Gender], [Occupation] and [BenefitType], and with numbers (or
    [NaN]) only in its column [Age]; it has one row per row of the sheets
    that have a row. *)
Theorem loaded_table_is_normalized (sheets : list (string * DataFrame)) :
  well_formed sheets →
  Exists (λ s, empty s.2 = false ∧ "Age" ∈ columns s.2 ∧ "Gender" ∈ columns s.2
               ∧ "Occupation" ∈ columns s.2) sheets →
  ∃ d, load_data (Some sheets) = inr d
    ∧ normalized d ∧ age_numeric d
    ∧ has_rows (sum_list ((λ s, nrows s.2) <$> kept sheets)) d.
Proof.
  intros Hwf Hex.
  destruct (load_data_spec _ Hwf) as (d & Hd & Hcols & Hcol & Hrows).
  exists d. split; [done|].
  apply Exists_exists in Hex as ([name df] & Hin & He & Ha & Hg & Ho). simpl in *.
  assert (sheet_frame name df ∈ load_frames sheets) as Hf.
  { rewrite load_frames_kept. apply list_elem_of_fmap. exists (name, df).
    split; [done|]. apply list_elem_of_In, filter_In.
    split; [by apply list_elem_of_In|]. simpl. by rewrite He. }
  assert (∀ c, c ∈ columns (sheet_frame name df) → c ∈ columns d) as Hsub.
  { intros c Hc. rewrite Hcols. apply elem_of_all_columns. by eexists. }
  split; [|split; [|done]].
  - split; [by eexists|].
    split; [apply Hsub, (renamed_in_sheet_frame name df "Age" Ha)|].
    split; [apply Hsub, (renamed_in_sheet_frame name df "Gender" Hg)|].
    split; [apply Hsub, (renamed_in_sheet_frame name df "Occupation" Ho)|].
    apply Hsub, benefit_in_sheet_frame.
  - unfold age_numeric.
    rewrite Hcol by apply Hsub, (renamed_in_sheet_frame name df "Age" Ha).
    apply Forall_concat. rewrite load_frames_kept, <- list_fmap_compose.
    apply Forall_fmap, Forall_forall. intros s _. apply age_of_sheet_frame.
Qed.

(** X18.  The column [BenefitType] of the table [load_data] returns, on a
    workbook as above: sheet after sheet, for the sheets that have a row,
    the sheet's own benefit column (headed [BenefitType], [Benefit type],
    [Benefit Type] or [Benefit]) or, for a sheet without one, the name of
    the sheet on each of its rows. *)
Theorem benefit_type_of_sheets (sheets : list (string * DataFrame)) :
  well_formed sheets →
  ∃ d, load_data (Some sheets) = inr d
    ∧ col d "BenefitType"
      = concat ((λ s, match lookup_col "BenefitType" (rename_columns s.2) with
                      | Some b => b
                      | None => replicate (nrows s.2) (CStr s.1)
                      end) <$> kept sheets).
Proof.
  intros Hwf.
  destruct (load_data_spec _ Hwf) as (d & Hd & Hcols & Hcol & _).
  exists d. split; [done|].
  destruct (kept sheets) as [|s0 rest] eqn:Hk.
  - rewrite load_frames_kept, Hk in Hcols.
    rewrite col_absent; [done|]. rewrite Hcols. by intros ?%elem_of_nil.
  - rewrite Hcol.
    + rewrite load_frames_kept, Hk, <- list_fmap_compose. f_equal.
      apply list_fmap_ext. intros i s _. apply benefit_of_sheet_frame.
    + rewrite Hcols. apply elem_of_all_columns. exists (sheet_frame s0.1 s0.2).
      split; [|apply benefit_in_sheet_frame].
      rewrite load_frames_kept, Hk. apply elem_of_cons. by left.
Qed.

End Loading.

(** ** Instances *)

(** A table without the column [Gender]. *)
Definition no_gender : DataFrame :=
  [("Age", [CNum 30]);
   ("Occupation", [CStr "Clerk"]);
   ("Acme rates", [CNum 1.5])].

(** A table without the column [BenefitType]. *)
Definition no_benefit : DataFrame :=
  [("Age", [CNum 30; CNum 40]);
   ("Gender", [CStr "F"; CStr "F"]);
   ("Occupation", [CStr "Clerk"; CStr "Clerk"]);
   ("Acme rates", [CNum 1.5; CStr "n/a"])].

(** A workbook of two sheets: one with an age that is no number and no
    benefit column, one without a row. *)
Definition workbook : list (string * DataFrame) :=
  [("IP", [("Age", [CStr "n/a"; CNum 40]);
           ("Gender", [CStr "F"; CStr "M"]);
           ("Occupation", [CStr "Clerk"; CStr "Clerk"]);
           ("Acme rates", [CNum 1.5; CNum 2])]);
   ("Notes", [])].

Example load_data_workbook :
  load_data reads_none (Some workbook)
  = inr [("Age", [CNum nan; CNum 40]);
         ("Gender", [CStr "F"; CStr "M"]);
         ("Occupation", [CStr "Clerk"; CStr "Clerk"]);
         ("Acme rates", [CNum 1.5; CNum 2]);
         ("BenefitType", [CStr "IP"; CStr "IP"])].
Proof. vm_compute. reflexivity. Qed.

Example trend_of_rates :
  (build_trend reads_none 0 [] "F" "Clerk" "Death" None None [rates]).1
  = inr ([("Age", [CNum 30; CNum 40; CNum 40]);
          ("Company", [CStr "Acme"; CStr "Acme"; CStr "Beta"]);
          ("Rate", [CNum 1.5; CNum 2; CNum 3])], []).
Proof. vm_compute. reflexivity. Qed.

Lemma well_formed_workbook : well_formed workbook.
Proof.
  apply Forall_cons. split; [split; [exists 2; repeat constructor|by_computing]|].
  apply Forall_cons. split; [split; [by exists 0|constructor]|constructor].
Defined.

Lemma missing_filter_column_raises_witness :
  (build_lookup 0 30 "F" "Clerk" "Death" [no_gender]).1 = inl (KeyError "Gender").
Proof.
  apply (proj1 (missing_filter_column_raises reads_none plain_mean [no_gender] 0 no_gender
                  30 "F" "Clerk" "Death" [] "Acme rates" [] None None eq_refl)).
  reflexivity.
Defined.

Lemma benefit_ignored_without_column_witness :
  (build_lookup 0 30 "F" "Clerk" "Death" [no_benefit]).1
  = (build_lookup 0 30 "F" "Clerk" "TPD" [no_benefit]).1
  ∧ (build_trend reads_none 0 [] "F" "Clerk" "Death" None None [no_benefit]).1
    = (build_trend reads_none 0 [] "F" "Clerk" "TPD" None None [no_benefit]).1
  ∧ (build_relative_trend reads_none plain_mean 0 "Acme rates" ["Acme rates"]
       "F" "Clerk" "Death" None None [no_benefit]).1
    = (build_relative_trend reads_none plain_mean 0 "Acme rates" ["Acme rates"]
         "F" "Clerk" "TPD" None None [no_benefit]).1.
Proof.
  apply (benefit_ignored_without_column reads_none plain_mean [no_benefit] 0 no_benefit
           30 "F" "Clerk" "Death" "TPD" [] "Acme rates" ["Acme rates"] None None eq_refl).
  by_computing.
Defined.

Lemma display_name_drops_suffix_witness :
  display_name ("Acme" +:+ " rates") = "Acme" ∧ display_name "Acme" = "Acme".
Proof. apply (display_name_drops_suffix "Acme"). reflexivity. Defined.



Lemma relative_trend_blocks_witness :
  ∃ F, filtered_rows rates "F" "Clerk" "Death" None None = inr F
    ∧ (build_relative_trend reads_none plain_mean 0 "Beta rates" ["Acme rates"]
         "F" "Clerk" "Death" None None [rates]).1
      = inr (match ratio_blocks reads_none plain_mean F "Beta rates" ["Acme rates"] with
             | [] => []
             | rows => ratio_frame rows
             end,
             List.filter
               (λ c, is_nil (join (series_of reads_none plain_mean F "Beta rates")
                               (series_of reads_none plain_mean F c)))
               ["Acme rates"],
             is_nil (series_of reads_none plain_mean F "Beta rates")).
Proof.
  apply (relative_trend_blocks reads_none plain_mean [rates] 0 rates
           "Beta rates" ["Acme rates"] "F" "Clerk" "Death" None None eq_refl).
  - by_computing.
  - by_computing.
  - by_computing.
  - exact age_numeric_rates.
  - discriminate.
  - discriminate.
  - repeat constructor; first [by_computing|discriminate].
Defined.

Lemma loaded_table_is_normalized_witness :
  ∃ d, load_data reads_none (Some workbook) = inr d
    ∧ normalized d ∧ age_numeric d
    ∧ has_rows (sum_list ((λ s, nrows s.2) <$> kept workbook)) d.
Proof.
  apply (loaded_table_is_normalized reads_none workbook well_formed_workbook).
  apply Exists_cons_hd. repeat split; by_computing.
Defined.

Lemma benefit_type_of_sheets_witness :
  ∃ d, load_data reads_none (Some workbook) = inr d
    ∧ col d "BenefitType"
      = concat ((λ s, match lookup_col "BenefitType" (rename_columns s.2) with
                      | Some b => b
                      | None => replicate (nrows s.2) (CStr s.1)
                      end) <$> kept workbook).
Proof. apply (benefit_type_of_sheets reads_none workbook well_formed_workbook). Defined.

End VizAppExtra.
